(** * Provider dispatch and error classification of the page summarizer

    A shallow embedding of the popup's multi-provider layer:
    - [providers/openai.js], [providers/gemini.js], [providers/claude.js]:
      the three adapters ([OpenAIProvider], [GeminiProvider],
      [ClaudeProvider]);
    - [popup.js], in its multi-provider revision (the one kept next to the
      Claude adapter, with the 400/401/403 and 404 rules): [classifyError],
      the dispatching [generateSummary] and the error handling of
      [summarizePage];
    - [popup.js], the same revision, around them: key management and
      provider selection ([saveApiKey], [handleProviderChange], [init]),
      the summary history ([saveSummary], [loadHistory], [clearHistory]),
      the content script [extractPageContent], the image indicator and the
      name of the file written by [downloadAsMarkdown].

    JavaScript values are a small inductive type, thrown values are a tagged
    union of what the code throws, and the asynchronous code is written in a
    state-and-exception monad over a virtual clock, a network oracle and a
    trace of the observable calls.

    Conventions of the model: a string is the UTF-8 encoding of a JavaScript
    string (a lone surrogate is encoded like any other code unit), and
    [js_length] and [js_slice] count and cut UTF-16 code units as [.length]
    and [.slice] do; a number is an integer literal of a JSON text, rounded
    to a double as [JSON.parse] does and printed as [String] prints it;
    conversion to a string can throw, as it does for an object with an own
    [toString]; a response arrives in two steps on the clock, the headers
    ([fetch]) and the body ([response.json()], [response.blob()]), and the
    signal of the request can cut either.  Console logging and the DOM
    updates that cannot fail are left out; reading a blob with a
    [FileReader] takes no time. *)

From Stdlib Require Import String Ascii ZArith NArith List Bool Lia QArith Lqa DecimalString.
Import ListNotations.
Local Open Scope list_scope.
Local Open Scope string_scope.
Set Warnings "-register-all".

(** ** JavaScript values *)

Module JS.

(** The values [response.json()] can produce, plus [undefined].  [VNum n] is
    the number [JSON.parse] makes of the integer literal [n], that is [n]
    rounded to the nearest double ([to_double]); the tests the code makes on
    a number (truthiness, [=== 429], [>= 500], ...) have the same answer on
    [n] and on that double.  A fractional number has no representation: no
    property of the code depends on one. *)
Inductive jsval : Type :=
| VUndefined
| VNull
| VBool (b : bool)
| VNum (n : Z)
| VStr (s : string)
| VArr (items : list jsval)
| VObj (fields : list (string * jsval)).

(** Decimal digits, with a minus sign for a negative integer. *)
Definition string_of_Z (z : Z) : string := NilZero.string_of_int (Z.to_int z).

(** The integer [n] rounded to the nearest double, ties to the even
    significand; [None] is an infinity. *)
Definition to_double (n : Z) : option Z :=
  let a := Z.abs n in
  if (a <=? 2 ^ 53)%Z then Some n
  else
    let shift := (Z.log2 a - 52)%Z in
    let q := Z.shiftr a shift in
    let r := (a - Z.shiftl q shift)%Z in
    let half := Z.shiftl 1 (shift - 1) in
    let q' := if ((half <? r) || ((r =? half) && Z.odd q))%Z then (q + 1)%Z else q in
    let d := Z.shiftl q' shift in
    if (2 ^ 1024 <=? d)%Z then None else Some (Z.sgn n * d)%Z.

(** The decimal with the fewest significant digits that still denotes the
    double [x > 2 ^ 53]: the multiple of the largest power of ten [10 ^ j]
    that rounds to [x], the nearer one of two, the one with the even digit
    on a tie (Number::toString, step 5). *)
Fixpoint shortest_decimal (j : nat) (x : Z) : Z :=
  let p := (10 ^ Z.of_nat j)%Z in
  let lo := (x / p * p)%Z in
  let hi := (lo + p)%Z in
  let denotes v := match to_double v with Some d => (d =? x)%Z | None => false end in
  if denotes lo && denotes hi then
    if (x - lo <? hi - x)%Z then lo
    else if (hi - x <? x - lo)%Z then hi
    else if Z.even (lo / p) then lo else hi
  else if denotes lo then lo
  else if denotes hi then hi
  else match j with
       | O => x
       | S j' => shortest_decimal j' x
       end.

Fixpoint strip_zeros_rev (s : list ascii) : list ascii :=
  match s with
  | "0"%char :: rest => strip_zeros_rev rest
  | _ => s
  end.

(** The digits of [s] without its trailing zeros. *)
Definition significant_digits (s : string) : string :=
  string_of_list_ascii (rev (strip_zeros_rev (rev (list_ascii_of_string s)))).

(** Number::toString for the number [VNum n] stands for: its digits when it
    is below [10 ^ 21], the exponent form from there on. *)
Definition Number_toString (n : Z) : string :=
  match to_double n with
  | None => if (n <? 0)%Z then "-Infinity" else "Infinity"
  | Some d =>
      let a := Z.abs d in
      let v := if (a <=? 2 ^ 53)%Z then a
               else shortest_decimal (String.length (string_of_Z a)) a in
      let digits := string_of_Z v in
      let k := String.length digits in
      (if (d <? 0)%Z then "-" else "") ++
      (if (k <=? 21)%nat then digits
       else
         let exponent := "e+" ++ string_of_Z (Z.of_nat (k - 1)) in
         match significant_digits digits with
         | String d1 EmptyString => String d1 EmptyString ++ exponent
         | String d1 more => String d1 ("." ++ more) ++ exponent
         | EmptyString => digits
         end)
  end.

(** The digits of a length or an index. *)
Definition string_of_nat (n : nat) : string := Number_toString (Z.of_nat n).

(** The UTF-16 code units a byte of a UTF-8 string accounts for: one for an
    ASCII byte and for the lead byte of a sequence of two or three bytes, two
    for the lead byte of a sequence of four, none for a continuation byte. *)
Definition utf16_units (b : ascii) : nat :=
  let n := nat_of_ascii b in
  if (n <? 128)%nat then 1%nat
  else if (n <? 192)%nat then 0%nat
  else if (n <? 240)%nat then 1%nat
  else 2%nat.

(** [s.length]. *)
Fixpoint js_length (s : string) : nat :=
  match s with
  | EmptyString => 0%nat
  | String b rest => (utf16_units b + js_length rest)%nat
  end.

(** The high surrogate of the character whose four bytes are [b0 b1 b2 ...],
    as the three bytes of a code unit. *)
Definition high_surrogate (b0 b1 b2 : ascii) : string :=
  let cp := ((N_of_ascii b0 mod 8) * 262144 + (N_of_ascii b1 mod 64) * 4096
             + (N_of_ascii b2 mod 64) * 64)%N in
  let hi := ((cp - 65536) / 1024)%N in
  String (ascii_of_N 237)
    (String (ascii_of_N (160 + (hi / 64) mod 16))
       (String (ascii_of_N (128 + hi mod 64)) EmptyString)).

(** [s.slice(0, n)]: the first [n] code units.  A cut in the middle of a
    character of two code units keeps its high surrogate. *)
Fixpoint js_slice (n : nat) (s : string) : string :=
  match s with
  | EmptyString => EmptyString
  | String b rest =>
      match utf16_units b, n with
      | O, _ => String b (js_slice n rest)
      | S O, O => EmptyString
      | S O, S n' => String b (js_slice n' rest)
      | S (S _), O => EmptyString
      | S (S _), S O =>
          match rest with
          | String b1 (String b2 _) => high_surrogate b b1 b2
          | _ => EmptyString
          end
      | S (S _), S (S n') => String b (js_slice n' rest)
      end
  end.

(** ToBoolean. *)
Definition truthy (v : jsval) : bool :=
  match v with
  | VUndefined | VNull => false
  | VBool b => b
  | VNum n => negb (n =? 0)%Z
  | VStr s => negb (s =? "")
  | VArr _ | VObj _ => true
  end.

(** [a || b]. *)
Definition js_or (a b : jsval) : jsval := if truthy a then a else b.

Definition nullish (v : jsval) : bool :=
  match v with VUndefined | VNull => true | _ => false end.

(** The object has an own property [k]. *)
Definition has_own (k : string) (fields : list (string * jsval)) : bool :=
  existsb (fun kv => fst kv =? k) fields.

(** ToString, as used by template literals and by [new Error(x)]; [None] is
    the TypeError "Cannot convert object to primitive value".  An object
    parsed from JSON has no callable member of its own: with an own
    [toString] neither that nor [valueOf] yields a primitive and the
    conversion throws; without one [Object.prototype.toString] answers.  An
    array is joined, [null] and [undefined] printing as the empty string. *)
Fixpoint ToString (v : jsval) : option string :=
  match v with
  | VUndefined => Some "undefined"
  | VNull => Some "null"
  | VBool true => Some "true"
  | VBool false => Some "false"
  | VNum n => Some (Number_toString n)
  | VStr s => Some s
  | VArr items =>
      (fix join (l : list jsval) : option string :=
         match l with
         | [] => Some ""
         | x :: rest =>
             match (if nullish x then Some "" else ToString x), join rest with
             | Some first, Some others =>
                 Some (first ++ match rest with [] => "" | _ => "," ++ others end)
             | _, _ => None
             end
         end) items
  | VObj fields => if has_own "toString" fields then None else Some "[object Object]"
  end.

(** [hay.includes(needle)]. *)
Fixpoint includes (needle hay : string) : bool :=
  String.prefix needle hay ||
  match hay with
  | EmptyString => false
  | String _ rest => includes needle rest
  end.

(** Property keys: [v.name] and [v[i]]. *)
Inductive Key := KName (s : string) | KIndex (i : nat).

Definition key_string (k : Key) : string :=
  match k with KName s => s | KIndex i => string_of_nat i end.

Fixpoint assoc (k : string) (fields : list (string * jsval)) : jsval :=
  match fields with
  | [] => VUndefined
  | (k', v) :: rest => if k =? k' then v else assoc k rest
  end.

(** Property read on a value that is neither [null] nor [undefined].  The
    named keys the adapters read ([content], [text], [choices], [message],
    [candidates], [parts], [error]) are defined on no built-in prototype, so
    only own properties answer.  An index into a string is only ever followed
    by a named read, which is [undefined] on any character. *)
Definition get_own (v : jsval) (k : Key) : jsval :=
  match v, k with
  | VObj fields, _ => assoc (key_string k) fields
  | VArr items, KIndex i => nth i items VUndefined
  | VStr s, KIndex i =>
      match String.get i s with
      | Some c => VStr (String c EmptyString)
      | None => VUndefined
      end
  | _, _ => VUndefined
  end.

(** [v?.k]: never throws. *)
Definition opt_get (v : jsval) (k : Key) : jsval :=
  if nullish v then VUndefined else get_own v k.

End JS.
Export JS.

(** ** Error taxonomy ([popup.js]) *)

(** [ERROR_TYPES]. *)
Inductive ErrorType :=
| NETWORK_ERROR | UNAUTHORIZED | RATE_LIMIT | SERVER_ERROR | TIMEOUT
| INVALID_RESPONSE | CONTENT_EXTRACTION_FAILED | UNKNOWN.

Definition ERROR_TYPES (t : ErrorType) : string :=
  match t with
  | NETWORK_ERROR => "network_error"
  | UNAUTHORIZED => "unauthorized"
  | RATE_LIMIT => "rate_limit"
  | SERVER_ERROR => "server_error"
  | TIMEOUT => "timeout"
  | INVALID_RESPONSE => "invalid_response"
  | CONTENT_EXTRACTION_FAILED => "content_extraction_failed"
  | UNKNOWN => "unknown"
  end.

Definition ErrorType_eqb (a b : ErrorType) : bool :=
  ERROR_TYPES a =? ERROR_TYPES b.

(** [USER_MESSAGES]. *)
Definition USER_MESSAGES (t : ErrorType) : string :=
  match t with
  | NETWORK_ERROR => "🌐 Network error: Please check your internet connection."
  | UNAUTHORIZED =>
      "🔑 Invalid API key. Please update your API key in the extension settings."
  | RATE_LIMIT =>
      "⏱️ Rate limited: Too many requests. Please try again in a few moments."
  | SERVER_ERROR => "🔧 AI service temporarily unavailable. Please try again later."
  | TIMEOUT => "⏳ Request timed out. Please try again."
  | INVALID_RESPONSE => "⚠️ Unexpected response from AI service. Please try again."
  | CONTENT_EXTRACTION_FAILED =>
      "Could not extract content from this page. Try a different page."
  | UNKNOWN => "❌ An unexpected error occurred. Please try again."
  end.

(** The literal of the 404 branch of [classifyError]. *)
Definition MODEL_NOT_FOUND_MESSAGE : string :=
  "🔍 AI model not found. The selected model may not be available for your API key.".

(** The classified error object [{type, userMessage, debugInfo}]. *)
Record CanonicalError := {
  type : ErrorType;
  userMessage : string;
  debugInfo : jsval
}.

(** Prototype of a thrown [Error] instance, as far as [instanceof] sees it. *)
Inductive ErrorClass :=
| TypeErrorClass | SyntaxErrorClass | DOMExceptionClass | PlainErrorClass.

(** What the code throws and catches:
    - an [Error] instance (its [name] and [message] are strings);
    - the plain object [{httpStatus, message}] of the adapters;
    - the plain object [{type, userMessage, debugInfo}]. *)
Inductive Thrown :=
| ErrorInstance (cls : ErrorClass) (name : string) (message : string)
| HttpFailure (httpStatus : Z) (message : jsval)
| Canonical (c : CanonicalError).

(** [new Error(m)] and [new TypeError(m)] for a string [m], the TypeError of
    a failed conversion to a string, and the rejection of an aborted fetch or
    body read. *)
Definition new_Error (m : string) : Thrown :=
  ErrorInstance PlainErrorClass "Error" m.
Definition new_TypeError (m : string) : Thrown :=
  ErrorInstance TypeErrorClass "TypeError" m.
Definition not_primitive : Thrown :=
  new_TypeError "Cannot convert object to primitive value".
Definition AbortError : Thrown :=
  ErrorInstance DOMExceptionClass "AbortError" "signal is aborted without reason".

(** [error instanceof TypeError]. *)
Definition instanceof_TypeError (error : Thrown) : bool :=
  match error with
  | ErrorInstance TypeErrorClass _ _ => true
  | _ => false
  end.

(** [error?.name], [error?.message], [error.httpStatus], [err.type],
    [err.userMessage]. *)
Definition prop_name (error : Thrown) : jsval :=
  match error with
  | ErrorInstance _ n _ => VStr n
  | _ => VUndefined
  end.

Definition prop_message (error : Thrown) : jsval :=
  match error with
  | ErrorInstance _ _ m => VStr m
  | HttpFailure _ m => m
  | Canonical _ => VUndefined
  end.

Definition prop_httpStatus (error : Thrown) : jsval :=
  match error with
  | HttpFailure s _ => VNum s
  | _ => VUndefined
  end.

Definition prop_type (err : Thrown) : jsval :=
  match err with
  | Canonical c => VStr (ERROR_TYPES (type c))
  | _ => VUndefined
  end.

Definition prop_userMessage (err : Thrown) : jsval :=
  match err with
  | Canonical c => VStr (userMessage c)
  | _ => VUndefined
  end.

(** [x === "AbortError"] and the like. *)
Definition is_string (v : jsval) (s : string) : bool :=
  match v with VStr s' => s' =? s | _ => false end.

(** [classifyError(error, httpStatus = null)]; [None] is [null]. *)
Definition classifyError (error : Thrown) (httpStatus : option Z) : CanonicalError :=
  if match error with
     | ErrorInstance TypeErrorClass _ m =>
         includes "Failed to fetch" m || includes "fetch" m
     | _ => false
     end
  then {| type := NETWORK_ERROR;
          userMessage := USER_MESSAGES NETWORK_ERROR;
          debugInfo := prop_message error |}
  else if is_string (prop_name error) "AbortError"
  then {| type := TIMEOUT;
          userMessage := USER_MESSAGES TIMEOUT;
          debugInfo := VStr "Request aborted due to timeout" |}
  else
    let unknown :=
      {| type := UNKNOWN;
         userMessage := USER_MESSAGES UNKNOWN;
         debugInfo := js_or (prop_message error) (VStr "Unknown error occurred") |} in
    match httpStatus with
    | Some s =>
        if negb (s =? 0)%Z then
          if ((s =? 400) || (s =? 401) || (s =? 403))%Z
          then {| type := UNAUTHORIZED;
                  userMessage := USER_MESSAGES UNAUTHORIZED;
                  debugInfo :=
                    VStr ("HTTP " ++ Number_toString s ++ ": Unauthorized / Bad API key") |}
          else if (s =? 429)%Z
          then {| type := RATE_LIMIT;
                  userMessage := USER_MESSAGES RATE_LIMIT;
                  debugInfo := VStr "HTTP 429: Rate limit exceeded" |}
          else if (s =? 404)%Z
          then {| type := UNKNOWN;
                  userMessage := MODEL_NOT_FOUND_MESSAGE;
                  debugInfo := VStr "HTTP 404: Model not found" |}
          else if (500 <=? s)%Z
          then {| type := SERVER_ERROR;
                  userMessage := USER_MESSAGES SERVER_ERROR;
                  debugInfo := VStr ("HTTP " ++ Number_toString s ++ ": Server error") |}
          else unknown
        else unknown
    | None => unknown
    end.

(** ** Requests, responses and the runtime *)

(** [summaryType]: the keys of the adapters' [prompts] table. *)
Inductive SummaryType := brief | detailed | technical.

(** An extracted page image [{url, alt}]. *)
Record Image := { img_url : string; img_alt : string }.

(** [controller.signal] of the controller whose [abort()] is the callback of
    a timer due at [aborts_at] (milliseconds on the virtual clock). *)
Record AbortSignal := { aborts_at : N }.

(** The bodies handed to [JSON.stringify], before serialisation. *)
Inductive ClaudePart :=
| ClaudeTextPart (text : string)              (* {type: "text", text} *)
| ClaudeImagePart (url : string).             (* {type: "image", source: {type: "url", url}} *)

Inductive ClaudeContent :=
| ClaudeString (s : string)
| ClaudeArray (parts : list ClaudePart).

Inductive OpenAIPart :=
| OpenAITextPart (text : string)              (* {type: "text", text} *)
| OpenAIImagePart (url detail : string).      (* {type: "image_url", image_url: {url, detail}} *)

Inductive OpenAIContent :=
| OpenAIString (s : string)
| OpenAIArray (parts : list OpenAIPart).

Inductive GeminiPart :=
| GeminiTextPart (text : string)              (* {text} *)
| GeminiInlineData (mime_type data : string). (* {inline_data: {mime_type, data}} *)

Inductive RequestBody :=
| NoBody
| ClaudeBody (model : string) (max_tokens : Z) (user_content : ClaudeContent)
             (system : string) (temperature : Q)
| OpenAIBody (model : string) (system_content : string)
             (user_content : OpenAIContent) (max_tokens : Z) (temperature : Q)
| GeminiBody (parts : list GeminiPart) (temperature : Q) (maxOutputTokens : Z).

Record Request := {
  url : string;
  method : string;
  signal : option AbortSignal;
  headers : list (string * string);
  body : RequestBody
}.

(** What [response.blob()] resolves to, and what a [FileReader] makes of it:
    [blob_type] is [blob.type]; [reader_result] is [reader.result] when the
    reader has loaded the blob, [None] when it reports an error. *)
Record Blob := { blob_type : string; reader_result : option string }.

(** A response whose headers have arrived.  The body arrives [body_latency]
    ms later; [json] is what [response.json()] then resolves to ([None]: it
    rejects with a SyntaxError), [blob] what [response.blob()] resolves to
    ([None]: it rejects). *)
Record Response := {
  ok : bool;
  status : Z;
  body_latency : N;
  json : option jsval;
  blob : option Blob
}.

(** How a request that is not aborted settles: a response, or the TypeError
    of a transport failure. *)
Inductive FetchOutcome :=
| Resolves (r : Response)
| Fails (message : string).

(** The remote side: the [n]-th [fetch] of a run, for this request, settles
    after a latency (ms) with an outcome. *)
Definition Network := nat -> Request -> N * FetchOutcome.

(** Observable calls. *)
Inductive Event :=
| EvSetTimeout (ms : N)
| EvClearTimeout
| EvFetch (r : Request)
| EvAbort                                      (* the timer fires: [controller.abort()] *)
| EvClassify (error : Thrown) (httpStatus : option Z)
| EvShowError (msg : string).

Record Clock := { now : N; fetches : nat }.

Inductive Outcome (A : Type) :=
| Returned (a : A)
| Threw (e : Thrown).
Arguments Returned {A} a.
Arguments Threw {A} e.

Record Run (A : Type) := {
  final : Clock;
  events : list Event;
  outcome : Outcome A
}.
Arguments final {A} _.
Arguments events {A} _.
Arguments outcome {A} _.

(** An asynchronous computation: reads the network, advances the clock,
    emits events, and returns or throws. *)
Definition M (A : Type) := Network -> Clock -> Run A.

Definition ret {A} (a : A) : M A :=
  fun _ c => {| final := c; events := []; outcome := Returned a |}.

Definition throw {A} (e : Thrown) : M A :=
  fun _ c => {| final := c; events := []; outcome := Threw e |}.

Definition bind {A B} (m : M A) (k : A -> M B) : M B :=
  fun net c =>
    let r := m net c in
    match outcome r with
    | Returned a =>
        let r' := k a net (final r) in
        {| final := final r'; events := (events r ++ events r')%list; outcome := outcome r' |}
    | Threw e => {| final := final r; events := events r; outcome := Threw e |}
    end.

Declare Scope js_scope.
Delimit Scope js_scope with js.
Notation "x <- m ;; k" := (bind m (fun x => k))
  (at level 61, m at next level, right associativity) : js_scope.
Notation "m ;;; k" := (bind m (fun _ => k))
  (at level 61, right associativity) : js_scope.
Local Open Scope js_scope.

(** [try { m } catch (e) { handler e }]. *)
Definition try_catch {A} (m : M A) (handler : Thrown -> M A) : M A :=
  fun net c =>
    let r := m net c in
    match outcome r with
    | Returned a => r
    | Threw e =>
        let r' := handler e net (final r) in
        {| final := final r'; events := (events r ++ events r')%list; outcome := outcome r' |}
    end.

(** [try { m } finally { f }], for an [f] that does not throw. *)
Definition try_finally {A} (m : M A) (f : M unit) : M A :=
  fun net c =>
    let r := m net c in
    let r' := f net (final r) in
    {| final := final r'; events := (events r ++ events r')%list; outcome := outcome r |}.

Definition emit (ev : Event) : M unit :=
  fun _ c => {| final := c; events := [ev]; outcome := Returned tt |}.

(** [const controller = new AbortController();
     const timeoutId = setTimeout(() => controller.abort(), ms)]. *)
Definition setTimeout_abort (ms : N) : M AbortSignal :=
  fun _ c => {| final := c; events := [EvSetTimeout ms];
                outcome := Returned {| aborts_at := now c + ms |} |}.

(** [clearTimeout(timeoutId)]. *)
Definition clearTimeout : M unit := emit EvClearTimeout.

(** [await fetch(url, {signal, ...})].  A request carrying a signal whose
    timer is due no later than the time the request would settle is rejected
    with the AbortError; otherwise the request settles as the network says. *)
Definition fetch (req : Request) : M Response :=
  fun net c =>
    let '(latency, out) := net (fetches c) req in
    let settles := (now c + latency)%N in
    let at_ t := {| now := t; fetches := S (fetches c) |} in
    let settled :=
      match out with
      | Resolves r =>
          {| final := at_ settles; events := [EvFetch req]; outcome := Returned r |}
      | Fails m =>
          {| final := at_ settles; events := [EvFetch req];
             outcome := Threw (new_TypeError m) |}
      end in
    match signal req with
    | Some sg =>
        if (aborts_at sg <=? settles)%N
        then {| final := at_ (N.max (now c) (aborts_at sg));
                events := [EvFetch req; EvAbort];
                outcome := Threw AbortError |}
        else settled
    | None => settled
    end.

(** Reading the body of [response], whose request carried [signal]: the body
    has arrived [body_latency] ms after the headers; a signal whose timer is
    due no later than that rejects the read with the AbortError. *)
Definition read_body {A} (signal : option AbortSignal) (response : Response)
    (result : Outcome A) : M A :=
  fun _ c =>
    let arrives := (now c + body_latency response)%N in
    let read :=
      {| final := {| now := arrives; fetches := fetches c |}; events := [];
         outcome := result |} in
    match signal with
    | Some sg =>
        if (aborts_at sg <=? arrives)%N
        then {| final := {| now := N.max (now c) (aborts_at sg); fetches := fetches c |};
                events := [EvAbort];
                outcome := Threw AbortError |}
        else read
    | None => read
    end.

(** [await response.json()]. *)
Definition response_json (signal : option AbortSignal) (response : Response) : M jsval :=
  read_body signal response
    match json response with
    | Some v => Returned v
    | None => Threw (ErrorInstance SyntaxErrorClass "SyntaxError"
                       "Unexpected end of JSON input")
    end.

(** [await response.blob()]. *)
Definition response_blob (signal : option AbortSignal) (response : Response) : M Blob :=
  read_body signal response
    match blob response with
    | Some b => Returned b
    | None => Threw (new_TypeError "Failed to fetch")
    end.

(** [v.k]: throws a TypeError on [null] and [undefined]. *)
Definition member (v : jsval) (k : string) : M jsval :=
  match v with
  | VNull =>
      throw (new_TypeError ("Cannot read properties of null (reading '" ++ k ++ "')"))
  | VUndefined =>
      throw (new_TypeError ("Cannot read properties of undefined (reading '" ++ k ++ "')"))
  | _ => ret (get_own v (KName k))
  end.

(** [`${v}`] and the conversion [new Error(v)] makes of its argument. *)
Definition to_string (v : jsval) : M string :=
  match ToString v with
  | Some s => ret s
  | None => throw not_primitive
  end.

(** [await Promise.all(ms)] for computations started together: each starts at
    the same time, the whole settles with the last one. *)
Fixpoint promise_all {A} (ms : list (M A)) : M (list A) :=
  fun net c =>
    match ms with
    | [] => {| final := c; events := []; outcome := Returned [] |}
    | m :: rest =>
        let r := m net c in
        match outcome r with
        | Threw e => {| final := final r; events := events r; outcome := Threw e |}
        | Returned a =>
            let r' := promise_all rest net {| now := now c; fetches := fetches (final r) |} in
            {| final := {| now := N.max (now (final r)) (now (final r'));
                           fetches := fetches (final r') |};
               events := (events r ++ events r')%list;
               outcome := match outcome r' with
                          | Returned l => Returned (a :: l)
                          | Threw e => Threw e
                          end |}
        end
    end.

(** The adapter interface: the properties of a provider object.
    [supportsMultimodal] is [None] when the object literal does not define
    the property. *)
Module Provider.
Record Adapter := {
  name : string;
  apiEndpoint : string;
  defaultModel : string;
  supportsMultimodal : option bool;
  generateSummary :
    string -> string -> SummaryType -> string -> AbortSignal -> list Image -> M jsval
}.
End Provider.

Definition nl : string := String (ascii_of_nat 10) EmptyString.

(** The [prompts] table, identical in the three adapters. *)
Definition prompts (t : SummaryType) : string :=
  match t with
  | brief => "Summarize this article in 2-3 clear sentences. Focus on the main point."
  | detailed =>
      "Provide a detailed summary with key points as bullet points. Include main arguments and conclusions."
  | technical =>
      "Summarize this technical documentation. Include: purpose, key concepts, important functions/methods, and usage notes."
  end.

Definition SYSTEM_PROMPT : string :=
  "You are a helpful assistant that summarizes web content clearly and concisely.".
Definition IMAGE_HINT : string :=
  " The user has provided page images — use them to enrich your summary where relevant.".

(** [`${prompts[type]}\n\nTitle: ${title}\n\nContent:\n${content}`]. *)
Definition user_prompt (t : SummaryType) (title content : string) : string :=
  prompts t ++ nl ++ nl ++ "Title: " ++ title ++ nl ++ nl ++ "Content:" ++ nl ++ content.

(** ** [providers/claude.js] *)

Module ClaudeProvider.

Definition name : string := "Claude (Anthropic)".
Definition apiEndpoint : string := "https://api.anthropic.com/v1/messages".
Definition defaultModel : string := "claude-sonnet-4-6".

(** The request [generateSummary] sends. *)
Definition request (apiKey content : string) (type : SummaryType) (title : string)
    (signal : AbortSignal) (images : list Image) : Request :=
  let systemPrompt :=
    SYSTEM_PROMPT ++ (if (0 <? length images)%nat then IMAGE_HINT else "") in
  let userPrompt := user_prompt type title content in
  let userContent :=
    if (0 <? length images)%nat
    then ClaudeArray (ClaudeTextPart userPrompt ::
                      map (fun img => ClaudeImagePart (img_url img)) images)
    else ClaudeString userPrompt in
  {| url := apiEndpoint;
     method := "POST";
     signal := Some signal;
     headers := [("Content-Type", "application/json");
                 ("x-api-key", apiKey);
                 ("anthropic-version", "2023-06-01");
                 ("anthropic-dangerous-direct-browser-access", "true")];
     body := ClaudeBody defaultModel 1000 userContent systemPrompt (1 # 2) |}.

(** The rest of [generateSummary] once the fetch has settled with
    [response]: the body is read under the signal of the request; in the
    branch of a failed status the [catch] around the read takes whatever is
    thrown there, the AbortError included. *)
Definition handle_response (signal : AbortSignal) (response : Response) : M jsval :=
  if negb (ok response) then
    apiErrorMessage <-
      try_catch
        (errorData <- response_json (Some signal) response;;
         error <- member errorData "error";;
         ret (opt_get error (KName "message")))
        (fun parseErr => ret VNull);;
    throw (HttpFailure (status response) apiErrorMessage)
  else
    data <- response_json (Some signal) response;;
    (* data.content?.[0]?.text *)
    content0 <- member data "content";;
    let text := opt_get (opt_get content0 (KIndex 0)) (KName "text") in
    if negb (truthy text)
    then throw (HttpFailure 500 (VStr "Invalid response structure from Claude"))
    else ret text.

Definition generateSummary (apiKey content : string) (type : SummaryType)
    (title : string) (signal : AbortSignal) (images : list Image) : M jsval :=
  response <- fetch (request apiKey content type title signal images);;
  handle_response signal response.

End ClaudeProvider.

(** ** [providers/gemini.js] *)

Module GeminiProvider.

Definition name : string := "Google Gemini".
Definition apiEndpoint : string :=
  "https://generativelanguage.googleapis.com/v1beta/models".
Definition defaultModel : string := "gemini-2.0-flash".

(** [{data, mimeType}]; [data] is [None] when it is [undefined]. *)
Record ImageData := { data : option string; mimeType : string }.

(** [s.split(",")]. *)
Fixpoint split_comma (s : string) : list string :=
  match s with
  | EmptyString => [EmptyString]
  | String ch rest =>
      if (ch =? ",")%char then EmptyString :: split_comma rest
      else match split_comma rest with
           | piece :: pieces => String ch piece :: pieces
           | [] => [String ch EmptyString]
           end
  end.

(** [fetch(url)] of an image: no options, hence no signal. *)
Definition image_request (image_url : string) : Request :=
  {| url := image_url; method := "GET"; signal := None; headers := [];
     body := NoBody |}.

Definition _fetchImageAsBase64 (url : string) : M (option ImageData) :=
  try_catch
    (response <- fetch (image_request url);;
     if negb (ok response) then ret None
     else
       blob <- response_blob None response;;
       let mimeType := if blob_type blob =? "" then "image/jpeg" else blob_type blob in
       match reader_result blob with
       | Some result =>
           (* reader.result.split(",")[1] *)
           let base64 := nth_error (split_comma result) 1 in
           ret (Some {| data := base64; mimeType := mimeType |})
       | None => ret None
       end)
    (fun _ => ret None).

Definition MAX_IMAGE_PAYLOAD : Q := inject_Z (3 * 1024 * 1024).

(** The [for ... of imageResults] loop: the parts pushed, and what the loop
    throws if it does.  A [null] result is passed over, an image that would
    exceed the cap ends the loop, and [imgData.data.length] throws when
    [data] is [undefined]. *)
Fixpoint attach_images (imageResults : list (option ImageData)) (payloadBytes : Q)
  : list GeminiPart * option Thrown :=
  match imageResults with
  | [] => ([], None)
  | None :: rest => attach_images rest payloadBytes
  | Some imgData :: rest =>
      match data imgData with
      | None =>
          ([], Some (new_TypeError
                       "Cannot read properties of undefined (reading 'length')"))
      | Some base64 =>
          let imgBytes := (inject_Z (Z.of_nat (js_length base64)) * (3 # 4))%Q in
          if negb (Qle_bool (payloadBytes + imgBytes) MAX_IMAGE_PAYLOAD) then ([], None)
          else
            let pushed := attach_images rest (payloadBytes + imgBytes)%Q in
            (GeminiInlineData (mimeType imgData) base64 :: fst pushed, snd pushed)
      end
  end.

(** The request of the main call, given the parts built so far. *)
Definition request (apiKey : string) (signal : AbortSignal) (parts : list GeminiPart)
  : Request :=
  {| url := apiEndpoint ++ "/" ++ defaultModel ++ ":generateContent?key=" ++ apiKey;
     method := "POST";
     signal := Some signal;
     headers := [("Content-Type", "application/json")];
     body := GeminiBody parts (1 # 2) 1000 |}.

(** The text part every request starts with. *)
Definition text_part (content : string) (type : SummaryType) (title : string)
    (images : list Image) : GeminiPart :=
  let systemPrompt :=
    SYSTEM_PROMPT ++ (if (0 <? length images)%nat then IMAGE_HINT else "") in
  let userPrompt := user_prompt type title content in
  GeminiTextPart (systemPrompt ++ nl ++ nl ++ userPrompt).

(** The rest of [generateSummary] once the main fetch has settled with
    [response]: the body is read under the signal of the request; in the
    branch of a failed status the [catch] around the read takes whatever is
    thrown there, the AbortError included. *)
Definition handle_response (signal : AbortSignal) (response : Response) : M jsval :=
  if negb (ok response) then
    apiErrorMessage <-
      try_catch
        (errorData <- response_json (Some signal) response;;
         error <- member errorData "error";;
         ret (js_or (opt_get error (KName "message")) VNull))
        (fun parseErr => ret VNull);;
    throw (HttpFailure (status response) apiErrorMessage)
  else
    data <- response_json (Some signal) response;;
    (* data.candidates?.[0]?.content?.parts?.[0]?.text *)
    candidates <- member data "candidates";;
    let text :=
      opt_get (opt_get (opt_get (opt_get (opt_get candidates (KIndex 0))
                 (KName "content")) (KName "parts")) (KIndex 0)) (KName "text") in
    if negb (truthy text)
    then throw (HttpFailure 500 (VStr "Invalid response structure from Gemini"))
    else ret text.

Definition generateSummary (apiKey content : string) (type : SummaryType)
    (title : string) (signal : AbortSignal) (images : list Image) : M jsval :=
  let parts := [text_part content type title images] in
  parts <-
    (if (0 <? length images)%nat then
       imageResults <-
         promise_all (map (fun img => _fetchImageAsBase64 (img_url img)) images);;
       match snd (attach_images imageResults 0) with
       | Some e => throw e
       | None => ret (parts ++ fst (attach_images imageResults 0))%list
       end
     else ret parts);;
  response <- fetch (request apiKey signal parts);;
  handle_response signal response.

End GeminiProvider.

(** ** [providers/openai.js] *)

Module OpenAIProvider.

Definition name : string := "OpenAI".
Definition apiEndpoint : string := "https://api.openai.com/v1/chat/completions".
Definition defaultModel : string := "gpt-4o-mini".

Definition request (apiKey content : string) (type : SummaryType) (title : string)
    (signal : AbortSignal) (images : list Image) : Request :=
  let textPrompt := user_prompt type title content in
  let userContent :=
    if (0 <? length images)%nat
    then OpenAIArray (OpenAITextPart textPrompt ::
                      map (fun img => OpenAIImagePart (img_url img) "low") images)
    else OpenAIString textPrompt in
  {| url := apiEndpoint;
     method := "POST";
     signal := Some signal;
     headers := [("Content-Type", "application/json");
                 ("Authorization", "Bearer " ++ apiKey)];
     body := OpenAIBody defaultModel
               (SYSTEM_PROMPT ++ (if (0 <? length images)%nat then IMAGE_HINT else ""))
               userContent 1000 (1 # 2) |}.

(** The rest of [generateSummary] once the fetch has settled with
    [response]: the body is read under the signal of the request; in the
    branch of a failed status the [catch] around the read takes whatever is
    thrown there, the AbortError included. *)
Definition handle_response (signal : AbortSignal) (response : Response) : M jsval :=
  if negb (ok response) then
    apiErrorMessage <-
      try_catch
        (errorData <- response_json (Some signal) response;;
         error <- member errorData "error";;
         ret (opt_get error (KName "message")))
        (fun parseErr => ret VNull);;
    throw (HttpFailure (status response) apiErrorMessage)
  else
    data <- response_json (Some signal) response;;
    (* data.choices?.[0]?.message?.content *)
    choices <- member data "choices";;
    let text :=
      opt_get (opt_get (opt_get choices (KIndex 0)) (KName "message")) (KName "content") in
    if negb (truthy text)
    then throw (HttpFailure 500 (VStr "Invalid response structure from OpenAI"))
    else ret text.

Definition generateSummary (apiKey content : string) (type : SummaryType)
    (title : string) (signal : AbortSignal) (images : list Image) : M jsval :=
  response <- fetch (request apiKey content type title signal images);;
  handle_response signal response.

End OpenAIProvider.

(** The provider objects as exported on [window]. *)
Definition window_OpenAIProvider : Provider.Adapter :=
  {| Provider.name := OpenAIProvider.name;
     Provider.apiEndpoint := OpenAIProvider.apiEndpoint;
     Provider.defaultModel := OpenAIProvider.defaultModel;
     Provider.supportsMultimodal := Some true;
     Provider.generateSummary := OpenAIProvider.generateSummary |}.

Definition window_GeminiProvider : Provider.Adapter :=
  {| Provider.name := GeminiProvider.name;
     Provider.apiEndpoint := GeminiProvider.apiEndpoint;
     Provider.defaultModel := GeminiProvider.defaultModel;
     Provider.supportsMultimodal := Some true;
     Provider.generateSummary := GeminiProvider.generateSummary |}.

Definition window_ClaudeProvider : Provider.Adapter :=
  {| Provider.name := ClaudeProvider.name;
     Provider.apiEndpoint := ClaudeProvider.apiEndpoint;
     Provider.defaultModel := ClaudeProvider.defaultModel;
     Provider.supportsMultimodal := None;
     Provider.generateSummary := ClaudeProvider.generateSummary |}.

(** ** [popup.js]: dispatch *)

(** What [providers[provider]] evaluates to when it is not [undefined]: one
    of the three provider objects, or a member inherited from
    [Object.prototype]. *)
Inductive ProviderValue :=
| ProviderObject (a : Provider.Adapter)
| InheritedMember (key : string).

Definition Object_prototype_keys : list string :=
  ["constructor"; "__defineGetter__"; "__defineSetter__"; "hasOwnProperty";
   "__lookupGetter__"; "__lookupSetter__"; "isPrototypeOf";
   "propertyIsEnumerable"; "toString"; "valueOf"; "__proto__"; "toLocaleString"].

(** [providers[provider]] for the literal
    [{openai: window.OpenAIProvider, gemini: window.GeminiProvider,
      claude: window.ClaudeProvider}]; [None] is [undefined]. *)
Definition providers (provider : string) : option ProviderValue :=
  if provider =? "openai" then Some (ProviderObject window_OpenAIProvider)
  else if provider =? "gemini" then Some (ProviderObject window_GeminiProvider)
  else if provider =? "claude" then Some (ProviderObject window_ClaudeProvider)
  else if existsb (String.eqb provider) Object_prototype_keys
  then Some (InheritedMember provider)
  else None.

(** [aiProvider.supportsMultimodal]. *)
Definition aiProvider_supportsMultimodal (aiProvider : ProviderValue) : jsval :=
  match aiProvider with
  | ProviderObject a =>
      match Provider.supportsMultimodal a with
      | Some b => VBool b
      | None => VUndefined
      end
  | InheritedMember _ => VUndefined
  end.

(** [aiProvider.generateSummary(...)]: a TypeError when the member is not a
    function. *)
Definition aiProvider_generateSummary (aiProvider : ProviderValue)
    (apiKey content : string) (type : SummaryType) (title : string)
    (signal : AbortSignal) (images : list Image) : M jsval :=
  match aiProvider with
  | ProviderObject a => Provider.generateSummary a apiKey content type title signal images
  | InheritedMember _ => throw (new_TypeError "aiProvider.generateSummary is not a function")
  end.

(** [const imagesToPass = aiProvider.supportsMultimodal ? images : []]. *)
Definition imagesToPass (aiProvider : ProviderValue) (images : list Image) : list Image :=
  if truthy (aiProvider_supportsMultimodal aiProvider) then images else [].

(** A call of [classifyError], recorded in the trace. *)
Definition classify (error : Thrown) (httpStatus : option Z) : M CanonicalError :=
  emit (EvClassify error httpStatus);;;
  ret (classifyError error httpStatus).

Definition number_arg (v : jsval) : option Z :=
  match v with VNum n => Some n | _ => None end.

(** [`${error.httpStatus}`]. *)
Definition httpStatus_text (error : Thrown) : string :=
  match error with
  | HttpFailure s _ => Number_toString s
  | _ => "undefined"
  end.

(** The [catch (error)] block of [generateSummary].  The argument of
    [classifyError] is evaluated first: when the conversion of the message
    throws, the TypeError leaves the block and nothing is classified. *)
Definition generateSummary_catch {A} (error : Thrown) : M A :=
  if is_string (prop_name error) "AbortError" then
    errorInfo <- classify error None;;
    throw (Canonical errorInfo)
  else if instanceof_TypeError error then
    errorInfo <- classify error None;;
    throw (Canonical errorInfo)
  else if truthy (prop_httpStatus error) then
    (* new Error(error.message || `HTTP ${error.httpStatus}`) *)
    message <- to_string (js_or (prop_message error)
                                (VStr ("HTTP " ++ httpStatus_text error)));;
    errorInfo <- classify (new_Error message) (number_arg (prop_httpStatus error));;
    errorInfo <-
      (if truthy (prop_message error) && ErrorType_eqb (type errorInfo) UNKNOWN
       then
         text <- to_string (prop_message error);;
         ret {| type := type errorInfo;
                userMessage := "❌ " ++ text;
                debugInfo := debugInfo errorInfo |}
       else ret errorInfo);;
    throw (Canonical errorInfo)
  else
    errorInfo <- classify error None;;
    throw (Canonical errorInfo).

(** [generateSummary(provider, apiKey, content, type, title, images = [])]. *)
Definition generateSummary (provider apiKey content : string) (type : SummaryType)
    (title : string) (images : list Image) : M jsval :=
  match providers provider with
  | None =>
      throw (Canonical {| type := UNKNOWN;
                          userMessage := "Unknown AI provider: " ++ provider;
                          debugInfo := VStr ("Provider " ++ provider ++ " not found") |})
  | Some aiProvider =>
      signal <- setTimeout_abort 30000;;
      try_finally
        (try_catch
           (aiProvider_generateSummary aiProvider apiKey content type title signal
              (imagesToPass aiProvider images))
           generateSummary_catch)
        clearTimeout
  end.

(** ** [popup.js]: [summarizePage] *)

(** [chrome.storage.local.get([...])]. *)
Record Stored := {
  ai_provider : option string;
  openai_api_key : option string;
  gemini_api_key : option string;
  claude_api_key : option string
}.

(** The result of the injected [extractPageContent]. *)
Record Extracted := { extracted_text : string; extracted_images : list Image }.

(** What [summarizePage] reads from its collaborators: storage (a read that
    may reject), the active tab, the content script, the summary-type
    selector, and the rendering of a summary (Markdown conversion,
    sanitising, DOM writes), which may throw.  A failure of
    [chrome.tabs.query] is a failure of [executeScript] on a tab without
    URL: both are caught by the inner [catch]. *)
Record Page := {
  stored : Outcome Stored;
  tab_url : option string;
  tab_title : string;
  executeScript : Outcome Extracted;
  summaryType : SummaryType;
  render : jsval -> option Thrown
}.

(** [stored[`${provider}_api_key`]]. *)
Definition stored_api_key (s : Stored) (provider : string) : option string :=
  if provider =? "openai" then openai_api_key s
  else if provider =? "gemini" then gemini_api_key s
  else if provider =? "claude" then claude_api_key s
  else None.

Definition showError (msg : string) : M unit := emit (EvShowError msg).

Definition restrictedPrefixes : list string :=
  ["chrome://"; "chrome-extension://"; "about:"; "edge://"; "file://"].

(** The outer [catch (err)] block of [summarizePage]. *)
Definition summarizePage_catch (err : Thrown) : M unit :=
  if truthy (prop_type err) && truthy (prop_userMessage err) then
    showError (match err with Canonical c => userMessage c | _ => "" end)
  else
    errorInfo <- classify err None;;
    showError (userMessage errorInfo).

(** The inner [try]/[catch] of [summarizePage]: [None] when the tab is a
    restricted page (an error is shown and the function returns), the
    extracted content otherwise; any failure is rethrown as a classified
    extraction error. *)
Definition extract_content (page : Page) : M (option Extracted) :=
  try_catch
    (if existsb (fun prefix =>
                   match tab_url page with
                   | Some u => String.prefix prefix u
                   | None => false
                   end) restrictedPrefixes
     then
       showError "🚫 Cannot summarize this page. Please open a website (e.g. a blog or docs page) and try again.";;;
       ret None
     else
       match executeScript page with
       | Returned extractedContent => ret (Some extractedContent)
       | Threw e => throw e
       end)
    (fun extractErr =>
       message <- to_string (js_or (prop_message extractErr) (VStr "Unknown error"));;
       throw (Canonical
         {| type := CONTENT_EXTRACTION_FAILED;
            userMessage := USER_MESSAGES CONTENT_EXTRACTION_FAILED;
            debugInfo := VStr ("Content extraction failed: " ++ message) |})).

(** The outer [try] block of [summarizePage]. *)
Definition summarizePage_try (page : Page) (provider apiKey : string) : M unit :=
  extractedContent <- extract_content page;;
  match extractedContent with
  | None => ret tt
  | Some extractedContent =>
      let pageContent := extracted_text extractedContent in
      if (pageContent =? "") || (js_length pageContent <? 100)%nat then
        throw (Canonical
          {| type := CONTENT_EXTRACTION_FAILED;
             userMessage := USER_MESSAGES CONTENT_EXTRACTION_FAILED;
             debugInfo :=
               VStr ("Extracted content too short: " ++
                     string_of_nat (js_length pageContent) ++
                     " characters (minimum 100 required)") |})
      else
        summary <-
          generateSummary provider apiKey pageContent (summaryType page)
            (tab_title page) (extracted_images extractedContent);;
        match render page summary with
        | Some e => throw e
        | None => ret tt
        end
  end.

(** [summarizePage()], without the DOM updates that cannot fail.  The read
    of storage comes before the [try]: when it rejects, so does
    [summarizePage]. *)
Definition summarizePage (page : Page) : M unit :=
  match stored page with
  | Threw e => throw e
  | Returned stored =>
      let provider :=
        match ai_provider stored with
        | Some p => if p =? "" then "openai" else p
        | None => "openai"
        end in
      match stored_api_key stored provider with
      | None => showError "🔑 Please save your API key first."
      | Some apiKey =>
          if apiKey =? "" then showError "🔑 Please save your API key first."
          else try_catch (summarizePage_try page provider apiKey) summarizePage_catch
      end
  end.

(** ** [popup.js]: storage, history and key management *)

(** An entry of [summary_history]: [{id, text, title, url, type, date}]. *)
Record HistoryItem := {
  item_id : string;
  item_text : jsval;
  item_title : string;
  item_url : string;
  item_type : SummaryType;
  item_date : string
}.

(** [chrome.storage.local]: the string entries ([ai_provider] and the API
    keys) and the [summary_history] entry. *)
Record Storage := {
  entries : string -> option string;
  summary_history : option (list HistoryItem)
}.

(** [chrome.storage.local.set({[k]: v})] for a string entry. *)
Definition storage_set (k v : string) (st : Storage) : Storage :=
  {| entries := fun k' => if k' =? k then Some v else entries st k';
     summary_history := summary_history st |}.

(** [chrome.storage.local.get(["ai_provider", "openai_api_key",
    "gemini_api_key", "claude_api_key"])]. *)
Definition storage_get (st : Storage) : Stored :=
  {| ai_provider := entries st "ai_provider";
     openai_api_key := entries st "openai_api_key";
     gemini_api_key := entries st "gemini_api_key";
     claude_api_key := entries st "claude_api_key" |}.

(** [saveApiKey(provider)]: [input] is the value of the provider's key
    field and [trim] is [String.prototype.trim]; the result is the storage
    and the text of the key status. *)
Definition saveApiKey (trim : string -> string) (provider input : string)
    (st : Storage) : Storage * string :=
  let key := trim input in
  if key =? "" then (st, "✗ Please enter a valid key")
  else (storage_set (provider ++ "_api_key") key st, "✓ API key saved").

(** [handleProviderChange()]: [provider] is the value of the selector; the
    result is the storage and the text of the key status. *)
Definition handleProviderChange (provider : string) (st : Storage) : Storage * string :=
  let st := storage_set "ai_provider" provider st in
  (st,
   match entries st (provider ++ "_api_key") with
   | Some currentKey => if currentKey =? "" then "" else "✓ API key saved"
   | None => ""
   end).

(** [saveSummary(text, title, url, type)]; [id] and [date] are
    [Date.now().toString()] and [new Date().toISOString()]. *)
Definition saveSummary (id date : string) (text : jsval) (title : string)
    (page_url : option string) (ty : SummaryType) (st : Storage) : Storage :=
  let newSummary :=
    {| item_id := id;
       item_text := text;
       item_title := if title =? "" then "Untitled Page" else title;
       item_url := match page_url with Some u => u | None => "" end;
       item_type := ty;
       item_date := date |} in
  let history := match summary_history st with Some h => h | None => [] end in
  let history := newSummary :: history in
  let history := if (10 <? length history)%nat then firstn 10 history else history in
  {| entries := entries st; summary_history := Some history |}.

(** [data.summary_history || []], the list [loadHistory] renders. *)
Definition loadHistory (st : Storage) : list HistoryItem :=
  match summary_history st with Some h => h | None => [] end.

(** [clearHistory()]; [confirmed] is the answer to the [confirm] dialog. *)
Definition clearHistory (confirmed : bool) (st : Storage) : Storage :=
  if confirmed then {| entries := entries st; summary_history := None |} else st.

(** What [init()] writes when the popup opens: the value of the provider
    selector, the key fields it fills ([None]: left as found) and the key
    status ([None]: left as found). *)
Record InitView := {
  selector_value : string;
  key_field : string -> option string;
  key_status : option string
}.

Definition init (st : Storage) : InitView :=
  let stored := storage_get st in
  let currentProvider :=
    match ai_provider stored with
    | Some p => if p =? "" then "openai" else p
    | None => "openai"
    end in
  let filled (k : option string) :=
    match k with
    | Some v => if v =? "" then None else Some v
    | None => None
    end in
  {| selector_value := currentProvider;
     key_field := fun provider =>
       if provider =? "openai" then filled (openai_api_key stored)
       else if provider =? "gemini" then filled (gemini_api_key stored)
       else if provider =? "claude" then filled (claude_api_key stored)
       else None;
     key_status :=
       match stored_api_key stored currentProvider with
       | Some currentKey => if currentKey =? "" then None else Some "✓ API key saved"
       | None => None
       end |}.

(** ** [popup.js]: the image indicator of [summarizePage] *)

(** [providerObj?.supportsMultimodal] for the [providerObj] looked up in the
    same literal as the dispatcher's. *)
Definition providerObj_supportsMultimodal (provider : string) : jsval :=
  match providers provider with
  | Some providerObj => aiProvider_supportsMultimodal providerObj
  | None => VUndefined
  end.

(** The text and the class given to the image indicator. *)
Definition image_indicator (provider : string) (extractedImages : list Image)
  : string * string :=
  let n := length extractedImages in
  let plural := if (1 <? n)%nat then "s" else "" in
  if (0 <? n)%nat && truthy (providerObj_supportsMultimodal provider) then
    ("🖼️ " ++ string_of_nat n ++ " image" ++ plural ++ " detected — included in summary",
     "image-indicator img-found")
  else if (0 <? n)%nat then
    ("🖼️ " ++ string_of_nat n ++ " image" ++ plural
       ++ " detected — not supported by this provider",
     "image-indicator img-skipped")
  else ("", "image-indicator").

(** ** [popup.js]: the name of the downloaded file *)

(** [[a-z0-9]] under the [i] flag. *)
Definition is_alnum (ch : ascii) : bool :=
  let n := nat_of_ascii ch in
  ((48 <=? n) && (n <=? 57) || (65 <=? n) && (n <=? 90) || (97 <=? n) && (n <=? 122))%nat.

Definition toLowerCase_char (ch : ascii) : ascii :=
  let n := nat_of_ascii ch in
  if ((65 <=? n) && (n <=? 90))%nat then ascii_of_nat (n + 32) else ch.

Fixpoint string_map (f : ascii -> ascii) (s : string) : string :=
  match s with
  | EmptyString => EmptyString
  | String ch rest => String (f ch) (string_map f rest)
  end.

Definition starts_with_underscore (s : string) : bool :=
  match s with
  | String ch _ => (ch =? "_")%char
  | EmptyString => false
  end.

(** [.replace(/[^a-z0-9]/gi, "_")]. *)
Definition replace_non_alnum (s : string) : string :=
  string_map (fun ch => if is_alnum ch then ch else "_"%char) s.

(** [.replace(/_+/g, "_")]. *)
Fixpoint collapse_underscores (s : string) : string :=
  match s with
  | EmptyString => EmptyString
  | String ch rest =>
      if (ch =? "_")%char && starts_with_underscore rest
      then collapse_underscores rest
      else String ch (collapse_underscores rest)
  end.

(** [pageTitle.replace(/[^a-z0-9]/gi, "_").replace(/_+/g, "_")
      .toLowerCase().slice(0, 50)] of [downloadAsMarkdown].  Every byte of a
    character outside ASCII becomes an underscore, as every code unit of it
    does in JavaScript, and the runs collapse to the same single
    underscore. *)
Definition download_filename (pageTitle : string) : string :=
  substring 0 50
    (string_map toLowerCase_char (collapse_underscores (replace_non_alnum pageTitle))).

(** [a.download], from the tab's title ([tab?.title || "Untitled Page"]). *)
Definition download_name (title : option string) : string :=
  let pageTitle :=
    match title with
    | Some t => if t =? "" then "Untitled Page" else t
    | None => "Untitled Page"
    end in
  download_filename pageTitle ++ "_summary.md".

(** ** [popup.js]: [extractPageContent] *)

(** What the content script reads of an [img] element. *)
Record Img := { src : string; alt : string; naturalWidth : N; naturalHeight : N }.

(** An element: its [innerText] and its [querySelectorAll("img")]. *)
Record Element := { innerText : string; element_imgs : list Img }.

(** The document: [document.querySelector], [document.body.innerText] and
    [document.querySelectorAll("img")]. *)
Record Document := {
  querySelector : string -> option Element;
  body_innerText : string;
  document_imgs : list Img
}.

Definition selectors : list string :=
  ["article"; "main"; ".post-content"; ".entry-content"; ".article-content";
   ".content"; ".documentation"; ".markdown-body"; "#content"].

Definition contentSelectors : list string :=
  ["article"; "main"; ".post-content"; ".entry-content"; ".markdown-body"; "#content"].

(** The element of the first selector that matches: both loops stop there. *)
Fixpoint first_match (doc : Document) (sels : list string) : option Element :=
  match sels with
  | [] => None
  | sel :: rest =>
      match querySelector doc sel with
      | Some el => Some el
      | None => first_match doc rest
      end
  end.

(** The filter on the image pool. *)
Definition qualifies (img : Img) : bool :=
  String.prefix "https://" (src img) && (200 <? naturalWidth img)%N
  && (200 <? naturalHeight img)%N.

(** [extractPageContent()]; [clean] is [.replace(/\s+/g, " ").trim()], and
    [12 * 1000] is the 12000 of [content.slice(0, 12000)], a number of code
    units. *)
Definition extractPageContent (clean : string -> string) (doc : Document) : Extracted :=
  let content :=
    match first_match doc selectors with
    | Some el => innerText el
    | None => ""
    end in
  let content := if content =? "" then body_innerText doc else content in
  let content := clean content in
  let imgPool :=
    match first_match doc contentSelectors with
    | Some el => element_imgs el
    | None => []
    end in
  let imgPool := if (length imgPool =? 0)%nat then document_imgs doc else imgPool in
  let images :=
    map (fun img => {| img_url := src img; img_alt := alt img |})
        (firstn 2 (filter qualifies imgPool)) in
  {| extracted_text := js_slice (12 * 1000) content; extracted_images := images |}.

(** ** Specification vocabulary *)

(** The run throws a classified error of kind [k] with user message [msg]. *)
Definition throws_canonical {A} (r : Run A) (k : ErrorType) (msg : string) : Prop :=
  exists d,
    outcome r = Threw (Canonical {| type := k; userMessage := msg; debugInfo := d |}).

(** What an adapter throws on its own: never a classified error, and nothing
    named AbortError (that one only comes out of an aborted fetch or body
    read). *)
Definition adapter_error (e : Thrown) : bool :=
  negb (is_string (prop_name e) "AbortError") &&
  match e with Canonical _ => false | _ => true end.

(** What an aborted call leaves the dispatcher with: the AbortError, or,
    when the read that was cut is the one of an error body, the HTTP failure
    with no message. *)
Definition abort_outcome {A} (o : Outcome A) : Prop :=
  o = Threw AbortError \/ exists s, o = Threw (HttpFailure s VNull).

(** The response handling of an adapter under the signal [sg]: it sends
    nothing, and the signal cutting the read of the body is the only event
    it can have. *)
Definition reads_body {A} (sg : AbortSignal) (m : M A) : Prop :=
  forall net c,
    let r := m net c in
    fetches (final r) = fetches c
    /\ ((events r = [] /\ (now c <= now (final r))%N /\
         forall e, outcome r = Threw e -> adapter_error e = true)
        \/ (events r = [EvAbort] /\ (aborts_at sg <= now (final r))%N /\
            abort_outcome (outcome r))).

(** The events of an adapter run under the signal [sg]. *)
Definition network_event (sg : AbortSignal) (ev : Event) : Prop :=
  ev = EvAbort \/
  exists req, ev = EvFetch req /\ (signal req = None \/ signal req = Some sg).

Definition image_fetch_event (ev : Event) : Prop :=
  exists u, ev = EvFetch (GeminiProvider.image_request u).

(** What the dispatcher relies on in a run of an adapter. *)
Record adapter_run_ok (sg : AbortSignal) (r : Run jsval) : Prop := {
  run_events : Forall (network_event sg) (events r);
  run_abort :
    In EvAbort (events r) ->
    abort_outcome (outcome r) /\ (aborts_at sg <= now (final r))%N;
  run_thrown :
    forall e, outcome r = Threw e ->
      (e = AbortError /\ In EvAbort (events r)) \/ adapter_error e = true
}.

Definition is_classify (ev : Event) : bool :=
  match ev with EvClassify _ _ => true | _ => false end.

(** How many times [classifyError] was called. *)
Definition count_classify (evs : list Event) : nat := length (filter is_classify evs).


(** The statuses with a kind of their own other than UNKNOWN. *)
Definition status_specific (s : Z) : bool :=
  ((s =? 400) || (s =? 401) || (s =? 403) || (s =? 429) || (500 <=? s))%Z.

(** The rules that come before the generic fallback: transport failure,
    abort, and the statuses with a rule of their own. *)
Definition matches_earlier_rule (error : Thrown) (httpStatus : option Z) : bool :=
  match error with
  | ErrorInstance TypeErrorClass _ m => includes "Failed to fetch" m || includes "fetch" m
  | _ => false
  end
  || is_string (prop_name error) "AbortError"
  || match httpStatus with
     | Some s => (status_specific s || (s =? 404))%Z
     | None => false
     end.

(** The generic UNKNOWN error. *)
Definition generic_unknown (error : Thrown) : CanonicalError :=
  {| type := UNKNOWN;
     userMessage := USER_MESSAGES UNKNOWN;
     debugInfo := js_or (prop_message error) (VStr "Unknown error occurred") |}.

(** An adapter's response handling, the first key and the fixed path of the
    summary text in its envelope, its invalid-structure message, and what it
    takes as the provider's message out of an error body. *)
Record ResponsePath := {
  handler : AbortSignal -> Response -> M jsval;
  root_key : string;
  text_path : jsval -> jsval;
  invalid_message : string;
  error_message : jsval -> jsval
}.

Definition Claude_path : ResponsePath :=
  {| handler := ClaudeProvider.handle_response;
     root_key := "content";
     text_path := fun data =>
       opt_get (opt_get (get_own data (KName "content")) (KIndex 0)) (KName "text");
     invalid_message := "Invalid response structure from Claude";
     error_message := fun errorData =>
       opt_get (get_own errorData (KName "error")) (KName "message") |}.

Definition Gemini_path : ResponsePath :=
  {| handler := GeminiProvider.handle_response;
     root_key := "candidates";
     text_path := fun data =>
       opt_get (opt_get (opt_get (opt_get (opt_get (get_own data (KName "candidates"))
         (KIndex 0)) (KName "content")) (KName "parts")) (KIndex 0)) (KName "text");
     invalid_message := "Invalid response structure from Gemini";
     error_message := fun errorData =>
       js_or (opt_get (get_own errorData (KName "error")) (KName "message")) VNull |}.

Definition OpenAI_path : ResponsePath :=
  {| handler := OpenAIProvider.handle_response;
     root_key := "choices";
     text_path := fun data =>
       opt_get (opt_get (opt_get (get_own data (KName "choices")) (KIndex 0))
         (KName "message")) (KName "content");
     invalid_message := "Invalid response structure from OpenAI";
     error_message := fun errorData =>
       opt_get (get_own errorData (KName "error")) (KName "message") |}.

Definition response_paths : list ResponsePath := [OpenAI_path; Gemini_path; Claude_path].

(** The message an adapter puts in the HTTP failure it raises for a failed
    status, once the body has been read: [null] when the body does not
    parse or is [null]. *)
Definition provider_message (p : ResponsePath) (response : Response) : jsval :=
  match json response with
  | Some errorData => if nullish errorData then VNull else error_message p errorData
  | None => VNull
  end.

(** What an adapter makes of [response] once its body has been read. *)
Definition handled (p : ResponsePath) (response : Response) : Outcome jsval :=
  if ok response then
    match json response with
    | None =>
        Threw (ErrorInstance SyntaxErrorClass "SyntaxError" "Unexpected end of JSON input")
    | Some VNull =>
        Threw (new_TypeError
                 ("Cannot read properties of null (reading '" ++ root_key p ++ "')"))
    | Some VUndefined =>
        Threw (new_TypeError
                 ("Cannot read properties of undefined (reading '" ++ root_key p ++ "')"))
    | Some data =>
        if truthy (text_path p data) then Returned (text_path p data)
        else Threw (HttpFailure 500 (VStr (invalid_message p)))
    end
  else Threw (HttpFailure (status response) (provider_message p response)).

(** What an adapter is left with when the signal cuts the read of the body:
    the AbortError, which the [catch] of the failed-status branch takes. *)
Definition cut_short (response : Response) : Outcome jsval :=
  if ok response then Threw AbortError
  else Threw (HttpFailure (status response) VNull).

(** The clock [latency] ms after [c], and the clock when the signal fires
    on a pending read or request started at [c]. *)
Definition later (c : Clock) (latency : N) : Clock :=
  {| now := now c + latency; fetches := fetches c |}.

Definition cut_at (sg : AbortSignal) (c : Clock) : Clock :=
  {| now := N.max (now c) (aborts_at sg); fetches := fetches c |}.

Definition sent (c : Clock) : Clock := {| now := now c; fetches := S (fetches c) |}.

(** The call to a provider, by what the network answers: the request, then
    the body, either of which the signal can cut. *)
Definition main_call_result (p : ResponsePath) (sg : AbortSignal) (req : Request)
    (c : Clock) (answer : N * FetchOutcome) : Run jsval :=
  let '(latency, out) := answer in
  if (aborts_at sg <=? now c + latency)%N then
    {| final := cut_at sg (sent c); events := [EvFetch req; EvAbort];
       outcome := Threw AbortError |}
  else
    let c1 := later (sent c) latency in
    match out with
    | Fails m =>
        {| final := c1; events := [EvFetch req]; outcome := Threw (new_TypeError m) |}
    | Resolves response =>
        if (aborts_at sg <=? now c1 + body_latency response)%N then
          {| final := cut_at sg c1; events := [EvFetch req; EvAbort];
             outcome := cut_short response |}
        else
          {| final := later c1 (body_latency response); events := [EvFetch req];
             outcome := handled p response |}
    end.

(** What [_fetchImageAsBase64] makes of a settled image request. *)
Definition image_result (out : FetchOutcome) : option GeminiProvider.ImageData :=
  match out with
  | Resolves response =>
      if ok response then
        match blob response with
        | Some b =>
            match reader_result b with
            | Some result =>
                Some {| GeminiProvider.data :=
                          nth_error (GeminiProvider.split_comma result) 1;
                        GeminiProvider.mimeType :=
                          if blob_type b =? "" then "image/jpeg" else blob_type b |}
            | None => None
            end
        | None => None
        end
      else None
  | Fails _ => None
  end.

(** The results of the image requests, in the order of [images]; the first
    request is the [n]-th of the run. *)
Fixpoint image_results (net : Network) (n : nat) (images : list Image)
  : list (option GeminiProvider.ImageData) :=
  match images with
  | [] => []
  | img :: rest =>
      image_result (snd (net n (GeminiProvider.image_request (img_url img))))
        :: image_results net (S n) rest
  end.

(** An image that was fetched and encoded: its type and its base64 data. *)
Record Encoded := { encoded_type : string; encoded_data : string }.

Definition inline_part (d : Encoded) : GeminiPart :=
  GeminiInlineData (encoded_type d) (encoded_data d).

(** The images that could be fetched and encoded, in order, up to the first
    one whose [data] is [undefined]. *)
Fixpoint successes (results : list (option GeminiProvider.ImageData)) : list Encoded :=
  match results with
  | [] => []
  | Some d :: rest =>
      match GeminiProvider.data d with
      | Some base64 =>
          {| encoded_type := GeminiProvider.mimeType d; encoded_data := base64 |}
            :: successes rest
      | None => []
      end
  | None :: rest => successes rest
  end.

(** The bytes the loop counts for an image. *)
Definition image_bytes (d : Encoded) : Q :=
  inject_Z (Z.of_nat (js_length (encoded_data d))) * (3 # 4).

(** The images at the head of [ds] that fit under the cap together, given
    the [payloadBytes] already counted. *)
Fixpoint under_cap (ds : list Encoded) (payloadBytes : Q) : list Encoded :=
  match ds with
  | [] => []
  | d :: rest =>
      if Qle_bool (payloadBytes + image_bytes d) GeminiProvider.MAX_IMAGE_PAYLOAD
      then d :: under_cap rest (payloadBytes + image_bytes d)
      else []
  end.

(** Every image that was fetched has its [data]. *)
Definition all_encoded (results : list (option GeminiProvider.ImageData)) : bool :=
  forallb (fun r => match r with
                    | Some d => match GeminiProvider.data d with
                                | Some _ => true
                                | None => false
                                end
                    | None => true
                    end) results.

(** [Promise.all(images.map((img) => this._fetchImageAsBase64(img.url)))]. *)
Definition image_fetches (images : list Image)
  : M (list (option GeminiProvider.ImageData)) :=
  promise_all (map (fun img => GeminiProvider._fetchImageAsBase64 (img_url img)) images).

(** The clock once the image requests of the Gemini adapter have settled. *)
Definition image_clock (images : list Image) (net : Network) (c : Clock) : Clock :=
  if (0 <? length images)%nat then final (image_fetches images net c) else c.

(** The call to the provider that a dispatch makes, if it makes one: the
    response path of the adapter, the request, and the clock at which the
    request is sent (for Gemini, after the image requests).  There is none
    for an identifier outside the registry, and none when the image loop of
    the Gemini adapter throws. *)
Definition main_request (provider apiKey content : string) (ty : SummaryType)
    (title : string) (images : list Image) (net : Network) (c : Clock)
  : option (ResponsePath * Request * Clock) :=
  let sg := {| aborts_at := now c + 30000 |} in
  if provider =? "openai" then
    Some (OpenAI_path, OpenAIProvider.request apiKey content ty title sg images, c)
  else if provider =? "gemini" then
    let attached := GeminiProvider.attach_images (image_results net (fetches c) images) 0 in
    match snd attached with
    | Some _ => None
    | None =>
        Some (Gemini_path,
              GeminiProvider.request apiKey sg
                (GeminiProvider.text_part content ty title images :: fst attached),
              image_clock images net c)
    end
  else if provider =? "claude" then
    Some (Claude_path, ClaudeProvider.request apiKey content ty title sg [], c)
  else None.

(** The image requests that precede the provider call. *)
Definition image_events (provider : string) (images : list Image) (net : Network)
    (c : Clock) : list Event :=
  if (provider =? "gemini") && (0 <? length images)%nat
  then events (image_fetches images net c) else [].

(** A request to a provider: the ones that carry the signal. *)
Definition is_provider_call (ev : Event) : bool :=
  match ev with
  | EvFetch req => match signal req with Some _ => true | None => false end
  | _ => false
  end.

Definition is_show (ev : Event) : bool :=
  match ev with EvShowError _ => true | _ => false end.

(** The number of calls to [showError]. *)
Definition count_show (evs : list Event) : nat := length (filter is_show evs).

(** The kinds [classifyError] can return. *)
Definition classifier_kind (k : ErrorType) : bool :=
  match k with
  | INVALID_RESPONSE | CONTENT_EXTRACTION_FAILED => false
  | _ => true
  end.

(** [stored.ai_provider || "openai"]. *)
Definition selected_provider (s : Stored) : string :=
  match ai_provider s with
  | Some p => if p =? "" then "openai" else p
  | None => "openai"
  end.

(** The usable API key of the selected provider, if any. *)
Definition selected_key (s : Stored) : option string :=
  match stored_api_key s (selected_provider s) with
  | Some k => if k =? "" then None else Some k
  | None => None
  end.

(** The tab is one of the pages content scripts cannot run on. *)
Definition restricted (page : Page) : bool :=
  existsb (fun prefix =>
             match tab_url page with
             | Some u => String.prefix prefix u
             | None => false
             end) restrictedPrefixes.

(** [!pageContent || pageContent.length < 100]. *)
Definition too_short (text : string) : bool :=
  (text =? "") || (js_length text <? 100)%nat.

(** The run that shows one error and returns. *)
Definition shows (msg : string) (c : Clock) : Run unit :=
  {| final := c; events := [EvShowError msg]; outcome := Returned tt |}.

(** The identifiers that have a key field and a save button. *)
Definition registered (provider : string) : bool :=
  (provider =? "openai") || (provider =? "gemini") || (provider =? "claude").

(** The arguments and the clock readings of one call to [saveSummary]. *)
Record SummaryInput := {
  in_id : string; in_date : string; in_text : jsval; in_title : string;
  in_url : option string; in_type : SummaryType
}.

(** The history item [saveSummary] builds. *)
Definition saved_item (x : SummaryInput) : HistoryItem :=
  {| item_id := in_id x; item_text := in_text x;
     item_title := if in_title x =? "" then "Untitled Page" else in_title x;
     item_url := match in_url x with Some u => u | None => "" end;
     item_type := in_type x; item_date := in_date x |}.

(** Calls to [saveSummary] that complete one after the other, oldest first. *)
Definition save_all (xs : list SummaryInput) (st : Storage) : Storage :=
  fold_left (fun st x => saveSummary (in_id x) (in_date x) (in_text x) (in_title x)
                           (in_url x) (in_type x) st) xs st.

Fixpoint string_forall (P : ascii -> bool) (s : string) : bool :=
  match s with
  | EmptyString => true
  | String ch rest => P ch && string_forall P rest
  end.

(** A lower-case letter, a digit or an underscore. *)
Definition filename_char (ch : ascii) : bool :=
  let n := nat_of_ascii ch in
  ((48 <=? n) && (n <=? 57) || (97 <=? n) && (n <=? 122))%nat || (ch =? "_")%char.

Fixpoint no_double_underscore (s : string) : bool :=
  match s with
  | EmptyString => true
  | String ch rest =>
      negb ((ch =? "_")%char && starts_with_underscore rest) && no_double_underscore rest
  end.

(** A name [download_filename] can leave as it is. *)
Definition safe_name (s : string) : Prop :=
  string_forall filename_char s = true
  /\ (String.length s <= 50)%nat
  /\ no_double_underscore s = true.

(** The bytes the loop of the Gemini adapter counts for the attached parts. *)
Fixpoint payload_bytes (parts : list GeminiPart) : Q :=
  match parts with
  | [] => 0
  | GeminiInlineData _ data :: rest =>
      inject_Z (Z.of_nat (js_length data)) * (3 # 4) + payload_bytes rest
  | GeminiTextPart _ :: rest => payload_bytes rest
  end.

(** ** Scenarios *)

Definition clock0 : Clock := {| now := 0; fetches := 0 |}.

Definition json_response (okb : bool) (st : Z) (body : option jsval) : Response :=
  {| ok := okb; status := st; body_latency := 0; json := body; blob := None |}.

(** Every request settles with [r] after [latency] ms. *)
Definition always (latency : N) (r : Response) : Network :=
  fun _ _ => (latency, Resolves r).

(** [{"error": {"message": msg}}]. *)
Definition error_body (msg : string) : jsval :=
  VObj [("error", VObj [("message", VStr msg)])].

(** An HTTP 200 response whose body is the JSON value [null]. *)
Definition null_body : Response := json_response true 200 (Some VNull).

Definition two_images : list Image :=
  [{| img_url := "https://a.example/1.png"; img_alt := "" |};
   {| img_url := "https://a.example/2.png"; img_alt := "" |}].

(** The first image answers 404, the second is fetched and encoded, and the
    provider answers with a summary. *)
Definition one_of_two : Network :=
  fun n req =>
    match signal req with
    | Some _ =>
        (200%N, Resolves (json_response true 200
           (Some (VObj [("candidates",
              VArr [VObj [("content",
                VObj [("parts", VArr [VObj [("text", VStr "A summary.")]])])]])]))))
    | None =>
        if url req =? "https://a.example/1.png"
        then (100%N, Resolves {| ok := false; status := 404; body_latency := 0;
                                 json := None; blob := None |})
        else (150%N, Resolves {| ok := true; status := 200; body_latency := 0;
                                 json := None;
                                 blob := Some {| blob_type := "image/png";
                                                 reader_result :=
                                                   Some "data:image/png;base64,iVBORw0KGgo=" |} |})
    end.

(** A provider answer of Claude's shape with the summary ["A summary."]. *)
Definition claude_body : jsval :=
  VObj [("content", VArr [VObj [("type", VStr "text"); ("text", VStr "A summary.")]])].

Definition claude_summary : Response := json_response true 200 (Some claude_body).

(** No request reaches a server. *)
Definition offline : Network := fun _ _ => (20%N, Fails "Failed to fetch").

Definition page_text : string :=
  "Interaction trees represent the behaviour of programs that interact with their environment, as coinductive trees.".

Definition demo_page (s : Stored) (u : string) (script : Outcome Extracted) : Page :=
  {| stored := Returned s; tab_url := Some u; tab_title := "A page";
     executeScript := script;
     summaryType := brief; render := fun _ => None |}.

Definition claude_stored : Stored :=
  {| ai_provider := Some "claude"; openai_api_key := None; gemini_api_key := None;
     claude_api_key := Some "sk-ant-1" |}.

Definition empty_storage : Storage :=
  {| entries := fun _ => None; summary_history := None |}.

(** A [trim] for inputs with at most one leading space. *)
Definition trim_spaces (s : string) : string :=
  match s with
  | String " " rest => rest
  | _ => s
  end.

Definition demo_input (t : string) : SummaryInput :=
  {| in_id := "1700000000000"; in_date := "2023-11-14T22:13:20.000Z";
     in_text := VStr "A summary."; in_title := t; in_url := Some "https://a.example/";
     in_type := brief |}.


(** A status 401 whose body takes 45 s to arrive. *)
Definition slow_error_body : Response :=
  {| ok := false; status := 401; body_latency := 45000;
     json := Some (error_body "Incorrect API key provided"); blob := None |}.

(** A provider answer of Gemini's shape with the summary ["A summary."]. *)
Definition gemini_body : jsval :=
  VObj [("candidates",
     VArr [VObj [("content",
       VObj [("parts", VArr [VObj [("text", VStr "A summary.")]])])]])].

(** Every image is answered with a blob whose reader result is ["data:"],
    which has no comma; the provider would answer with a summary. *)
Definition image_without_data : Network :=
  fun n req =>
    match signal req with
    | Some _ => (200%N, Resolves (json_response true 200 (Some gemini_body)))
    | None =>
        (100%N, Resolves {| ok := true; status := 200; body_latency := 0;
                            json := None;
                            blob := Some {| blob_type := "";
                                            reader_result := Some "data:" |} |})
    end.

(** An error body whose message is an object with an own [toString] that is
    not a function: [{"error": {"message": {"toString": 1}}}]. *)
Definition unprintable_body : jsval :=
  VObj [("error", VObj [("message", VObj [("toString", VNum 1)])])].

(** ** Proof automation *)

Ltac case_status :=
  repeat match goal with
  | |- context [(?a =? ?b)%Z] => destruct (Z.eqb_spec a b); try lia
  | |- context [(?a <=? ?b)%Z] => destruct (Z.leb_spec a b); try lia
  end.

Ltac run_monad :=
  unfold bind, try_catch, try_finally, ret, throw, emit, member, response_json,
         response_blob; cbn [final events outcome app].

Ltac case_ifs :=
  repeat match goal with
  | |- context [match ?x with Some _ => _ | None => _ end] => destruct x eqn:?
  | |- context [if ?b then _ else _] => destruct b eqn:?
  end.

Ltac each_path H :=
  cbn in H; destruct H as [<- | [<- | [<- | []]]];
  cbn [handler text_path invalid_message OpenAI_path Gemini_path Claude_path] in *.

Ltac unfold_handlers :=
  unfold OpenAIProvider.handle_response, GeminiProvider.handle_response,
         ClaudeProvider.handle_response.


Ltac each_ascii ch :=
  destruct ch as [[] [] [] [] [] [] [] []].


(** ** The classifier *)

(** An error that is neither a transport failure nor named AbortError is
    classified by the status alone. *)
Lemma classifyError_by_status (error : Thrown) (s : Z) :
  s <> 0%Z ->
  matches_earlier_rule error None = false ->
  classifyError error (Some s) =
    if ((s =? 400) || (s =? 401) || (s =? 403))%Z
    then {| type := UNAUTHORIZED; userMessage := USER_MESSAGES UNAUTHORIZED;
            debugInfo :=
              VStr ("HTTP " ++ Number_toString s ++ ": Unauthorized / Bad API key") |}
    else if (s =? 429)%Z
    then {| type := RATE_LIMIT; userMessage := USER_MESSAGES RATE_LIMIT;
            debugInfo := VStr "HTTP 429: Rate limit exceeded" |}
    else if (s =? 404)%Z
    then {| type := UNKNOWN; userMessage := MODEL_NOT_FOUND_MESSAGE;
            debugInfo := VStr "HTTP 404: Model not found" |}
    else if (500 <=? s)%Z
    then {| type := SERVER_ERROR; userMessage := USER_MESSAGES SERVER_ERROR;
            debugInfo := VStr ("HTTP " ++ Number_toString s ++ ": Server error") |}
    else generic_unknown error.
Proof.
  intros Hs H. unfold matches_earlier_rule in H. rewrite orb_false_r in H.
  apply orb_false_elim in H. destruct H as [H1 H2].
  unfold classifyError, generic_unknown. rewrite H1, H2.
  destruct (Z.eqb_spec s 0); [contradiction|]. reflexivity.
Qed.

(** On the error object the dispatcher builds for an HTTP failure, the
    classifier decides by the status alone. *)
Lemma classifyError_new_Error (text : string) (s : Z) :
  s <> 0%Z ->
  classifyError (new_Error text) (Some s) =
    if ((s =? 400) || (s =? 401) || (s =? 403))%Z
    then {| type := UNAUTHORIZED; userMessage := USER_MESSAGES UNAUTHORIZED;
            debugInfo :=
              VStr ("HTTP " ++ Number_toString s ++ ": Unauthorized / Bad API key") |}
    else if (s =? 429)%Z
    then {| type := RATE_LIMIT; userMessage := USER_MESSAGES RATE_LIMIT;
            debugInfo := VStr "HTTP 429: Rate limit exceeded" |}
    else if (s =? 404)%Z
    then {| type := UNKNOWN; userMessage := MODEL_NOT_FOUND_MESSAGE;
            debugInfo := VStr "HTTP 404: Model not found" |}
    else if (500 <=? s)%Z
    then {| type := SERVER_ERROR; userMessage := USER_MESSAGES SERVER_ERROR;
            debugInfo := VStr ("HTTP " ++ Number_toString s ++ ": Server error") |}
    else generic_unknown (new_Error text).
Proof. intros Hs. apply classifyError_by_status; [assumption | reflexivity]. Qed.

Lemma classifyError_HttpFailure (m : jsval) (s : Z) :
  s <> 0%Z ->
  classifyError (HttpFailure s m) (Some s) =
    if ((s =? 400) || (s =? 401) || (s =? 403))%Z
    then {| type := UNAUTHORIZED; userMessage := USER_MESSAGES UNAUTHORIZED;
            debugInfo :=
              VStr ("HTTP " ++ Number_toString s ++ ": Unauthorized / Bad API key") |}
    else if (s =? 429)%Z
    then {| type := RATE_LIMIT; userMessage := USER_MESSAGES RATE_LIMIT;
            debugInfo := VStr "HTTP 429: Rate limit exceeded" |}
    else if (s =? 404)%Z
    then {| type := UNKNOWN; userMessage := MODEL_NOT_FOUND_MESSAGE;
            debugInfo := VStr "HTTP 404: Model not found" |}
    else if (500 <=? s)%Z
    then {| type := SERVER_ERROR; userMessage := USER_MESSAGES SERVER_ERROR;
            debugInfo := VStr ("HTTP " ++ Number_toString s ++ ": Server error") |}
    else generic_unknown (HttpFailure s m).
Proof. intros Hs. apply classifyError_by_status; [assumption | reflexivity]. Qed.

Lemma classifyError_userMessage (e : Thrown) (st : option Z) :
  userMessage (classifyError e st) <> "".
Proof. unfold classifyError. case_ifs; cbn; discriminate. Qed.

Lemma classifyError_TIMEOUT (e : Thrown) (st : option Z) :
  type (classifyError e st) = TIMEOUT -> is_string (prop_name e) "AbortError" = true.
Proof.
  unfold classifyError. case_ifs; cbn; intros H; solve [discriminate H | reflexivity].
Qed.

(** Without a status the user message is always the fixed one of the kind. *)
Lemma classifyError_None_message (e : Thrown) :
  userMessage (classifyError e None) = USER_MESSAGES (type (classifyError e None)).
Proof. unfold classifyError. case_ifs; reflexivity. Qed.

(** The classifier's own user message is the fixed one of the kind, except
    for status 404. *)
Lemma classifyError_message (e : Thrown) (st : option Z) :
  userMessage (classifyError e st) = USER_MESSAGES (type (classifyError e st))
  \/ (type (classifyError e st) = UNKNOWN
      /\ userMessage (classifyError e st) = MODEL_NOT_FOUND_MESSAGE).
Proof. unfold classifyError. case_ifs; cbn; auto. Qed.

Lemma classifyError_kinds (e : Thrown) (st : option Z) :
  classifier_kind (type (classifyError e st)) = true.
Proof. unfold classifyError. case_ifs; reflexivity. Qed.

Lemma classifyError_unmatched (error : Thrown) (httpStatus : option Z) :
  matches_earlier_rule error httpStatus = false ->
  classifyError error httpStatus = generic_unknown error.
Proof.
  unfold matches_earlier_rule, classifyError, generic_unknown, status_specific.
  intros H. apply orb_false_elim in H. destruct H as [H H3].
  apply orb_false_elim in H. destruct H as [H1 H2].
  rewrite H1, H2.
  destruct httpStatus as [s|]; [|reflexivity].
  apply orb_false_elim in H3. destruct H3 as [H3 H4].
  repeat (apply orb_false_elim in H3; destruct H3 as [H3 ?]).
  destruct (negb (s =? 0)%Z); [|reflexivity].
  repeat match goal with H : _ = false |- _ => rewrite H; clear H end.
  reflexivity.
Qed.

(** ** Conversion to a string *)

(** Only an array or an object can fail to convert. *)
Lemma ToString_falsy (v : jsval) : truthy v = false -> ToString v <> None.
Proof. destruct v as [| |[]| | | |]; cbn; try discriminate. Qed.

Lemma ToString_VStr (s : string) : ToString (VStr s) = Some s.
Proof. reflexivity. Qed.

(** The message the dispatcher passes to [new Error]: the provider's when it
    is truthy, the status otherwise. *)
Lemma ToString_js_or (m : jsval) (fallback : string) :
  ToString (js_or m (VStr fallback)) =
    if truthy m then ToString m else Some fallback.
Proof. unfold js_or. destruct (truthy m); reflexivity. Qed.

(** ** The catch block of the dispatcher *)

Lemma catch_HttpFailure {A} (s : Z) (m : jsval) (text : string)
    (net : Network) (c : Clock) :
  s <> 0%Z ->
  ToString (js_or m (VStr ("HTTP " ++ Number_toString s))) = Some text ->
  generateSummary_catch (A := A) (HttpFailure s m) net c =
    let e := new_Error text in
    let errorInfo := classifyError e (Some s) in
    {| final := c;
       events := [EvClassify e (Some s)];
       outcome := Threw (Canonical
         (if truthy m && ErrorType_eqb (type errorInfo) UNKNOWN
          then {| type := type errorInfo;
                  userMessage := "❌ " ++ text;
                  debugInfo := debugInfo errorInfo |}
          else errorInfo)) |}.
Proof.
  intros Hs Ht. unfold generateSummary_catch.
  cbn [prop_name is_string instanceof_TypeError prop_httpStatus truthy prop_message
       number_arg httpStatus_text].
  destruct (Z.eqb_spec s 0); [contradiction|]. cbn [negb].
  unfold to_string. rewrite Ht. rewrite ToString_js_or in Ht.
  destruct (truthy m) eqn:Hm; cbn [andb].
  - rewrite Ht. unfold classify, bind, emit, ret, throw. cbn [final events outcome app].
    destruct (ErrorType_eqb (type (classifyError (new_Error text) (Some s))) UNKNOWN);
      reflexivity.
  - unfold classify, bind, emit, ret, throw. reflexivity.
Qed.

(** A provider message that cannot be converted to a string: [new Error]
    throws, and the TypeError leaves the catch block unclassified. *)
Lemma catch_unprintable {A} (s : Z) (m : jsval) (net : Network) (c : Clock) :
  s <> 0%Z -> ToString m = None ->
  generateSummary_catch (A := A) (HttpFailure s m) net c =
    {| final := c; events := []; outcome := Threw not_primitive |}.
Proof.
  intros Hs Ht. unfold generateSummary_catch.
  cbn [prop_name is_string instanceof_TypeError prop_httpStatus truthy prop_message
       number_arg httpStatus_text].
  destruct (Z.eqb_spec s 0); [contradiction|]. cbn [negb].
  assert (Hm : truthy m = true).
  { destruct (truthy m) eqn:E; [reflexivity|]. apply ToString_falsy in E. contradiction. }
  unfold to_string at 1. rewrite ToString_js_or, Hm, Ht. reflexivity.
Qed.

(** The catch block calls the classifier once and throws a classified error
    with a user message, whose kind is TIMEOUT only for an error named
    AbortError; or it throws the TypeError of a provider message that does
    not convert, without having called the classifier. *)
Lemma catch_run {A} (e : Thrown) (net : Network) (c : Clock) :
  (exists e' st ci,
     generateSummary_catch (A := A) e net c =
       {| final := c; events := [EvClassify e' st]; outcome := Threw (Canonical ci) |}
     /\ userMessage ci <> ""
     /\ classifier_kind (type ci) = true
     /\ (type ci = TIMEOUT -> is_string (prop_name e) "AbortError" = true)
     /\ (type ci <> UNKNOWN -> userMessage ci = USER_MESSAGES (type ci)))
  \/ (generateSummary_catch (A := A) e net c =
        {| final := c; events := []; outcome := Threw not_primitive |}
      /\ exists s m, e = HttpFailure s m /\ s <> 0%Z /\ ToString m = None).
Proof.
  assert (Hfix : forall e0 st, type (classifyError e0 st) <> UNKNOWN ->
            userMessage (classifyError e0 st) = USER_MESSAGES (type (classifyError e0 st))).
  { intros e0 st Hk. destruct (classifyError_message e0 st) as [H | [H _]];
      [exact H | contradiction]. }
  destruct (is_string (prop_name e) "AbortError") eqn:Hab.
  - left. unfold generateSummary_catch. rewrite Hab. do 3 eexists.
    split; [reflexivity|]. split; [apply classifyError_userMessage|].
    split; [apply classifyError_kinds|]. split; [reflexivity | apply Hfix].
  - destruct (instanceof_TypeError e) eqn:Hty.
    + left. unfold generateSummary_catch. rewrite Hab, Hty. do 3 eexists.
      split; [reflexivity|]. split; [apply classifyError_userMessage|].
      split; [apply classifyError_kinds|]. split; [|apply Hfix].
      intros H. apply classifyError_TIMEOUT in H. congruence.
    + destruct (truthy (prop_httpStatus e)) eqn:Hst.
      * destruct e as [cls n m | s m | ci0]; try discriminate Hst.
        assert (Hs : s <> 0%Z).
        { intros ->. discriminate Hst. }
        destruct (ToString (js_or m (VStr ("HTTP " ++ Number_toString s)))) as [text|] eqn:Ht.
        -- left. rewrite (catch_HttpFailure s m text net c Hs Ht). cbn zeta.
           do 3 eexists. split; [reflexivity|].
           set (ci := classifyError (new_Error text) (Some s)).
           destruct (truthy m && ErrorType_eqb (type ci) UNKNOWN) eqn:Hov.
           ++ apply andb_prop in Hov. destruct Hov as [_ Hov]. cbn [type userMessage].
              assert (Hk : type ci = UNKNOWN) by (destruct (type ci); try discriminate Hov; reflexivity).
              split; [discriminate|]. split; [apply classifyError_kinds|].
              split; [rewrite Hk; discriminate | intros Hn; contradiction].
           ++ split; [apply classifyError_userMessage|].
              split; [apply classifyError_kinds|]. split; [|apply Hfix].
              intros H. apply classifyError_TIMEOUT in H. discriminate H.
        -- right. rewrite ToString_js_or in Ht.
           destruct (truthy m); [|discriminate Ht].
           rewrite (catch_unprintable s m net c Hs Ht). split; [reflexivity|].
           exists s, m. auto.
      * left. unfold generateSummary_catch. rewrite Hab, Hty, Hst. do 3 eexists.
        split; [reflexivity|]. split; [apply classifyError_userMessage|].
        split; [apply classifyError_kinds|]. split; [|apply Hfix].
        intros H. apply classifyError_TIMEOUT in H. congruence.
Qed.

Lemma catch_final {A} (e : Thrown) (net : Network) (c : Clock) :
  final (generateSummary_catch (A := A) e net c) = c.
Proof.
  destruct (catch_run (A := A) e net c) as [(e' & st & ci & -> & _) | [-> _]]; reflexivity.
Qed.

Lemma catch_AbortError {A} (net : Network) (c : Clock) :
  generateSummary_catch (A := A) AbortError net c =
    {| final := c; events := [EvClassify AbortError None];
       outcome := Threw (Canonical {| type := TIMEOUT;
                                      userMessage := USER_MESSAGES TIMEOUT;
                                      debugInfo := VStr "Request aborted due to timeout" |}) |}.
Proof. reflexivity. Qed.

(** An error that is not an HTTP failure with a status surfaces the fixed
    message of its kind. *)
Lemma catch_fixed_message (e : Thrown) (net : Network) (c : Clock) :
  truthy (prop_httpStatus e) = false ->
  exists ci,
    generateSummary_catch (A := jsval) e net c =
      {| final := c; events := [EvClassify e None]; outcome := Threw (Canonical ci) |}
    /\ ci = classifyError e None
    /\ userMessage ci = USER_MESSAGES (type ci).
Proof.
  intros Hs. unfold generateSummary_catch. rewrite Hs.
  destruct (is_string (prop_name e) "AbortError"); [|destruct (instanceof_TypeError e)];
    (eexists; split; [reflexivity | split; [reflexivity | apply classifyError_None_message]]).
Qed.

(** What the catch block makes of an HTTP failure by its status: the fixed
    message of the kind for the statuses with a kind of their own. *)
Lemma catch_status_kinds (s : Z) (m : jsval) (net : Network) (c : Clock) :
  ToString m <> None ->
  let r := generateSummary_catch (A := jsval) (HttpFailure s m) net c in
  ((s = 400 \/ s = 401 \/ s = 403)%Z ->
     throws_canonical r UNAUTHORIZED (USER_MESSAGES UNAUTHORIZED))
  /\ (s = 429%Z -> throws_canonical r RATE_LIMIT (USER_MESSAGES RATE_LIMIT))
  /\ ((500 <= s)%Z -> throws_canonical r SERVER_ERROR (USER_MESSAGES SERVER_ERROR)).
Proof.
  intros Hp r. subst r. unfold throws_canonical.
  assert (Ht : exists text,
            ToString (js_or m (VStr ("HTTP " ++ Number_toString s))) = Some text).
  { rewrite ToString_js_or. destruct (truthy m); [|eauto].
    destruct (ToString m); [eauto | contradiction]. }
  destruct Ht as [text Ht].
  repeat split; intros H; rewrite (catch_HttpFailure s m text net c) by (assumption || lia);
    cbn zeta; rewrite classifyError_new_Error by lia; cbn [outcome].
  - replace ((s =? 400) || (s =? 401) || (s =? 403))%Z with true
      by (symmetry; case_status; reflexivity).
    cbn [type]. replace (ErrorType_eqb UNAUTHORIZED UNKNOWN) with false by reflexivity.
    rewrite andb_false_r. eexists; reflexivity.
  - subst s. cbn. rewrite andb_false_r. eexists; reflexivity.
  - case_status; cbn; rewrite andb_false_r; eexists; reflexivity.
Qed.

(** ** Requests and body reads *)

Lemma read_body_read {A} (sg : AbortSignal) (response : Response) (result : Outcome A)
    (net : Network) (c : Clock) :
  (now c + body_latency response < aborts_at sg)%N ->
  read_body (Some sg) response result net c =
    {| final := later c (body_latency response); events := []; outcome := result |}.
Proof.
  intros H. unfold read_body.
  destruct (N.leb_spec (aborts_at sg) (now c + body_latency response)); [lia | reflexivity].
Qed.

Lemma read_body_cut {A} (sg : AbortSignal) (response : Response) (result : Outcome A)
    (net : Network) (c : Clock) :
  (aborts_at sg <= now c + body_latency response)%N ->
  read_body (Some sg) response result net c =
    {| final := cut_at sg c; events := [EvAbort]; outcome := Threw AbortError |}.
Proof.
  intros H. unfold read_body.
  destruct (N.leb_spec (aborts_at sg) (now c + body_latency response)); [reflexivity | lia].
Qed.

Lemma fetch_cases (req : Request) (net : Network) (c : Clock) :
  let r := fetch req net c in
  fetches (final r) = S (fetches c) /\
  ((exists sg, signal req = Some sg /\ (aborts_at sg <= now (final r))%N /\
               events r = [EvFetch req; EvAbort] /\ outcome r = Threw AbortError)
   \/ (events r = [EvFetch req] /\
       ((exists resp, outcome r = Returned resp) \/
        (exists m, outcome r = Threw (new_TypeError m))))).
Proof.
  unfold fetch. destruct (net (fetches c) req) as [latency out].
  destruct (signal req) as [sg|].
  - destruct (N.leb_spec (aborts_at sg) (now c + latency)).
    + cbn. split; [reflexivity|]. left. exists sg. repeat split. lia.
    + destruct out; cbn; (split; [reflexivity|]); right; eauto.
  - destruct out; cbn; (split; [reflexivity|]); right; eauto.
Qed.

Lemma fetch_settles (req : Request) (sg : AbortSignal) net c latency out :
  signal req = Some sg ->
  net (fetches c) req = (latency, out) ->
  (now c + latency < aborts_at sg)%N ->
  fetch req net c =
    {| final := later (sent c) latency;
       events := [EvFetch req];
       outcome := match out with
                  | Resolves r => Returned r
                  | Fails m => Threw (new_TypeError m)
                  end |}.
Proof.
  intros Hs Hn Ht. unfold fetch. rewrite Hn, Hs.
  destruct (N.leb_spec (aborts_at sg) (now c + latency)); [lia|].
  destruct out; reflexivity.
Qed.

Lemma fetch_aborts (req : Request) (sg : AbortSignal) net c latency out :
  signal req = Some sg ->
  net (fetches c) req = (latency, out) ->
  (aborts_at sg <= now c + latency)%N ->
  fetch req net c =
    {| final := cut_at sg (sent c);
       events := [EvFetch req; EvAbort];
       outcome := Threw AbortError |}.
Proof.
  intros Hs Hn Ht. unfold fetch. rewrite Hn, Hs.
  destruct (N.leb_spec (aborts_at sg) (now c + latency)); [reflexivity | lia].
Qed.

Lemma bind_returned {A B} (m : M A) (k : A -> M B) net c a :
  outcome (m net c) = Returned a ->
  bind m k net c =
    {| final := final (k a net (final (m net c)));
       events := (events (m net c) ++ events (k a net (final (m net c))))%list;
       outcome := outcome (k a net (final (m net c))) |}.
Proof. intros H. unfold bind. rewrite H. reflexivity. Qed.

Lemma bind_threw {A B} (m : M A) (k : A -> M B) net c e :
  outcome (m net c) = Threw e ->
  bind m k net c =
    {| final := final (m net c); events := events (m net c); outcome := Threw e |}.
Proof. intros H. unfold bind. rewrite H. reflexivity. Qed.


(** ** Response handling of the adapters *)

(** Once the body has been read, the adapter makes of the response what
    [handled] says. *)
Lemma handler_read (p : ResponsePath) (sg : AbortSignal) (response : Response) net c :
  In p response_paths ->
  (now c + body_latency response < aborts_at sg)%N ->
  handler p sg response net c =
    {| final := later c (body_latency response); events := [];
       outcome := handled p response |}.
Proof.
  intros Hp Ht. unfold handled, provider_message.
  each_path Hp; unfold_handlers; destruct (ok response); cbn [negb];
    unfold response_json, try_catch, bind; rewrite (read_body_read _ _ _ _ _ Ht);
    cbn [final events outcome];
    destruct (json response) as [[| | | | | |]|]; try reflexivity;
    unfold member, ret, throw; cbn [final events outcome];
    match goal with |- context [truthy ?x] => destruct (truthy x) end; reflexivity.
Qed.

(** When the signal cuts the read of the body, the AbortError leaves the
    adapter, unless the status was a failed one: then the [catch] around the
    read takes it and the HTTP failure is raised without a message. *)
Lemma handler_cut (p : ResponsePath) (sg : AbortSignal) (response : Response) net c :
  In p response_paths ->
  (aborts_at sg <= now c + body_latency response)%N ->
  handler p sg response net c =
    {| final := cut_at sg c; events := [EvAbort]; outcome := cut_short response |}.
Proof.
  intros Hp Ht. unfold cut_short.
  each_path Hp; unfold_handlers; destruct (ok response); cbn [negb];
    unfold response_json, try_catch, bind; rewrite (read_body_cut _ _ _ _ _ Ht);
    reflexivity.
Qed.

Lemma handled_adapter_error (p : ResponsePath) (response : Response) (e : Thrown) :
  handled p response = Threw e -> adapter_error e = true.
Proof.
  unfold handled. destruct (ok response); [|intros [= <-]; reflexivity].
  destruct (json response) as [[| | | | | |]|];
    try (intros [= <-]; reflexivity);
    match goal with |- context [if ?b then _ else _] => destruct b end;
    intros H; try discriminate H; injection H as <-; reflexivity.
Qed.

Lemma handler_reads_body (p : ResponsePath) (sg : AbortSignal) (response : Response) :
  In p response_paths -> reads_body sg (handler p sg response).
Proof.
  intros Hp net c. cbn zeta.
  destruct (N.leb_spec (aborts_at sg) (now c + body_latency response)) as [H | H].
  - rewrite (handler_cut p sg response net c Hp H). cbn [final events outcome cut_at fetches now].
    split; [reflexivity|]. right. split; [reflexivity|]. split; [lia|].
    unfold cut_short, abort_outcome. destruct (ok response); eauto.
  - rewrite (handler_read p sg response net c Hp H). cbn [final events outcome later fetches now].
    split; [reflexivity|]. left. split; [reflexivity|]. split; [lia|].
    apply handled_adapter_error.
Qed.

(** A non-success response raises [{httpStatus, message}] with the status of
    the response, whatever the body and whether or not its read is cut. *)
Lemma handler_not_ok (p : ResponsePath) (sg : AbortSignal) (response : Response) net c :
  In p response_paths -> ok response = false ->
  exists m, outcome (handler p sg response net c) = Threw (HttpFailure (status response) m).
Proof.
  intros Hp Hok.
  destruct (N.leb_spec (aborts_at sg) (now c + body_latency response)) as [H | H].
  - rewrite (handler_cut p sg response net c Hp H). unfold cut_short. rewrite Hok.
    eexists. reflexivity.
  - rewrite (handler_read p sg response net c Hp H). unfold handled. rewrite Hok.
    eexists. reflexivity.
Qed.

Lemma handler_unparseable (p : ResponsePath) (sg : AbortSignal) (response : Response) net c :
  In p response_paths -> ok response = true -> json response = None ->
  (now c + body_latency response < aborts_at sg)%N ->
  handler p sg response net c =
    {| final := later c (body_latency response); events := [];
       outcome := Threw (ErrorInstance SyntaxErrorClass "SyntaxError"
                           "Unexpected end of JSON input") |}.
Proof.
  intros Hp Hok Hj Ht. rewrite (handler_read p sg response net c Hp Ht).
  unfold handled. rewrite Hok, Hj. reflexivity.
Qed.

(** A body other than [null] without a truthy text at the fixed path raises
    the synthetic 500. *)
Lemma handler_invalid_structure (p : ResponsePath) (sg : AbortSignal)
    (response : Response) data net c :
  In p response_paths -> ok response = true -> json response = Some data ->
  nullish data = false -> truthy (text_path p data) = false ->
  (now c + body_latency response < aborts_at sg)%N ->
  handler p sg response net c =
    {| final := later c (body_latency response); events := [];
       outcome := Threw (HttpFailure 500 (VStr (invalid_message p))) |}.
Proof.
  intros Hp Hok Hj Hn Hx Ht. rewrite (handler_read p sg response net c Hp Ht).
  unfold handled. rewrite Hok, Hj, Hx. destruct data; try discriminate Hn; reflexivity.
Qed.

(** A body with a truthy text at the fixed path yields that text. *)
Lemma handler_success (p : ResponsePath) (sg : AbortSignal) (response : Response)
    data net c :
  In p response_paths -> ok response = true -> json response = Some data ->
  nullish data = false -> truthy (text_path p data) = true ->
  (now c + body_latency response < aborts_at sg)%N ->
  handler p sg response net c =
    {| final := later c (body_latency response); events := [];
       outcome := Returned (text_path p data) |}.
Proof.
  intros Hp Hok Hj Hn Hx Ht. rewrite (handler_read p sg response net c Hp Ht).
  unfold handled. rewrite Hok, Hj, Hx. destruct data; try discriminate Hn; reflexivity.
Qed.

(** ** The call to the provider *)

Lemma main_call_run (p : ResponsePath) (sg : AbortSignal) (req : Request) net c :
  In p response_paths -> signal req = Some sg ->
  bind (fetch req) (handler p sg) net c = main_call_result p sg req c (net (fetches c) req).
Proof.
  intros Hp Hs. unfold main_call_result.
  destruct (net (fetches c) req) as [latency out] eqn:Hn.
  destruct (N.leb_spec (aborts_at sg) (now c + latency)) as [H | H].
  - unfold bind. rewrite (fetch_aborts req sg net c latency out Hs Hn H). reflexivity.
  - unfold bind. rewrite (fetch_settles req sg net c latency out Hs Hn H).
    destruct out as [response|m]; cbn [final events outcome]; [|reflexivity].
    destruct (N.leb_spec (aborts_at sg)
                (now (later (sent c) latency) + body_latency response)) as [H' | H'].
    + rewrite (handler_cut p sg response net _ Hp H'). reflexivity.
    + rewrite (handler_read p sg response net _ Hp H'). reflexivity.
Qed.

Lemma main_call_ok (p : ResponsePath) (sg : AbortSignal) (req : Request) net c :
  In p response_paths -> signal req = Some sg ->
  adapter_run_ok sg (bind (fetch req) (handler p sg) net c).
Proof.
  intros Hp Hs. rewrite (main_call_run p sg req net c Hp Hs). unfold main_call_result.
  assert (Hev : network_event sg (EvFetch req)) by (right; eauto).
  assert (Hab : network_event sg EvAbort) by (left; reflexivity).
  destruct (net (fetches c) req) as [latency out].
  destruct (N.leb_spec (aborts_at sg) (now c + latency)) as [H | H].
  - split; cbn [final events outcome cut_at sent now].
    + repeat apply Forall_cons; auto.
    + intros _. split; [left; reflexivity | lia].
    + intros e [= <-]. left. split; [reflexivity | cbn; tauto].
  - destruct out as [response|m].
    + destruct (N.leb_spec (aborts_at sg)
                  (now (later (sent c) latency) + body_latency response)) as [H' | H'].
      * split; cbn [final events outcome cut_at later sent now].
        -- repeat apply Forall_cons; auto.
        -- intros _. split; [|lia]. unfold cut_short, abort_outcome.
           destruct (ok response); eauto.
        -- intros e He. unfold cut_short in He. destruct (ok response); injection He as <-.
           ++ left. split; [reflexivity | cbn; tauto].
           ++ right. reflexivity.
      * split; cbn [final events outcome].
        -- repeat apply Forall_cons; auto.
        -- intros [H0 | []]. discriminate H0.
        -- intros e He. right. apply (handled_adapter_error p response e He).
    + split; cbn [final events outcome].
      * repeat apply Forall_cons; auto.
      * intros [H0 | []]. discriminate H0.
      * intros e [= <-]. right. reflexivity.
Qed.

Lemma main_call_fetches (p : ResponsePath) (sg : AbortSignal) (req : Request) net c :
  In p response_paths -> signal req = Some sg ->
  fetches (final (bind (fetch req) (handler p sg) net c)) = S (fetches c).
Proof.
  intros Hp Hs. rewrite (main_call_run p sg req net c Hp Hs). unfold main_call_result.
  destruct (net (fetches c) req) as [latency out].
  destruct (aborts_at sg <=? now c + latency)%N; [reflexivity|].
  destruct out as [response|m]; [|reflexivity].
  destruct (aborts_at sg <=? _)%N; reflexivity.
Qed.

(** The call to the provider sends one request. *)
Lemma main_call_events (p : ResponsePath) (sg : AbortSignal) (req : Request) net c :
  In p response_paths -> signal req = Some sg ->
  events (bind (fetch req) (handler p sg) net c) = [EvFetch req] \/
  events (bind (fetch req) (handler p sg) net c) = [EvFetch req; EvAbort].
Proof.
  intros Hp Hs. rewrite (main_call_run p sg req net c Hp Hs). unfold main_call_result.
  destruct (net (fetches c) req) as [latency out].
  destruct (aborts_at sg <=? now c + latency)%N; [auto|].
  destruct out as [response|m]; [|auto].
  destruct (aborts_at sg <=? _)%N; auto.
Qed.

(** ** Runs of the adapters *)

(** An image request never throws: its result is [image_result] of what the
    network answers. *)
Lemma fetchImage_run (u : string) (net : Network) (c : Clock) :
  let r := GeminiProvider._fetchImageAsBase64 u net c in
  outcome r = Returned (image_result (snd (net (fetches c) (GeminiProvider.image_request u))))
  /\ events r = [EvFetch (GeminiProvider.image_request u)]
  /\ fetches (final r) = S (fetches c).
Proof.
  unfold GeminiProvider._fetchImageAsBase64, try_catch, bind, fetch.
  destruct (net (fetches c) (GeminiProvider.image_request u)) as [latency out].
  cbn [signal GeminiProvider.image_request snd].
  destruct out as [response|m]; cbn [final events outcome image_result];
    [|repeat split; reflexivity].
  destruct (ok response); cbn [negb]; [|repeat split; reflexivity].
  unfold response_blob, read_body. cbn [final events outcome].
  destruct (blob response) as [b|]; [|repeat split; reflexivity].
  cbn [ret final events outcome].
  destruct (reader_result b); repeat split; reflexivity.
Qed.

Lemma image_fetches_run (images : list Image) (net : Network) (c : Clock) :
  let r := image_fetches images net c in
  outcome r = Returned (image_results net (fetches c) images)
  /\ Forall image_fetch_event (events r)
  /\ fetches (final r) = (fetches c + length images)%nat.
Proof.
  unfold image_fetches. revert c.
  induction images as [|img images IH]; intros c; cbn [map promise_all image_results length].
  - cbn. repeat split; [constructor | lia].
  - destruct (fetchImage_run (img_url img) net c) as (Ho & He & Hf). cbn zeta in *.
    rewrite Ho. cbn [final events outcome]. rewrite Hf, He.
    match goal with |- context [promise_all ?l net ?c'] =>
      destruct (IH c') as (IHo & IHe & IHf) end.
    cbn zeta in *. rewrite IHo, IHf. cbn [fetches].
    repeat split; [|lia].
    apply Forall_cons; [exists (img_url img); reflexivity | assumption].
Qed.

Lemma image_results_length net n images :
  length (image_results net n images) = length images.
Proof.
  revert n. induction images as [|img images IH]; intros n; cbn;
    [reflexivity | rewrite IH; reflexivity].
Qed.

Lemma image_events_fetches provider images net c :
  Forall image_fetch_event (image_events provider images net c).
Proof.
  unfold image_events. destruct ((provider =? "gemini") && (0 <? length images)%nat);
    [apply image_fetches_run | constructor].
Qed.

Lemma image_clock_fetches images net c :
  fetches (image_clock images net c) = (fetches c + length images)%nat.
Proof.
  unfold image_clock. destruct images as [|img images]; [cbn; lia|].
  cbn [length Nat.ltb Nat.leb]. apply image_fetches_run.
Qed.

(** The only thing the image loop throws. *)
Lemma attach_images_thrown results payloadBytes e :
  snd (GeminiProvider.attach_images results payloadBytes) = Some e ->
  e = new_TypeError "Cannot read properties of undefined (reading 'length')".
Proof.
  revert payloadBytes. induction results as [|[d|] results IH]; intros payloadBytes;
    cbn [GeminiProvider.attach_images].
  - discriminate.
  - destruct (GeminiProvider.data d) as [base64|]; [|cbn; congruence].
    match goal with |- context [if ?b then _ else _] => destruct b end;
      cbn [snd]; [discriminate | apply IH].
  - apply IH.
Qed.

(** The Gemini adapter: the image requests, then the loop, then the call
    to the provider with what the loop attached, unless the loop throws. *)
Lemma Gemini_run apiKey content ty title sg images net c :
  let attached := GeminiProvider.attach_images (image_results net (fetches c) images) 0 in
  let c' := image_clock images net c in
  let evs := image_events "gemini" images net c in
  GeminiProvider.generateSummary apiKey content ty title sg images net c =
    match snd attached with
    | Some e => {| final := c'; events := evs; outcome := Threw e |}
    | None =>
        let rm := bind (fetch (GeminiProvider.request apiKey sg
                                 (GeminiProvider.text_part content ty title images
                                    :: fst attached)))
                       (GeminiProvider.handle_response sg) net c' in
        {| final := final rm; events := (evs ++ events rm)%list; outcome := outcome rm |}
    end.
Proof.
  cbn zeta. unfold GeminiProvider.generateSummary, image_clock, image_events.
  replace ("gemini" =? "gemini") with true by reflexivity. cbn [andb].
  destruct images as [|img images'] eqn:Himg.
  - cbn [length Nat.ltb Nat.leb image_results GeminiProvider.attach_images snd fst].
    unfold bind at 1. reflexivity.
  - rewrite <- Himg.
    replace (0 <? length images)%nat with true by (rewrite Himg; reflexivity).
    destruct (image_fetches_run images net c) as (Ho & _ & _).
    unfold image_fetches in *. cbn zeta in Ho.
    set (results := image_results net (fetches c) images) in *.
    unfold bind at 1. rewrite (bind_returned _ _ net c _ Ho). cbn [final events outcome].
    destruct (snd (GeminiProvider.attach_images results 0)) as [e|].
    + cbn [throw final events outcome]. rewrite app_nil_r. reflexivity.
    + cbn [ret final events outcome app]. rewrite app_nil_r. reflexivity.
Qed.

Lemma image_events_network sg evs :
  Forall image_fetch_event evs ->
  Forall (network_event sg) evs /\ ~ In EvAbort evs.
Proof.
  intros H. split.
  - eapply Forall_impl; [|exact H]. intros ev (u & ->). right. eauto.
  - intros Hin. rewrite Forall_forall in H. destruct (H _ Hin) as (u & Hu). discriminate Hu.
Qed.

Lemma Claude_generateSummary_eq apiKey content ty title sg images :
  ClaudeProvider.generateSummary apiKey content ty title sg images =
    bind (fetch (ClaudeProvider.request apiKey content ty title sg images))
         (handler Claude_path sg).
Proof. reflexivity. Qed.

Lemma OpenAI_generateSummary_eq apiKey content ty title sg images :
  OpenAIProvider.generateSummary apiKey content ty title sg images =
    bind (fetch (OpenAIProvider.request apiKey content ty title sg images))
         (handler OpenAI_path sg).
Proof. reflexivity. Qed.

Lemma Claude_run_ok apiKey content ty title sg images net c :
  adapter_run_ok sg (ClaudeProvider.generateSummary apiKey content ty title sg images net c).
Proof.
  apply (main_call_ok Claude_path); [cbn; tauto | reflexivity].
Qed.

Lemma OpenAI_run_ok apiKey content ty title sg images net c :
  adapter_run_ok sg (OpenAIProvider.generateSummary apiKey content ty title sg images net c).
Proof.
  apply (main_call_ok OpenAI_path); [cbn; tauto | reflexivity].
Qed.

Lemma Gemini_run_ok apiKey content ty title sg images net c :
  adapter_run_ok sg (GeminiProvider.generateSummary apiKey content ty title sg images net c).
Proof.
  rewrite Gemini_run. cbn zeta.
  destruct (image_events_network sg _ (image_events_fetches "gemini" images net c))
    as [Hnet Hno].
  destruct (snd (GeminiProvider.attach_images _ 0)) as [e|] eqn:Hth.
  - apply attach_images_thrown in Hth. subst e. split; cbn [final events outcome].
    + exact Hnet.
    + intros Hin. contradiction.
    + intros e [= <-]. right. reflexivity.
  - match goal with |- context [bind (fetch ?req) ?h net ?c'] =>
      pose proof (main_call_ok Gemini_path sg req net c'
                    ltac:(cbn; tauto) eq_refl) as [Ke Ka Kt];
      change (handler Gemini_path sg) with h in *;
      set (rm := bind (fetch req) h net c') in *
    end.
    split; cbn [final events outcome].
    + apply Forall_app; split; assumption.
    + intros Hin. apply in_app_or in Hin. destruct Hin as [Hin | Hin]; [contradiction|].
      apply Ka, Hin.
    + intros e He. destruct (Kt e He) as [[-> Hin] | Hadp].
      * left. split; [reflexivity | apply in_or_app; right; assumption].
      * right. assumption.
Qed.

(** ** Runs of the dispatcher *)

Lemma providers_cases (provider : string) (aiProvider : ProviderValue) :
  providers provider = Some aiProvider ->
  aiProvider = ProviderObject window_OpenAIProvider \/
  aiProvider = ProviderObject window_GeminiProvider \/
  aiProvider = ProviderObject window_ClaudeProvider \/
  aiProvider = InheritedMember provider.
Proof. unfold providers. case_ifs; intros [= <-]; tauto. Qed.

Lemma aiProvider_run_ok provider aiProvider apiKey content ty title sg images net c :
  providers provider = Some aiProvider ->
  adapter_run_ok sg
    (aiProvider_generateSummary aiProvider apiKey content ty title sg images net c).
Proof.
  intros H. destruct (providers_cases _ _ H) as [-> | [-> | [-> | ->]]]; cbn.
  - apply OpenAI_run_ok.
  - apply Gemini_run_ok.
  - apply Claude_run_ok.
  - split; cbn.
    + constructor.
    + intros [].
    + intros e [= <-]. right. reflexivity.
Qed.

(** The dispatcher arms the timer, runs the adapter, passes a failure
    through its catch block, and disarms the timer. *)
Lemma dispatch_run provider aiProvider apiKey content ty title images net c :
  providers provider = Some aiProvider ->
  let sg := {| aborts_at := now c + 30000 |} in
  let ra := aiProvider_generateSummary aiProvider apiKey content ty title sg
              (imagesToPass aiProvider images) net c in
  let r := generateSummary provider apiKey content ty title images net c in
  match outcome ra with
  | Returned v =>
      outcome r = Returned v /\ final r = final ra /\
      events r = (EvSetTimeout 30000 :: events ra ++ [EvClearTimeout])%list
  | Threw e =>
      let rc := generateSummary_catch (A := jsval) e net (final ra) in
      outcome r = outcome rc /\ final r = final ra /\
      events r = (EvSetTimeout 30000 :: (events ra ++ events rc) ++ [EvClearTimeout])%list
  end.
Proof.
  intros H. cbn zeta. unfold generateSummary. rewrite H.
  unfold bind, setTimeout_abort, try_finally, try_catch, clearTimeout, emit.
  cbn [final events outcome].
  match goal with |- match outcome ?x with _ => _ end =>
    destruct (outcome x) as [v|e] eqn:Ho end.
  - cbn. auto.
  - cbn [final events outcome app]. rewrite catch_final. auto.
Qed.

Lemma count_classify_app (a b : list Event) :
  count_classify (a ++ b)%list = (count_classify a + count_classify b)%nat.
Proof. unfold count_classify. rewrite filter_app, length_app. reflexivity. Qed.

Lemma network_events_no_classify (sg : AbortSignal) (evs : list Event) :
  Forall (network_event sg) evs -> count_classify evs = 0%nat.
Proof.
  induction 1 as [|ev evs Hev _ IH]; [reflexivity|].
  change (ev :: evs) with (([ev] ++ evs)%list). rewrite count_classify_app, IH.
  destruct Hev as [-> | (req & -> & _)]; reflexivity.
Qed.

(** A dispatch returns without having classified anything, or throws a
    classified error with a user message after one classification at most,
    or throws, unclassified, the TypeError of a provider message that does
    not convert to a string. *)
Lemma dispatch_outcomes provider apiKey content ty title images net c :
  let r := generateSummary provider apiKey content ty title images net c in
  (exists v, outcome r = Returned v /\ count_classify (events r) = 0%nat)
  \/ (exists ci, outcome r = Threw (Canonical ci) /\ userMessage ci <> "" /\
                 classifier_kind (type ci) = true /\
                 (type ci <> UNKNOWN -> userMessage ci = USER_MESSAGES (type ci)) /\
                 (count_classify (events r) <= 1)%nat)
  \/ (outcome r = Threw not_primitive /\ count_classify (events r) = 0%nat).
Proof.
  cbn zeta. destruct (providers provider) as [aiProvider|] eqn:Hp.
  - pose proof (dispatch_run provider aiProvider apiKey content ty title images net c Hp) as H.
    cbn zeta in H.
    set (sg := {| aborts_at := now c + 30000 |}) in *.
    pose proof (aiProvider_run_ok provider aiProvider apiKey content ty title sg
                  (imagesToPass aiProvider images) net c Hp) as [Kev _ _].
    apply network_events_no_classify in Kev.
    set (ra := aiProvider_generateSummary aiProvider apiKey content ty title sg
                 (imagesToPass aiProvider images) net c) in *.
    destruct (outcome ra) as [v|e].
    + destruct H as (Hout & _ & Hevs). left. exists v. split; [assumption|].
      rewrite Hevs. change (EvSetTimeout 30000 :: events ra ++ [EvClearTimeout])%list
        with ([EvSetTimeout 30000] ++ events ra ++ [EvClearTimeout])%list.
      rewrite !count_classify_app, Kev. reflexivity.
    + cbn zeta in H. destruct H as (Hout & _ & Hevs).
      destruct (catch_run (A := jsval) e net (final ra))
        as [(e' & st & ci & Hc & Hmsg & Hk & _ & Hfix) | [Hc _]];
        rewrite Hc in Hout, Hevs; cbn [events outcome] in Hout, Hevs.
      * right. left. exists ci. repeat (split; [assumption|]).
        rewrite Hevs.
        change (EvSetTimeout 30000 :: (events ra ++ [EvClassify e' st]) ++ [EvClearTimeout])%list
          with ([EvSetTimeout 30000] ++ (events ra ++ [EvClassify e' st]) ++ [EvClearTimeout])%list.
        rewrite !count_classify_app, Kev. unfold count_classify. cbn. lia.
      * right. right. split; [assumption|]. rewrite Hevs.
        change (EvSetTimeout 30000 :: (events ra ++ []) ++ [EvClearTimeout])%list
          with ([EvSetTimeout 30000] ++ (events ra ++ []) ++ [EvClearTimeout])%list.
        rewrite !count_classify_app, Kev. reflexivity.
  - right. left. unfold generateSummary. rewrite Hp. cbn. eexists. split; [reflexivity|].
    split; [discriminate|]. split; [reflexivity|].
    split; [intros H; contradiction | unfold count_classify; cbn; lia].
Qed.

(** ** The provider call of a dispatch *)

Lemma main_request_path provider apiKey content ty title images net c p req c' :
  main_request provider apiKey content ty title images net c = Some (p, req, c') ->
  In p response_paths
  /\ signal req = Some {| aborts_at := now c + 30000 |}
  /\ c' = (if provider =? "gemini" then image_clock images net c else c)
  /\ (fetches c' <= fetches c + length images)%nat.
Proof.
  unfold main_request.
  destruct (provider =? "openai") eqn:E1.
  { apply String.eqb_eq in E1. subst provider. intros [= <- <- <-].
    cbn. repeat split; [tauto | lia]. }
  destruct (provider =? "gemini") eqn:E2.
  { destruct (snd (GeminiProvider.attach_images _ 0)); [discriminate|].
    intros [= <- <- <-]. rewrite image_clock_fetches.
    cbn. repeat split; [tauto | lia]. }
  destruct (provider =? "claude") eqn:E3; [|discriminate].
  intros [= <- <- <-]. cbn. repeat split; [tauto | lia].
Qed.

(** A dispatch that reaches the call to the provider is: arm the timer, send
    the image requests (Gemini), make the call, pass a failure through the
    catch block, disarm the timer. *)
Lemma dispatch_main_call provider apiKey content ty title images net c p req c' :
  main_request provider apiKey content ty title images net c = Some (p, req, c') ->
  let sg := {| aborts_at := now c + 30000 |} in
  let rm := main_call_result p sg req c' (net (fetches c') req) in
  let r := generateSummary provider apiKey content ty title images net c in
  final r = final rm /\
  match outcome rm with
  | Returned v =>
      outcome r = Returned v /\
      events r = (EvSetTimeout 30000 :: image_events provider images net c
                    ++ events rm ++ [EvClearTimeout])%list
  | Threw e =>
      let rc := generateSummary_catch (A := jsval) e net (final rm) in
      outcome r = outcome rc /\
      events r = (EvSetTimeout 30000 :: image_events provider images net c
                    ++ events rm ++ events rc ++ [EvClearTimeout])%list
  end.
Proof.
  intros Hm. destruct (main_request_path _ _ _ _ _ _ _ _ _ _ _ Hm) as (Hp & Hs & _ & _).
  cbn zeta. rewrite <- (main_call_run p _ req net c' Hp Hs).
  revert Hm. unfold main_request, image_events.
  destruct (provider =? "openai") eqn:E1; [|destruct (provider =? "gemini") eqn:E2;
    [|destruct (provider =? "claude") eqn:E3; [|discriminate]]].
  - intros [= <- <- <-]. apply String.eqb_eq in E1. subst provider.
    pose proof (dispatch_run "openai" (ProviderObject window_OpenAIProvider)
                  apiKey content ty title images net c eq_refl) as H.
    cbn zeta in H.
    change (imagesToPass (ProviderObject window_OpenAIProvider) images) with images in H.
    cbn [aiProvider_generateSummary Provider.generateSummary window_OpenAIProvider] in H.
    rewrite OpenAI_generateSummary_eq in H.
    cbn [andb app].
    revert H. destruct (outcome (bind (fetch _) (handler OpenAI_path _) net c)).
    + intros (H1 & H2 & H3). rewrite H1, H2, H3. auto.
    + cbn zeta. intros (H1 & H2 & H3). rewrite H1, H2, H3.
      rewrite <- app_assoc. auto.
  - apply String.eqb_eq in E2. subst provider.
    destruct (snd (GeminiProvider.attach_images _ 0)) eqn:Hth; [discriminate|].
    intros [= <- <- <-].
    pose proof (dispatch_run "gemini" (ProviderObject window_GeminiProvider)
                  apiKey content ty title images net c eq_refl) as H.
    cbn zeta in H.
    change (imagesToPass (ProviderObject window_GeminiProvider) images) with images in H.
    cbn [aiProvider_generateSummary Provider.generateSummary window_GeminiProvider] in H.
    rewrite Gemini_run in H. cbn zeta in H. cbn [fetches] in H. rewrite Hth in H.
    cbn [final events outcome] in H.
    change (GeminiProvider.handle_response {| aborts_at := now c + 30000 |})
      with (handler Gemini_path {| aborts_at := now c + 30000 |}) in H.
    unfold image_events in H.
    replace (("gemini" =? "gemini") && (0 <? length images)%nat)
      with (0 <? length images)%nat in * by reflexivity.
    match goal with |- context [bind (fetch ?q) ?h net ?cc] =>
      set (rm := bind (fetch q) h net cc) in * end.
    revert H. destruct (outcome rm).
    + intros (H1 & H2 & H3). rewrite H1, H2, H3. rewrite <- app_assoc. auto.
    + cbn zeta. intros (H1 & H2 & H3). rewrite H1, H2, H3.
      rewrite <- !app_assoc. auto.
  - intros [= <- <- <-]. apply String.eqb_eq in E3. subst provider.
    pose proof (dispatch_run "claude" (ProviderObject window_ClaudeProvider)
                  apiKey content ty title images net c eq_refl) as H.
    cbn zeta in H.
    change (imagesToPass (ProviderObject window_ClaudeProvider) images) with (@nil Image) in H.
    cbn [aiProvider_generateSummary Provider.generateSummary window_ClaudeProvider] in H.
    rewrite Claude_generateSummary_eq in H.
    cbn [andb app].
    revert H. destruct (outcome (bind (fetch _) (handler Claude_path _) net c)).
    + intros (H1 & H2 & H3). rewrite H1, H2, H3. auto.
    + cbn zeta. intros (H1 & H2 & H3). rewrite H1, H2, H3.
      rewrite <- app_assoc. auto.
Qed.

(** A dispatch to Gemini whose image loop throws: the requests for the
    images are all it sends, and the TypeError is classified UNKNOWN. *)
Lemma dispatch_image_break apiKey content ty title images net c e :
  snd (GeminiProvider.attach_images (image_results net (fetches c) images) 0) = Some e ->
  generateSummary "gemini" apiKey content ty title images net c =
    {| final := image_clock images net c;
       events := (EvSetTimeout 30000 :: image_events "gemini" images net c
                    ++ [EvClassify e None; EvClearTimeout])%list;
       outcome := Threw (Canonical (generic_unknown e)) |}.
Proof.
  intros Hth.
  pose proof (dispatch_run "gemini" (ProviderObject window_GeminiProvider)
                apiKey content ty title images net c eq_refl) as H.
  cbn zeta in H.
  change (imagesToPass (ProviderObject window_GeminiProvider) images) with images in H.
  cbn [aiProvider_generateSummary Provider.generateSummary window_GeminiProvider] in H.
  rewrite Gemini_run in H. cbn zeta in H. cbn [fetches] in H. rewrite Hth in H.
  cbn [final events outcome] in H. cbn zeta in H.
  pose proof (attach_images_thrown _ _ _ Hth) as He. subst e.
  destruct H as (H1 & H2 & H3).
  destruct (generateSummary "gemini" apiKey content ty title images net c) as [f evs o].
  cbn [final events outcome] in *. subst f evs o. f_equal.
  rewrite <- app_assoc. reflexivity.
Qed.

(** The outcome of the catch block depends on the error alone. *)
Lemma catch_outcome (e : Thrown) (net net' : Network) (c c' : Clock) :
  outcome (generateSummary_catch (A := jsval) e net c)
  = outcome (generateSummary_catch (A := jsval) e net' c').
Proof.
  destruct (catch_run (A := jsval) e net c)
    as [(e1 & st1 & ci1 & H1 & _) | [H1 (s & m & -> & Hs & Ht)]].
  - unfold generateSummary_catch in *.
    destruct (is_string (prop_name e) "AbortError"); [reflexivity|].
    destruct (instanceof_TypeError e); [reflexivity|].
    destruct (truthy (prop_httpStatus e)) eqn:Hst; [|reflexivity].
    destruct e as [cls n m | s m | ci0]; try discriminate Hst.
    assert (Hs : s <> 0%Z) by (intros ->; discriminate Hst).
    destruct (ToString (js_or m (VStr ("HTTP " ++ Number_toString s)))) as [text|] eqn:Ht.
    + pose proof (catch_HttpFailure (A := jsval) s m text net c Hs Ht) as K1.
      pose proof (catch_HttpFailure (A := jsval) s m text net' c' Hs Ht) as K2.
      unfold generateSummary_catch in K1, K2.
      cbn [prop_name is_string instanceof_TypeError] in K1, K2.
      rewrite Hst in K1, K2. rewrite K1, K2. reflexivity.
    + rewrite ToString_js_or in Ht. destruct (truthy m); [|discriminate Ht].
      pose proof (catch_unprintable (A := jsval) s m net c Hs Ht) as K1.
      pose proof (catch_unprintable (A := jsval) s m net' c' Hs Ht) as K2.
      unfold generateSummary_catch in K1, K2.
      cbn [prop_name is_string instanceof_TypeError] in K1, K2.
      rewrite Hst in K1, K2. rewrite K1, K2. reflexivity.
  - rewrite H1, (catch_unprintable s m net' c' Hs Ht). reflexivity.
Qed.

(** A dispatch whose call to the provider was answered: what the dispatch
    makes of the answer. *)
Lemma dispatch_answered provider apiKey content ty title images net c p req c'
    latency out :
  main_request provider apiKey content ty title images net c = Some (p, req, c') ->
  net (fetches c') req = (latency, out) ->
  let sg := {| aborts_at := now c + 30000 |} in
  let rm := main_call_result p sg req c' (latency, out) in
  let r := generateSummary provider apiKey content ty title images net c in
  final r = final rm
  /\ (forall v, outcome rm = Returned v ->
        outcome r = Returned v /\
        events r = (EvSetTimeout 30000 :: image_events provider images net c
                      ++ events rm ++ [EvClearTimeout])%list)
  /\ (forall e, outcome rm = Threw e ->
        outcome r = outcome (generateSummary_catch (A := jsval) e net c) /\
        events r = (EvSetTimeout 30000 :: image_events provider images net c
                      ++ events rm ++ events (generateSummary_catch (A := jsval) e net (final rm))
                      ++ [EvClearTimeout])%list).
Proof.
  intros Hm Hn. cbn zeta.
  pose proof (dispatch_main_call _ _ _ _ _ _ _ _ _ _ _ Hm) as H. cbn zeta in H.
  rewrite Hn in H. destruct H as (Hf & H). split; [exact Hf|].
  destruct (outcome (main_call_result p _ req c' (latency, out))) as [v|e].
  - split; [intros v' [= <-]; exact H | intros e He; discriminate He].
  - cbn zeta in H. split; [intros v Hv; discriminate Hv|].
    intros e' [= <-]. destruct H as (H1 & H2). split; [|exact H2].
    rewrite H1. apply catch_outcome.
Qed.

(** ** The error taxonomy over HTTP failures *)

(** C1: the classifier maps every HTTP failure with status 400, 401 or 403
    to UNAUTHORIZED, with status 429 to RATE_LIMIT, and with any status of
    500 or more to SERVER_ERROR, each with the fixed user message of its
    kind, whatever message the failure carries; the dispatcher's catch block
    hands it the status of the failure and obtains the same kinds and
    messages, for every message that converts to a string; and for each of
    the three adapters a non-success response raises the HTTP failure with
    the status of the response, whatever its body.  (When the message does
    not convert, [new Error] throws in the catch block before the classifier
    is called.) *)
Theorem C1_http_status_kinds (s : Z) (m : jsval) (net : Network) (c : Clock) :
  let direct := classifyError (HttpFailure s m) (Some s) in
  let r := generateSummary_catch (A := jsval) (HttpFailure s m) net c in
  ((s = 400 \/ s = 401 \/ s = 403)%Z ->
     type direct = UNAUTHORIZED /\ userMessage direct = USER_MESSAGES UNAUTHORIZED
     /\ (ToString m <> None ->
           throws_canonical r UNAUTHORIZED (USER_MESSAGES UNAUTHORIZED)))
  /\ (s = 429%Z ->
        type direct = RATE_LIMIT /\ userMessage direct = USER_MESSAGES RATE_LIMIT
        /\ (ToString m <> None ->
              throws_canonical r RATE_LIMIT (USER_MESSAGES RATE_LIMIT)))
  /\ ((500 <= s)%Z ->
        type direct = SERVER_ERROR /\ userMessage direct = USER_MESSAGES SERVER_ERROR
        /\ (ToString m <> None ->
              throws_canonical r SERVER_ERROR (USER_MESSAGES SERVER_ERROR)))
  /\ (forall p sg response, In p response_paths -> ok response = false ->
        exists m', outcome (handler p sg response net c)
                   = Threw (HttpFailure (status response) m'))
  /\ (s <> 0%Z -> ToString m = None ->
        r = {| final := c; events := []; outcome := Threw not_primitive |}).
Proof.
  cbn zeta. repeat split.
  - destruct H as [-> | [-> | ->]]; reflexivity.
  - destruct H as [-> | [-> | ->]]; reflexivity.
  - intros Hp. apply (catch_status_kinds s m net c Hp). assumption.
  - subst s. reflexivity.
  - subst s. reflexivity.
  - intros Hp. apply (catch_status_kinds s m net c Hp). assumption.
  - rewrite classifyError_HttpFailure by lia. case_status. reflexivity.
  - rewrite classifyError_HttpFailure by lia. case_status. reflexivity.
  - intros Hp. apply (catch_status_kinds s m net c Hp). assumption.
  - intros p sg response Hp Hok. apply handler_not_ok; assumption.
  - intros Hs Ht. apply catch_unprintable; assumption.
Qed.

Lemma C1_witness :
  throws_canonical
    (generateSummary_catch (A := jsval) (HttpFailure 401 (VStr "invalid x-api-key"))
       (always 100 (json_response false 401 None)) clock0)
    UNAUTHORIZED (USER_MESSAGES UNAUTHORIZED)
  /\ throws_canonical
    (generateSummary_catch (A := jsval) (HttpFailure 429 VNull)
       (always 100 (json_response false 429 None)) clock0)
    RATE_LIMIT (USER_MESSAGES RATE_LIMIT)
  /\ type (classifyError (HttpFailure 503 (VObj [("toString", VNum 1)])) (Some 503%Z))
     = SERVER_ERROR
  /\ (exists m',
        outcome (handler Claude_path {| aborts_at := 30000 |}
                   (json_response false 401 (Some (error_body "invalid x-api-key")))
                   (always 100 (json_response false 401 None)) clock0)
        = Threw (HttpFailure 401 m'))
  /\ generateSummary_catch (A := jsval) (HttpFailure 401 (VObj [("toString", VNum 1)]))
       (always 100 (json_response false 401 None)) clock0
     = {| final := clock0; events := []; outcome := Threw not_primitive |}.
Proof.
  split; [|split; [|split; [|split]]].
  - apply (proj1 (C1_http_status_kinds 401 (VStr "invalid x-api-key") _ clock0));
      [lia | discriminate].
  - apply (proj1 (proj2 (C1_http_status_kinds 429 VNull _ clock0)));
      [reflexivity | discriminate].
  - apply (proj1 (proj2 (proj2 (C1_http_status_kinds 503 (VObj [("toString", VNum 1)])
             (always 100 null_body) clock0)))). lia.
  - apply (proj1 (proj2 (proj2 (proj2 (C1_http_status_kinds 401 VNull
             (always 100 (json_response false 401 None)) clock0))))
             Claude_path {| aborts_at := 30000 |}
             (json_response false 401 (Some (error_body "invalid x-api-key"))));
      [cbn; tauto | reflexivity].
  - apply (proj2 (proj2 (proj2 (proj2 (C1_http_status_kinds 401
             (VObj [("toString", VNum 1)]) _ clock0))))); [lia | reflexivity].
Defined.

(** The call to the provider by the times of its answer. *)
Lemma main_call_in_time (p : ResponsePath) (sg : AbortSignal) (req : Request)
    (c : Clock) (latency : N) (response : Response) :
  (now c + latency + body_latency response < aborts_at sg)%N ->
  main_call_result p sg req c (latency, Resolves response) =
    {| final := later (later (sent c) latency) (body_latency response);
       events := [EvFetch req]; outcome := handled p response |}.
Proof.
  intros H. unfold main_call_result.
  destruct (N.leb_spec (aborts_at sg) (now c + latency)); [lia|].
  cbn [later sent now].
  destruct (N.leb_spec (aborts_at sg) (now c + latency + body_latency response));
    [lia | reflexivity].
Qed.

Lemma main_call_body_cut (p : ResponsePath) (sg : AbortSignal) (req : Request)
    (c : Clock) (latency : N) (response : Response) :
  (now c + latency < aborts_at sg)%N ->
  (aborts_at sg <= now c + latency + body_latency response)%N ->
  main_call_result p sg req c (latency, Resolves response) =
    {| final := cut_at sg (later (sent c) latency);
       events := [EvFetch req; EvAbort]; outcome := cut_short response |}.
Proof.
  intros H1 H2. unfold main_call_result.
  destruct (N.leb_spec (aborts_at sg) (now c + latency)); [lia|].
  cbn [later sent now].
  destruct (N.leb_spec (aborts_at sg) (now c + latency + body_latency response));
    [reflexivity | lia].
Qed.

Lemma main_call_fetch_cut (p : ResponsePath) (sg : AbortSignal) (req : Request)
    (c : Clock) (latency : N) (out : FetchOutcome) :
  (aborts_at sg <= now c + latency)%N ->
  main_call_result p sg req c (latency, out) =
    {| final := cut_at sg (sent c); events := [EvFetch req; EvAbort];
       outcome := Threw AbortError |}.
Proof.
  intros H. unfold main_call_result.
  destruct (N.leb_spec (aborts_at sg) (now c + latency)); [reflexivity | lia].
Qed.

Lemma main_call_failed (p : ResponsePath) (sg : AbortSignal) (req : Request)
    (c : Clock) (latency : N) (m : string) :
  (now c + latency < aborts_at sg)%N ->
  main_call_result p sg req c (latency, Fails m) =
    {| final := later (sent c) latency; events := [EvFetch req];
       outcome := Threw (new_TypeError m) |}.
Proof.
  intros H. unfold main_call_result.
  destruct (N.leb_spec (aborts_at sg) (now c + latency)); [lia | reflexivity].
Qed.

(** A failed status read in time goes through the catch block with the
    message the adapter took out of the body. *)
Lemma dispatch_failed_status provider apiKey content ty title images net c p req c'
    latency response :
  main_request provider apiKey content ty title images net c = Some (p, req, c') ->
  net (fetches c') req = (latency, Resolves response) ->
  (now c' + latency + body_latency response < now c + 30000)%N ->
  ok response = false ->
  outcome (generateSummary provider apiKey content ty title images net c)
  = outcome (generateSummary_catch (A := jsval)
               (HttpFailure (status response) (provider_message p response)) net c).
Proof.
  intros Hm Hn Ht Hok.
  destruct (dispatch_answered _ _ _ _ _ _ _ _ _ _ _ _ _ Hm Hn) as (_ & _ & H).
  cbn zeta in H. rewrite main_call_in_time in H by exact Ht. cbn [outcome] in H.
  unfold handled in H. rewrite Hok in H.
  destruct (H _ eq_refl) as [H1 _]. exact H1.
Qed.

(** C3 does not hold of the dispatcher: the classifier gives status 404 the
    kind UNKNOWN and the fixed model-not-found message, and that message
    reaches the user when the body carries no provider message; but when it
    carries one, the dispatcher replaces the model-not-found message by the
    mark followed by the provider's message, as it does for the statuses
    without a rule. *)
Theorem C3_status_404 provider apiKey content ty title images net c p req c'
    latency response :
  main_request provider apiKey content ty title images net c = Some (p, req, c') ->
  net (fetches c') req = (latency, Resolves response) ->
  (now c' + latency + body_latency response < now c + 30000)%N ->
  ok response = false -> status response = 404%Z ->
  let r := generateSummary provider apiKey content ty title images net c in
  let m := provider_message p response in
  classifyError (HttpFailure 404 m) (Some 404%Z) =
    {| type := UNKNOWN; userMessage := MODEL_NOT_FOUND_MESSAGE;
       debugInfo := VStr "HTTP 404: Model not found" |}
  /\ (truthy m = false -> throws_canonical r UNKNOWN MODEL_NOT_FOUND_MESSAGE)
  /\ (forall text, truthy m = true -> ToString m = Some text ->
        outcome r = Threw (Canonical
                      {| type := UNKNOWN; userMessage := "❌ " ++ text;
                         debugInfo := VStr "HTTP 404: Model not found" |})
        /\ "❌ " ++ text <> MODEL_NOT_FOUND_MESSAGE).
Proof.
  intros Hm Hn Ht Hok Hst. cbn zeta. unfold throws_canonical.
  rewrite (dispatch_failed_status _ _ _ _ _ _ _ _ _ _ _ _ _ Hm Hn Ht Hok), Hst.
  split; [reflexivity|]. split.
  - intros Hf.
    assert (Hx : ToString (js_or (provider_message p response)
                             (VStr ("HTTP " ++ Number_toString 404))) = Some "HTTP 404").
    { rewrite ToString_js_or, Hf. reflexivity. }
    rewrite (catch_HttpFailure 404 _ _ net c ltac:(lia) Hx). cbn zeta.
    rewrite Hf. eexists. reflexivity.
  - intros text Hf Hx. split; [|discriminate].
    assert (Hx' : ToString (js_or (provider_message p response)
                              (VStr ("HTTP " ++ Number_toString 404))) = Some text).
    { rewrite ToString_js_or, Hf. exact Hx. }
    rewrite (catch_HttpFailure 404 _ _ net c ltac:(lia) Hx'). cbn zeta.
    rewrite Hf. reflexivity.
Qed.

Lemma C3_witness :
  outcome (generateSummary "claude" "key" "page text" brief "title" []
             (always 100 (json_response false 404
                            (Some (error_body "model: claude-sonnet-4-6"))))
             clock0)
  = Threw (Canonical {| type := UNKNOWN;
                        userMessage := "❌ model: claude-sonnet-4-6";
                        debugInfo := VStr "HTTP 404: Model not found" |}).
Proof.
  apply (C3_status_404 "claude" "key" "page text" brief "title" []
           (always 100 (json_response false 404
                          (Some (error_body "model: claude-sonnet-4-6"))))
           clock0 Claude_path _ clock0 100
           (json_response false 404 (Some (error_body "model: claude-sonnet-4-6")))
           eq_refl eq_refl);
    [cbn; lia | reflexivity | reflexivity | reflexivity | reflexivity].
Defined.

(** The same 404 with a body that is not JSON: the model-not-found message
    is shown. *)
Example model_not_found_without_message :
  throws_canonical
    (generateSummary "gemini" "key" "page text" brief "title" []
       (always 100 (json_response false 404 None)) clock0)
    UNKNOWN MODEL_NOT_FOUND_MESSAGE.
Proof. eexists. vm_compute. reflexivity. Qed.




(** ** Malformed responses *)

(** C5, as stated, fails: a response that parses but lacks the text field is
    classified SERVER_ERROR, not UNKNOWN. *)
Lemma C5_counterexample :
  exists ci,
    outcome (generateSummary "claude" "key" "page text" brief "title" []
               (always 100 (json_response true 200 (Some (VObj [("content", VArr [])]))))
               clock0) = Threw (Canonical ci)
    /\ type ci = SERVER_ERROR
    /\ type ci <> UNKNOWN.
Proof. eexists. split; [vm_compute; reflexivity|]. split; [reflexivity | discriminate]. Qed.

(** C5, amended: every failure evidence not matched by the earlier rules is
    classified as the generic UNKNOWN error; this includes, for each adapter,
    a success response whose body cannot be parsed; a body that parses to a
    value other than [null] and lacks the text field at the fixed path is
    raised as the synthetic 500 and so classified SERVER_ERROR.  (The body
    is one that was read before the signal fired.) *)
Theorem C5_fallback_and_malformed :
  (forall error httpStatus,
      matches_earlier_rule error httpStatus = false ->
      classifyError error httpStatus = generic_unknown error)
  /\ (forall p sg response net c,
        In p response_paths -> ok response = true -> json response = None ->
        (now c + body_latency response < aborts_at sg)%N ->
        exists e,
          outcome (handler p sg response net c) = Threw e /\
          throws_canonical (generateSummary_catch (A := jsval) e net c)
            UNKNOWN (USER_MESSAGES UNKNOWN))
  /\ (forall p sg response data net c,
        In p response_paths -> ok response = true -> json response = Some data ->
        nullish data = false -> truthy (text_path p data) = false ->
        (now c + body_latency response < aborts_at sg)%N ->
        exists e,
          outcome (handler p sg response net c) = Threw e /\
          throws_canonical (generateSummary_catch (A := jsval) e net c)
            SERVER_ERROR (USER_MESSAGES SERVER_ERROR)).
Proof.
  split; [exact classifyError_unmatched|]. split.
  - intros p sg response net c Hp Hok Hj Ht.
    rewrite (handler_unparseable p sg response net c Hp Hok Hj Ht).
    eexists. split; [reflexivity|]. eexists. reflexivity.
  - intros p sg response data net c Hp Hok Hj Hn Hx Ht.
    rewrite (handler_invalid_structure p sg response data net c Hp Hok Hj Hn Hx Ht).
    eexists. split; [reflexivity|].
    apply (catch_status_kinds 500 (VStr (invalid_message p)) net c); [discriminate | lia].
Qed.

Lemma C5_witness :
  classifyError (HttpFailure 418 (VStr "teapot")) (Some 418%Z)
    = generic_unknown (HttpFailure 418 (VStr "teapot"))
  /\ (exists e,
        outcome (handler Claude_path {| aborts_at := 30000 |} (json_response true 200 None)
                   (always 100 null_body) clock0) = Threw e /\
        throws_canonical (generateSummary_catch (A := jsval) e (always 100 null_body) clock0)
          UNKNOWN (USER_MESSAGES UNKNOWN))
  /\ (exists e,
        outcome (handler Claude_path {| aborts_at := 30000 |}
                   (json_response true 200 (Some (VObj [])))
                   (always 100 null_body) clock0) = Threw e /\
        throws_canonical (generateSummary_catch (A := jsval) e (always 100 null_body) clock0)
          SERVER_ERROR (USER_MESSAGES SERVER_ERROR)).
Proof.
  split; [|split].
  - apply (proj1 C5_fallback_and_malformed). reflexivity.
  - apply (proj1 (proj2 C5_fallback_and_malformed));
      [cbn; tauto | reflexivity | reflexivity | cbn; lia].
  - apply (proj2 (proj2 C5_fallback_and_malformed)) with (data := VObj []);
      [cbn; tauto | reflexivity | reflexivity | reflexivity | reflexivity | cbn; lia].
Defined.

(** C6 does not hold on a success response whose body is the JSON value
    [null]: the first property read of each adapter has no optional chaining,
    so a TypeError is thrown instead of the synthetic 500, and the dispatcher
    classifies it UNKNOWN.  (For every other body [handler_invalid_structure]
    gives the synthetic 500 with the adapter's fixed message.) *)
Theorem C6_null_body :
  outcome (ClaudeProvider.handle_response {| aborts_at := 30000 |} null_body
             (always 100 null_body) clock0)
    = Threw (new_TypeError "Cannot read properties of null (reading 'content')")
  /\ outcome (GeminiProvider.handle_response {| aborts_at := 30000 |} null_body
                (always 100 null_body) clock0)
    = Threw (new_TypeError "Cannot read properties of null (reading 'candidates')")
  /\ outcome (OpenAIProvider.handle_response {| aborts_at := 30000 |} null_body
                (always 100 null_body) clock0)
    = Threw (new_TypeError "Cannot read properties of null (reading 'choices')")
  /\ throws_canonical
       (generateSummary "claude" "key" "page text" brief "title" []
          (always 100 null_body) clock0)
       UNKNOWN (USER_MESSAGES UNKNOWN)
  /\ throws_canonical
       (generateSummary "gemini" "key" "page text" brief "title" []
          (always 100 null_body) clock0)
       UNKNOWN (USER_MESSAGES UNKNOWN)
  /\ throws_canonical
       (generateSummary "openai" "key" "page text" brief "title" []
          (always 100 null_body) clock0)
       UNKNOWN (USER_MESSAGES UNKNOWN).
Proof.
  repeat split; try reflexivity; eexists; vm_compute; reflexivity.
Qed.

(** ** Classification happens once *)











(** A provider message that cannot be converted to a string: the dispatch
    throws the TypeError of the conversion without a call of the classifier,
    and [summarizePage] classifies it, once. *)
Example unprintable_message_classified_once :
  generateSummary "openai" "key" "page text" brief "title" []
    (always 100 (json_response false 401 (Some unprintable_body))) clock0
  = {| final := {| now := 100; fetches := 1 |};
       events := [EvSetTimeout 30000;
                  EvFetch (OpenAIProvider.request "key" "page text" brief "title"
                             {| aborts_at := 30000 |} []);
                  EvClearTimeout];
       outcome := Threw not_primitive |}
  /\ summarizePage_catch not_primitive
       (always 100 (json_response false 401 (Some unprintable_body)))
       {| now := 100; fetches := 1 |}
     = {| final := {| now := 100; fetches := 1 |};
          events := [EvClassify not_primitive None;
                     EvShowError (USER_MESSAGES UNKNOWN)];
          outcome := Returned tt |}.
Proof. split; vm_compute; reflexivity. Qed.

(** ** Timeout *)

(** An HTTP failure without a message is classified by its status, never as
    a timeout. *)
Lemma catch_cut_body (s : Z) (net : Network) (c : Clock) :
  exists e' st ci,
    generateSummary_catch (A := jsval) (HttpFailure s VNull) net c =
      {| final := c; events := [EvClassify e' st]; outcome := Threw (Canonical ci) |}
    /\ type ci <> TIMEOUT.
Proof.
  destruct (catch_run (A := jsval) (HttpFailure s VNull) net c)
    as [(e' & st & ci & Hc & _ & _ & Ht & _) | [_ (s' & m & [= _ <-] & _ & Hn)]];
    [|discriminate Hn].
  exists e', st, ci. split; [exact Hc|]. intros Hk. apply Ht in Hk. discriminate Hk.
Qed.

(** C7 does not hold of a call cut while the body of a failed status is
    being read.  For a provider of the registry the dispatcher arms the timer
    for 30 * 1000 ms before anything else and disarms it last; every request
    that carries a signal carries the one that fires 30 s after the start of
    the dispatch; a TIMEOUT error only ever comes from an abort by that
    signal; and an aborted dispatch ends no earlier than 30 s after its
    start.  But it does not always end in TIMEOUT: when the headers of a
    failed status have arrived and the signal fires during the read of the
    body, the [catch] around that read takes the AbortError, the adapter
    raises the HTTP failure with no message, and the dispatch ends in the
    error of the status. *)
Theorem C7_timeout provider aiProvider apiKey content ty title images net c :
  providers provider = Some aiProvider ->
  let r := generateSummary provider apiKey content ty title images net c in
  (exists evs, events r = (EvSetTimeout (30 * 1000) :: evs ++ [EvClearTimeout])%list)
  /\ (forall req sg, In (EvFetch req) (events r) -> signal req = Some sg ->
        aborts_at sg = (now c + 30 * 1000)%N)
  /\ (In EvAbort (events r) ->
        (now c + 30 * 1000 <= now (final r))%N
        /\ (throws_canonical r TIMEOUT (USER_MESSAGES TIMEOUT)
            \/ exists s ci,
                 outcome r = outcome (generateSummary_catch (A := jsval)
                                        (HttpFailure s VNull) net c)
                 /\ outcome r = Threw (Canonical ci) /\ type ci <> TIMEOUT))
  /\ (forall p req c' latency response,
        main_request provider apiKey content ty title images net c = Some (p, req, c') ->
        net (fetches c') req = (latency, Resolves response) ->
        (now c' + latency < now c + 30 * 1000)%N ->
        (now c + 30 * 1000 <= now c' + latency + body_latency response)%N ->
        ok response = false ->
        In EvAbort (events r)
        /\ outcome r = outcome (generateSummary_catch (A := jsval)
                                  (HttpFailure (status response) VNull) net c)
        /\ exists ci, outcome r = Threw (Canonical ci) /\ type ci <> TIMEOUT)
  /\ (forall ci, outcome r = Threw (Canonical ci) -> type ci = TIMEOUT ->
        In EvAbort (events r)).
Proof.
  intros Hp. cbn zeta. unfold throws_canonical.
  pose proof (dispatch_run provider aiProvider apiKey content ty title images net c Hp) as H.
  cbn zeta in H.
  set (sg := {| aborts_at := now c + 30000 |}) in *.
  pose proof (aiProvider_run_ok provider aiProvider apiKey content ty title sg
                (imagesToPass aiProvider images) net c Hp) as [Kev Kab Kth].
  set (ra := aiProvider_generateSummary aiProvider apiKey content ty title sg
               (imagesToPass aiProvider images) net c) in *.
  change (30 * 1000)%N with 30000%N.
  assert (Hsig : forall req sg', In (EvFetch req) (events ra) -> signal req = Some sg' ->
                                 aborts_at sg' = (now c + 30000)%N).
  { intros req sg' Hin Hs. rewrite Forall_forall in Kev.
    destruct (Kev _ Hin) as [H0 | (req' & [= <-] & [H0 | H0])]; [discriminate H0| |];
      rewrite H0 in Hs; [discriminate Hs | injection Hs as <-; reflexivity]. }
  assert (Hcut : forall p req c' latency response,
            main_request provider apiKey content ty title images net c = Some (p, req, c') ->
            net (fetches c') req = (latency, Resolves response) ->
            (now c' + latency < now c + 30000)%N ->
            (now c + 30000 <= now c' + latency + body_latency response)%N ->
            ok response = false ->
            In EvAbort (events (generateSummary provider apiKey content ty title images net c))
            /\ outcome (generateSummary provider apiKey content ty title images net c)
               = outcome (generateSummary_catch (A := jsval)
                            (HttpFailure (status response) VNull) net c)
            /\ exists ci, outcome (generateSummary provider apiKey content ty title images net c)
                          = Threw (Canonical ci) /\ type ci <> TIMEOUT).
  { intros p req c' latency response Hm Hn Ht1 Ht2 Hok.
    destruct (dispatch_answered _ _ _ _ _ _ _ _ _ _ _ _ _ Hm Hn) as (_ & _ & Hd).
    cbn zeta in Hd. fold sg in Hd.
    rewrite (main_call_body_cut p sg req c' latency response Ht1 Ht2) in Hd.
    cbn [final events outcome] in Hd. unfold cut_short in Hd. rewrite Hok in Hd.
    destruct (Hd _ eq_refl) as (Ho & He). split; [|split].
    - rewrite He. right. apply in_or_app. right. cbn. auto.
    - exact Ho.
    - destruct (catch_cut_body (status response) net c) as (e' & st & ci & Hc & Hk).
      exists ci. rewrite Ho, Hc. split; [reflexivity | exact Hk]. }
  destruct (outcome ra) as [v|e] eqn:Ho.
  - destruct H as (Hout & Hfin & Hevs). rewrite Hevs, Hout.
    split; [eauto|]. split; [|split; [|split]].
    + intros req sg' [H0 | H0]; [discriminate H0|].
      apply in_app_or in H0. destruct H0 as [H0 | [H0 | []]]; [eauto | discriminate H0].
    + intros [H0 | H0]; [discriminate H0|].
      apply in_app_or in H0. destruct H0 as [H0 | [H0 | []]]; [|discriminate H0].
      destruct (Kab H0) as [[H1 | [s H1]] _]; discriminate H1.
    + rewrite <- Hevs, <- Hout. exact Hcut.
    + intros ci H0. discriminate H0.
  - cbn zeta in H. destruct H as (Hout & Hfin & Hevs).
    assert (Hab : In EvAbort (events (generateSummary provider apiKey content ty title
                                        images net c)) -> In EvAbort (events ra)).
    { rewrite Hevs. intros [H0 | H0]; [discriminate H0|].
      apply in_app_or in H0. destruct H0 as [H0 | [H0 | []]]; [|discriminate H0].
      apply in_app_or in H0. destruct H0 as [H0 | H0]; [exact H0|].
      destruct (catch_run (A := jsval) e net (final ra))
        as [(e' & st & ci & Hc & _) | [Hc _]]; rewrite Hc in H0; cbn in H0;
        [destruct H0 as [H0 | []]; discriminate H0 | contradiction]. }
    split; [rewrite Hevs; eauto|]. split; [|split; [|split]].
    + rewrite Hevs. intros req sg' [H0 | H0]; [discriminate H0|].
      apply in_app_or in H0. destruct H0 as [H0 | [H0 | []]]; [|discriminate H0].
      apply in_app_or in H0. destruct H0 as [H0 | H0]; [eauto|].
      destruct (catch_run (A := jsval) e net (final ra))
        as [(e' & st & ci & Hc & _) | [Hc _]]; rewrite Hc in H0; cbn in H0;
        [destruct H0 as [H0 | []]; discriminate H0 | contradiction].
    + intros H0. apply Hab in H0. destruct (Kab H0) as [[H1 | [s H1]] H2].
      * injection H1 as ->. split; [rewrite Hfin; exact H2|]. left.
        rewrite Hout, catch_AbortError. eexists. reflexivity.
      * injection H1 as ->. split; [rewrite Hfin; exact H2|]. right.
        destruct (catch_cut_body s net c) as (e' & st & ci & Hc & Hk).
        exists s, ci. rewrite Hout.
        rewrite (catch_outcome (HttpFailure s VNull) net net (final ra) c), Hc.
        split; [reflexivity | split; [reflexivity | exact Hk]].
    + exact Hcut.
    + intros ci' Hci Ht. rewrite Hout in Hci.
      destruct (catch_run (A := jsval) e net (final ra))
        as [(e' & st & ci & Hc & _ & _ & Htime & _) | [Hc _]];
        rewrite Hc in Hci; [|discriminate Hci].
      injection Hci as ->. apply Htime in Ht.
      destruct (Kth e eq_refl) as [[-> Hin] | Hadp].
      * rewrite Hevs. right. apply in_or_app. left. apply in_or_app. left. exact Hin.
      * unfold adapter_error in Hadp. rewrite Ht in Hadp. discriminate Hadp.
Qed.

Lemma C7_witness :
  In EvAbort (events (generateSummary "openai" "key" "page text" brief "title" []
                        (always 100 slow_error_body) clock0))
  /\ outcome (generateSummary "openai" "key" "page text" brief "title" []
                (always 100 slow_error_body) clock0)
     = outcome (generateSummary_catch (A := jsval) (HttpFailure (status slow_error_body) VNull)
                  (always 100 slow_error_body) clock0)
  /\ exists ci, outcome (generateSummary "openai" "key" "page text" brief "title" []
                           (always 100 slow_error_body) clock0) = Threw (Canonical ci)
                /\ type ci <> TIMEOUT.
Proof.
  apply (proj1 (proj2 (proj2 (proj2
           (C7_timeout "openai" (ProviderObject window_OpenAIProvider) "key" "page text"
              brief "title" [] (always 100 slow_error_body) clock0 eq_refl))))
           OpenAI_path _ clock0 100%N slow_error_body eq_refl eq_refl);
    [cbn; lia | cbn; lia | reflexivity].
Defined.

(** The status 401 whose body does not arrive in time: the dispatch is cut
    at 30 s and ends in UNAUTHORIZED, not in TIMEOUT. *)
Example aborted_error_body_ends_by_status :
  generateSummary "openai" "key" "page text" brief "title" []
    (always 100 slow_error_body) clock0
  = {| final := {| now := 30000; fetches := 1 |};
       events := [EvSetTimeout 30000;
                  EvFetch (OpenAIProvider.request "key" "page text" brief "title"
                             {| aborts_at := 30000 |} []);
                  EvAbort;
                  EvClassify (new_Error "HTTP 401") (Some 401%Z);
                  EvClearTimeout];
       outcome := Threw (Canonical
                    {| type := UNAUTHORIZED;
                       userMessage := USER_MESSAGES UNAUTHORIZED;
                       debugInfo := VStr "HTTP 401: Unauthorized / Bad API key" |}) |}.
Proof. vm_compute. reflexivity. Qed.

(** A request that does not settle by the deadline ends in TIMEOUT. *)
Example aborted_request_times_out :
  throws_canonical
    (generateSummary "gemini" "key" "page text" brief "title" []
       (always 45000 (json_response true 200 None)) clock0)
    TIMEOUT (USER_MESSAGES TIMEOUT)
  /\ now (final (generateSummary "gemini" "key" "page text" brief "title" []
                   (always 45000 (json_response true 200 None)) clock0)) = 30000%N.
Proof. split; [eexists|]; vm_compute; reflexivity. Qed.

(** A call that settles one millisecond before the deadline is not aborted. *)
Example settles_before_deadline :
  outcome (generateSummary "claude" "key" "page text" brief "title" []
             (always 29999 (json_response true 200
                (Some (VObj [("content", VArr [VObj [("text", VStr "A summary.")]])]))))
             clock0)
  = Returned (VStr "A summary.").
Proof. vm_compute. reflexivity. Qed.

(** ** The registry *)

(** C8: for a provider identifier other than openai, gemini and claude the
    dispatch throws a classified error of kind UNKNOWN and no request is
    sent. *)
Theorem C8_unknown_provider provider apiKey content ty title images net c :
  provider <> "openai" -> provider <> "gemini" -> provider <> "claude" ->
  let r := generateSummary provider apiKey content ty title images net c in
  (exists ci, outcome r = Threw (Canonical ci) /\ type ci = UNKNOWN)
  /\ (forall req, ~ In (EvFetch req) (events r))
  /\ fetches (final r) = fetches c.
Proof.
  intros H1 H2 H3. cbn zeta. unfold generateSummary, providers.
  apply String.eqb_neq in H1, H2, H3. rewrite H1, H2, H3.
  destruct (existsb (String.eqb provider) Object_prototype_keys).
  - cbn. split; [eexists; split; reflexivity|]. split; [|reflexivity].
    intros req [H | [H | [H | []]]]; discriminate H.
  - cbn. split; [eexists; split; reflexivity|]. split; [|reflexivity].
    intros req [].
Qed.

Lemma C8_witness :
  (exists ci, outcome (generateSummary "mistral" "key" "page text" brief "title" []
                         (always 100 null_body) clock0) = Threw (Canonical ci)
              /\ type ci = UNKNOWN)
  /\ (forall req, ~ In (EvFetch req)
        (events (generateSummary "mistral" "key" "page text" brief "title" []
                   (always 100 null_body) clock0)))
  /\ fetches (final (generateSummary "mistral" "key" "page text" brief "title" []
                       (always 100 null_body) clock0)) = fetches clock0.
Proof.
  apply (C8_unknown_provider "mistral" "key" "page text" brief "title" []
           (always 100 null_body) clock0); discriminate.
Defined.

(** The name of a member of [Object.prototype] is not in the registry
    either: the lookup finds the inherited member, the call of its
    [generateSummary] fails, and the failure is classified UNKNOWN. *)
Example inherited_member_provider :
  generateSummary "toString" "key" "page text" brief "title" two_images
    (always 100 null_body) clock0
  = {| final := clock0;
       events := [EvSetTimeout 30000;
                  EvClassify (new_TypeError "aiProvider.generateSummary is not a function") None;
                  EvClearTimeout];
       outcome := Threw (Canonical (generic_unknown
                    (new_TypeError "aiProvider.generateSummary is not a function"))) |}.
Proof. vm_compute. reflexivity. Qed.

(** ** Images *)

(** What the loop attaches: the images that were fetched and encoded, in
    their order, as long as they fit under the cap. *)
Lemma attach_images_fst results payloadBytes :
  fst (GeminiProvider.attach_images results payloadBytes) =
  map inline_part (under_cap (successes results) payloadBytes).
Proof.
  revert payloadBytes. induction results as [|[d|] results IH]; intros payloadBytes;
    cbn [GeminiProvider.attach_images successes].
  - reflexivity.
  - destruct (GeminiProvider.data d) as [base64|]; [|reflexivity].
    cbn [under_cap]. unfold image_bytes at 1. cbn [encoded_data].
    destruct (Qle_bool _ GeminiProvider.MAX_IMAGE_PAYLOAD); cbn [negb fst map];
      [|reflexivity].
    rewrite IH. reflexivity.
  - apply IH.
Qed.

(** The loop does not throw when every image that was fetched has its
    data. *)
Lemma attach_images_all_encoded results payloadBytes :
  all_encoded results = true ->
  snd (GeminiProvider.attach_images results payloadBytes) = None.
Proof.
  revert payloadBytes. induction results as [|[d|] results IH]; intros payloadBytes;
    cbn [GeminiProvider.attach_images all_encoded forallb].
  - reflexivity.
  - destruct (GeminiProvider.data d) as [base64|]; [|discriminate].
    cbn [andb]. intros H.
    destruct (Qle_bool _ GeminiProvider.MAX_IMAGE_PAYLOAD); cbn [negb snd];
      [apply IH; exact H | reflexivity].
  - cbn [andb]. apply IH.
Qed.

(** C9 does not hold of an image that is fetched but whose reader result has
    no comma.  In the Gemini adapter, for a list of images of any length (so
    also of length 0 to 2), the image requests never throw: each image whose
    request, status, blob or read fails yields [null] and is passed over;
    what the loop attaches is, in the order of extraction, the images that
    were fetched and encoded, as long as they fit under the cap; when the
    loop does not throw the main request is sent with the text part followed
    by these images, the text part alone when none succeeded, and the outcome
    of the call is the outcome of that request; the loop does not throw when
    every fetched image has its data.  But an image whose [data] is
    [undefined] makes the loop throw a TypeError: the call fails, and no
    request is sent to the provider. *)
Theorem C9_gemini_images apiKey content ty title sg images net c :
  let results := image_results net (fetches c) images in
  let attached := GeminiProvider.attach_images results 0 in
  let parts := GeminiProvider.text_part content ty title images :: fst attached in
  let r := GeminiProvider.generateSummary apiKey content ty title sg images net c in
  outcome (image_fetches images net c) = Returned results
  /\ length results = length images
  /\ fst attached = map inline_part (under_cap (successes results) 0)
  /\ (successes results = [] ->
        parts = [GeminiProvider.text_part content ty title images])
  /\ (snd attached = None ->
        In (EvFetch (GeminiProvider.request apiKey sg parts)) (events r)
        /\ outcome r =
             outcome (bind (fetch (GeminiProvider.request apiKey sg parts))
                           (GeminiProvider.handle_response sg) net
                           (image_clock images net c)))
  /\ (all_encoded results = true -> snd attached = None)
  /\ (forall e, snd attached = Some e ->
        e = new_TypeError "Cannot read properties of undefined (reading 'length')"
        /\ outcome r = Threw e
        /\ forall req, In (EvFetch req) (events r) -> signal req = None).
Proof.
  cbn zeta.
  destruct (image_fetches_run images net c) as (Ho & _ & _). cbn zeta in Ho.
  split; [exact Ho|]. split; [apply image_results_length|].
  split; [apply attach_images_fst|].
  split. { intros Hs. rewrite attach_images_fst, Hs. reflexivity. }
  rewrite Gemini_run. cbn zeta.
  split; [|split].
  - intros Hn. rewrite Hn. cbn [events outcome]. split; [|reflexivity].
    apply in_or_app. right.
    match goal with |- In (EvFetch ?req) (events (bind (fetch ?req) _ net ?c')) =>
      destruct (main_call_events Gemini_path sg req net c'
                  ltac:(cbn; tauto) eq_refl) as [He | He]
    end; cbn [handler Gemini_path] in He; rewrite He; cbn; auto.
  - apply attach_images_all_encoded.
  - intros e He. rewrite He. cbn [events outcome].
    split; [exact (attach_images_thrown _ _ _ He)|]. split; [reflexivity|].
    intros req Hin.
    pose proof (image_events_fetches "gemini" images net c) as Hf.
    rewrite Forall_forall in Hf. destruct (Hf _ Hin) as (u & [= ->]). reflexivity.
Qed.

Lemma C9_witness :
  (In (EvFetch (GeminiProvider.request "key" {| aborts_at := 30000 |}
                  [GeminiProvider.text_part "page text" brief "title" two_images;
                   GeminiInlineData "image/png" "iVBORw0KGgo="]))
      (events (GeminiProvider.generateSummary "key" "page text" brief "title"
                 {| aborts_at := 30000 |} two_images one_of_two clock0))
   /\ outcome (GeminiProvider.generateSummary "key" "page text" brief "title"
                 {| aborts_at := 30000 |} two_images one_of_two clock0)
      = outcome (bind (fetch (GeminiProvider.request "key" {| aborts_at := 30000 |}
                                [GeminiProvider.text_part "page text" brief "title" two_images;
                                 GeminiInlineData "image/png" "iVBORw0KGgo="]))
                      (GeminiProvider.handle_response {| aborts_at := 30000 |}) one_of_two
                      (image_clock two_images one_of_two clock0)))
  /\ outcome (GeminiProvider.generateSummary "key" "page text" brief "title"
                {| aborts_at := 30000 |} two_images image_without_data clock0)
     = Threw (new_TypeError "Cannot read properties of undefined (reading 'length')").
Proof.
  split.
  - exact (proj1 (proj2 (proj2 (proj2 (proj2
             (C9_gemini_images "key" "page text" brief "title" {| aborts_at := 30000 |}
                two_images one_of_two clock0))))) eq_refl).
  - exact (proj1 (proj2
             (proj2 (proj2 (proj2 (proj2 (proj2 (proj2
                (C9_gemini_images "key" "page text" brief "title" {| aborts_at := 30000 |}
                   two_images image_without_data clock0))))))
                (new_TypeError "Cannot read properties of undefined (reading 'length')")
                eq_refl))).
Defined.

(** One of two images fails: the request carries the text and the image
    that could be fetched, and the call returns the summary. *)
Example gemini_one_of_two_images :
  let sg := {| aborts_at := 30000 |} in
  let r := GeminiProvider.generateSummary "key" "page text" brief "title" sg two_images
             one_of_two clock0 in
  outcome r = Returned (VStr "A summary.")
  /\ events r =
       [EvFetch (GeminiProvider.image_request "https://a.example/1.png");
        EvFetch (GeminiProvider.image_request "https://a.example/2.png");
        EvFetch (GeminiProvider.request "key" sg
                   [GeminiProvider.text_part "page text" brief "title" two_images;
                    GeminiInlineData "image/png" "iVBORw0KGgo="])]
  /\ now (final r) = 350%N.
Proof. cbn zeta. repeat split; vm_compute; reflexivity. Qed.

(** Two images whose reader result has no comma: the dispatch fails with the
    generic UNKNOWN error after the two image requests, and the provider is
    never called. *)
Example gemini_image_without_data :
  let r := generateSummary "gemini" "key" "page text" brief "title" two_images
             image_without_data clock0 in
  throws_canonical r UNKNOWN (USER_MESSAGES UNKNOWN)
  /\ events r =
       [EvSetTimeout 30000;
        EvFetch (GeminiProvider.image_request "https://a.example/1.png");
        EvFetch (GeminiProvider.image_request "https://a.example/2.png");
        EvClassify
          (new_TypeError "Cannot read properties of undefined (reading 'length')") None;
        EvClearTimeout].
Proof. cbn zeta. split; [eexists|]; vm_compute; reflexivity. Qed.

(** C10: the Claude provider object defines no [supportsMultimodal], so
    whatever images were extracted a dispatch to claude runs as with no image
    at all: the only request sent is the text-only one, whose user content is
    the prompt string and whose system prompt has no image hint. *)
Theorem C10_claude_text_only apiKey content ty title images net c :
  let r := generateSummary "claude" apiKey content ty title images net c in
  let text_only :=
    ClaudeProvider.request apiKey content ty title {| aborts_at := now c + 30000 |} [] in
  Provider.supportsMultimodal window_ClaudeProvider = None
  /\ r = generateSummary "claude" apiKey content ty title [] net c
  /\ body text_only =
       ClaudeBody ClaudeProvider.defaultModel 1000
         (ClaudeString (user_prompt ty title content)) SYSTEM_PROMPT (1 # 2)
  /\ In (EvFetch text_only) (events r)
  /\ (forall req, In (EvFetch req) (events r) -> req = text_only).
Proof.
  cbn zeta. split; [reflexivity|]. split; [reflexivity|]. split; [reflexivity|].
  pose proof (dispatch_run "claude" (ProviderObject window_ClaudeProvider)
                apiKey content ty title images net c eq_refl) as H.
  cbn zeta in H.
  change (imagesToPass (ProviderObject window_ClaudeProvider) images) with (@nil Image) in H.
  cbn [aiProvider_generateSummary Provider.generateSummary window_ClaudeProvider] in H.
  rewrite Claude_generateSummary_eq in H.
  set (sg := {| aborts_at := now c + 30000 |}) in *.
  set (req0 := ClaudeProvider.request apiKey content ty title sg []) in *.
  pose proof (main_call_events Claude_path sg req0 net c ltac:(cbn; tauto) eq_refl) as He.
  set (ra := bind (fetch req0) (handler Claude_path sg) net c) in *.
  assert (Hin : In (EvFetch req0) (events ra) /\
                forall req, In (EvFetch req) (events ra) -> req = req0).
  { destruct He as [-> | ->]; cbn; split; auto; intros req [H0 | H0];
      try (injection H0; auto); try contradiction; destruct H0 as [H0 | []];
      discriminate H0. }
  destruct Hin as [Hin Huniq].
  destruct (outcome ra) as [v|e].
  - destruct H as (_ & _ & ->). split.
    + right. apply in_or_app. left. exact Hin.
    + intros req [H0 | H0]; [discriminate H0|].
      apply in_app_or in H0. destruct H0 as [H0 | [H0 | []]]; [auto | discriminate H0].
  - cbn zeta in H. destruct H as (_ & _ & ->). split.
    + right. apply in_or_app. left. apply in_or_app. left. exact Hin.
    + intros req [H0 | H0]; [discriminate H0|].
      apply in_app_or in H0. destruct H0 as [H0 | [H0 | []]]; [|discriminate H0].
      apply in_app_or in H0. destruct H0 as [H0 | H0]; [auto|].
      destruct (catch_run (A := jsval) e net (final ra))
        as [(e' & st & ci & Hc & _) | [Hc _]]; rewrite Hc in H0; cbn in H0;
        [destruct H0 as [H0 | []]; discriminate H0 | contradiction].
Qed.

Lemma C10_witness :
  ClaudeProvider.request "key" "page text" brief "title" {| aborts_at := 30000 |} []
  = ClaudeProvider.request "key" "page text" brief "title"
      {| aborts_at := now clock0 + 30000 |} [].
Proof.
  apply (C10_claude_text_only "key" "page text" brief "title" two_images
           (always 100 null_body) clock0).
  vm_compute. tauto.
Defined.

(** ** Requests of a dispatch *)

Lemma image_events_no_call evs :
  Forall image_fetch_event evs -> filter is_provider_call evs = [].
Proof.
  induction 1 as [|ev evs (u & ->) _ IH]; [reflexivity|]. cbn. exact IH.
Qed.

Lemma image_events_no_classify evs :
  Forall image_fetch_event evs -> count_classify evs = 0%nat.
Proof.
  induction 1 as [|ev evs (u & ->) _ IH]; [reflexivity | exact IH].
Qed.

Lemma handled_success (p : ResponsePath) (response : Response) (data : jsval) :
  ok response = true -> json response = Some data -> nullish data = false ->
  truthy (text_path p data) = true ->
  handled p response = Returned (text_path p data).
Proof.
  intros Hok Hj Hn Hx. unfold handled. rewrite Hok, Hj, Hx.
  destruct data; try discriminate Hn; reflexivity.
Qed.

(** ** The network rule of the classifier *)

Lemma includes_prefix needle s : String.prefix needle s = true -> includes needle s = true.
Proof. intros H. destruct s; cbn [includes]; rewrite H; reflexivity. Qed.

Lemma includes_skip a needle s :
  includes needle s = true -> includes needle (a ++ s) = true.
Proof.
  induction a as [|ch a IH]; intros H; [exact H|].
  cbn [append includes]. rewrite (IH H). apply orb_true_r.
Qed.

Lemma prefix_app_inv a b s :
  String.prefix (a ++ b) s = true -> exists t, s = a ++ t /\ String.prefix b t = true.
Proof.
  revert s. induction a as [|ch a IH]; intros s H.
  - exists s. split; [reflexivity | exact H].
  - destruct s as [|ch' s]; [discriminate H|]. cbn in H.
    destruct (Ascii.ascii_dec ch ch') as [<-|]; [|discriminate H].
    destruct (IH s H) as (t & -> & Ht). exists t. split; [reflexivity | exact Ht].
Qed.

(** The first test of the network rule is subsumed by the second. *)
Lemma includes_Failed_to_fetch m :
  includes "Failed to fetch" m = true -> includes "fetch" m = true.
Proof.
  induction m as [|ch m IH]; intros H.
  - discriminate H.
  - cbn [includes] in H. apply orb_true_iff in H. destruct H as [H | H].
    + destruct (prefix_app_inv "Failed to " "fetch" _ H) as (t & -> & Ht).
      apply includes_skip, includes_prefix, Ht.
    + cbn [includes]. rewrite (IH H). apply orb_true_r.
Qed.

Lemma network_rule m :
  includes "Failed to fetch" m || includes "fetch" m = includes "fetch" m.
Proof.
  destruct (includes "fetch" m) eqn:E; [apply orb_true_r|].
  rewrite orb_false_r. destruct (includes "Failed to fetch" m) eqn:E'; [|reflexivity].
  apply includes_Failed_to_fetch in E'. congruence.
Qed.

Lemma catch_TypeError {A} m net c :
  generateSummary_catch (A := A) (new_TypeError m) net c =
    {| final := c; events := [EvClassify (new_TypeError m) None];
       outcome := Threw (Canonical
         (if includes "fetch" m
          then {| type := NETWORK_ERROR; userMessage := USER_MESSAGES NETWORK_ERROR;
                  debugInfo := VStr m |}
          else generic_unknown (new_TypeError m))) |}.
Proof.
  unfold generateSummary_catch, classify, classifyError, new_TypeError, bind, emit, ret, throw.
  cbn [prop_name is_string instanceof_TypeError final events outcome app].
  replace ("TypeError" =? "AbortError") with false by reflexivity.
  rewrite network_rule. destruct (includes "fetch" m); reflexivity.
Qed.

(** ** Outcomes of a dispatch *)

(** X1: when a dispatch reaches the call to the provider and the provider
    answers, headers and body, before the deadline, with a success status
    and a body that holds a text at the adapter's path, the dispatch returns
    exactly that text; its trace is the timer, the image requests (Gemini
    only), the one provider call and the disarming of the timer, nothing is
    classified, and the clock has advanced by the latency of the call and of
    its body. *)
Theorem dispatch_success provider apiKey content ty title images net c
    p req c' latency response data :
  main_request provider apiKey content ty title images net c = Some (p, req, c') ->
  net (fetches c') req = (latency, Resolves response) ->
  (now c' + latency + body_latency response < now c + 30000)%N ->
  ok response = true -> json response = Some data -> nullish data = false ->
  truthy (text_path p data) = true ->
  let r := generateSummary provider apiKey content ty title images net c in
  outcome r = Returned (text_path p data)
  /\ events r = (EvSetTimeout 30000 :: image_events provider images net c
                   ++ [EvFetch req; EvClearTimeout])%list
  /\ count_classify (events r) = 0%nat
  /\ now (final r) = (now c' + latency + body_latency response)%N.
Proof.
  intros Hm Hn Ht Hok Hj Hnl Htx. cbn zeta.
  destruct (dispatch_answered _ _ _ _ _ _ _ _ _ _ _ _ _ Hm Hn) as (Hf & Hr & _).
  cbn zeta in Hf, Hr. rewrite main_call_in_time in Hf, Hr by exact Ht.
  cbn [final events outcome] in Hf, Hr.
  destruct (Hr _ (handled_success p response data Hok Hj Hnl Htx)) as (Ho & He).
  rewrite Ho, He, Hf. split; [reflexivity|]. split; [reflexivity|].
  split; [|reflexivity].
  change (EvSetTimeout 30000 :: image_events provider images net c
            ++ [EvFetch req] ++ [EvClearTimeout])%list
    with ([EvSetTimeout 30000] ++ image_events provider images net c
            ++ [EvFetch req; EvClearTimeout])%list.
  rewrite !count_classify_app.
  rewrite (image_events_no_classify _ (image_events_fetches provider images net c)).
  reflexivity.
Qed.

Lemma dispatch_success_witness :
  outcome (generateSummary "claude" "key" page_text brief "A page" two_images
             (always 100 claude_summary) clock0)
  = Returned (VStr "A summary.").
Proof.
  apply (dispatch_success "claude" "key" page_text brief "A page" two_images
           (always 100 claude_summary) clock0 Claude_path _ clock0 100 claude_summary
           claude_body eq_refl eq_refl);
    [cbn; lia | reflexivity | reflexivity | reflexivity | reflexivity].
Defined.

(** X2: when a dispatch reaches the call to the provider and that call fails
    in transport before the deadline (fetch rejects with a TypeError of
    message [m]), the dispatch throws NETWORK_ERROR with its fixed user
    message and [m] as debug info if [m] contains "fetch", and the generic
    UNKNOWN error otherwise; the failure is reported at the instant the call
    failed. *)
Theorem dispatch_network_error provider apiKey content ty title images net c
    p req c' latency m :
  main_request provider apiKey content ty title images net c = Some (p, req, c') ->
  net (fetches c') req = (latency, Fails m) ->
  (now c' + latency < now c + 30000)%N ->
  let r := generateSummary provider apiKey content ty title images net c in
  (includes "fetch" m = true ->
     outcome r = Threw (Canonical {| type := NETWORK_ERROR;
                                     userMessage := USER_MESSAGES NETWORK_ERROR;
                                     debugInfo := VStr m |}))
  /\ (includes "fetch" m = false ->
        outcome r = Threw (Canonical (generic_unknown (new_TypeError m))))
  /\ now (final r) = (now c' + latency)%N.
Proof.
  intros Hm Hn Ht. cbn zeta.
  destruct (dispatch_answered _ _ _ _ _ _ _ _ _ _ _ _ _ Hm Hn) as (Hf & _ & Hr).
  cbn zeta in Hf, Hr. rewrite main_call_failed in Hf, Hr by exact Ht.
  cbn [final events outcome] in Hf, Hr.
  destruct (Hr _ eq_refl) as (Ho & _).
  rewrite catch_TypeError in Ho. cbn [outcome] in Ho. rewrite Ho, Hf.
  repeat split; intros ->; reflexivity.
Qed.

Lemma dispatch_network_error_witness :
  outcome (generateSummary "openai" "key" page_text brief "A page" two_images offline clock0)
  = Threw (Canonical {| type := NETWORK_ERROR;
                        userMessage := USER_MESSAGES NETWORK_ERROR;
                        debugInfo := VStr "Failed to fetch" |}).
Proof.
  apply (dispatch_network_error "openai" "key" page_text brief "A page" two_images
           offline clock0 OpenAI_path _ clock0 20 "Failed to fetch" eq_refl eq_refl);
    [cbn; lia | reflexivity].
Defined.

(** X3: when a dispatch reaches the call to the provider and, at the
    deadline (30 s after the start of the dispatch), either the headers of
    the answer have not arrived, or those of a success status have and the
    body has not, the dispatch throws TIMEOUT with the fixed message and
    debug info.  It ends at the deadline, or at the sending of the call if
    that is later; for openai and claude, which send the call at once, it
    ends exactly 30 s after the start. *)
Theorem dispatch_timeout_instant provider apiKey content ty title images net c
    p req c' latency out :
  main_request provider apiKey content ty title images net c = Some (p, req, c') ->
  net (fetches c') req = (latency, out) ->
  ((now c + 30000 <= now c' + latency)%N
   \/ exists response,
        out = Resolves response /\ ok response = true
        /\ (now c + 30000 <= now c' + latency + body_latency response)%N) ->
  let r := generateSummary provider apiKey content ty title images net c in
  outcome r = Threw (Canonical {| type := TIMEOUT;
                                  userMessage := USER_MESSAGES TIMEOUT;
                                  debugInfo := VStr "Request aborted due to timeout" |})
  /\ now (final r) = N.max (now c') (now c + 30000)
  /\ ((provider = "openai" \/ provider = "claude") -> now (final r) = (now c + 30000)%N).
Proof.
  intros Hm Hn Ht. cbn zeta.
  destruct (dispatch_answered _ _ _ _ _ _ _ _ _ _ _ _ _ Hm Hn) as (Hf & _ & Hr).
  cbn zeta in Hf, Hr.
  assert (K : (now c' <= now c' + latency)%N) by lia.
  assert (Hclock : (provider = "openai" \/ provider = "claude") -> c' = c).
  { intros [-> | ->]; cbn in Hm; injection Hm as _ _ <-; reflexivity. }
  destruct (N.leb_spec (now c + 30000) (now c' + latency)) as [Hl | Hl].
  - rewrite main_call_fetch_cut in Hf, Hr by exact Hl.
    cbn [final events outcome cut_at sent now aborts_at] in Hf, Hr.
    destruct (Hr _ eq_refl) as (Ho & _). rewrite Ho, Hf.
    split; [reflexivity|]. split; [reflexivity|].
    intros Hpc. rewrite (Hclock Hpc). unfold cut_at, sent. cbn [now aborts_at]. lia.
  - destruct Ht as [Ht | (response & -> & Hok & Ht)]; [lia|].
    rewrite (main_call_body_cut p _ req c' latency response) in Hf, Hr
      by (cbn [aborts_at]; assumption).
    cbn [final events outcome cut_at later sent now aborts_at] in Hf, Hr.
    unfold cut_short in Hr. rewrite Hok in Hr.
    destruct (Hr _ eq_refl) as (Ho & _). rewrite Ho, Hf.
    unfold cut_at, later, sent. cbn [now aborts_at].
    split; [reflexivity|]. split; [lia|].
    intros Hpc. lia.
Qed.

Lemma dispatch_timeout_instant_witness :
  now (final (generateSummary "claude" "key" page_text brief "A page" []
                (always 60000 claude_summary) clock0)) = 30000%N.
Proof.
  apply (dispatch_timeout_instant "claude" "key" page_text brief "A page" []
           (always 60000 claude_summary) clock0 Claude_path _ clock0 60000
           (Resolves claude_summary) eq_refl eq_refl);
    [left; cbn; lia | right; reflexivity].
Defined.

(** X4: a dispatch that reaches the call to the provider makes exactly one
    such call, the request the adapter builds, whatever the outcome (no
    retry, also after a failure); in all it makes at most one request per
    image plus that call.  A dispatch that does not reach it (an identifier
    outside the registry, or the image loop of the Gemini adapter throwing)
    makes no call to a provider, and at most one request per image. *)
Theorem dispatch_one_provider_call provider apiKey content ty title images net c :
  let r := generateSummary provider apiKey content ty title images net c in
  match main_request provider apiKey content ty title images net c with
  | Some (p, req, c') =>
      filter is_provider_call (events r) = [EvFetch req]
      /\ fetches (final r) = S (fetches c')
      /\ (fetches (final r) <= fetches c + length images + 1)%nat
  | None =>
      filter is_provider_call (events r) = []
      /\ (fetches (final r) <= fetches c + length images)%nat
  end.
Proof.
  cbn zeta.
  destruct (main_request provider apiKey content ty title images net c)
    as [[[p req] c']|] eqn:Hm.
  - destruct (main_request_path _ _ _ _ _ _ _ _ _ _ _ Hm) as (Hp & Hs & _ & Hclock).
    pose proof (dispatch_main_call _ _ _ _ _ _ _ _ _ _ _ Hm) as H. cbn zeta in H.
    set (sg := {| aborts_at := now c + 30000 |}) in *.
    rewrite <- (main_call_run p sg req net c' Hp Hs) in H.
    pose proof (main_call_events p sg req net c' Hp Hs) as Hev.
    pose proof (main_call_fetches p sg req net c' Hp Hs) as Hfin.
    pose proof (image_events_fetches provider images net c) as Hi.
    set (rm := bind (fetch req) (handler p sg) net c') in *.
    destruct H as (Hf & H). rewrite Hf, Hfin.
    assert (Hcall : filter is_provider_call (events rm) = [EvFetch req]).
    { destruct Hev as [-> | ->]; cbn; rewrite Hs; reflexivity. }
    split; [|split; [reflexivity | lia]].
    destruct (outcome rm) as [v|e].
    + destruct H as (_ & ->). cbn [filter is_provider_call].
      rewrite !filter_app, (image_events_no_call _ Hi), Hcall. reflexivity.
    + cbn zeta in H. destruct H as (_ & ->).
      destruct (catch_run (A := jsval) e net (final rm))
        as [(e' & st & ci & -> & _) | [-> _]];
        cbn [filter is_provider_call events];
        rewrite !filter_app, (image_events_no_call _ Hi), Hcall; reflexivity.
  - unfold main_request in Hm.
    destruct (provider =? "openai") eqn:E1; [discriminate|].
    destruct (provider =? "gemini") eqn:E2.
    + apply String.eqb_eq in E2. subst provider.
      destruct (snd (GeminiProvider.attach_images (image_results net (fetches c) images) 0))
        as [e|] eqn:Hsnd; [|discriminate].
      rewrite (dispatch_image_break apiKey content ty title images net c e Hsnd).
      cbn [final events filter is_provider_call].
      rewrite filter_app,
        (image_events_no_call _ (image_events_fetches "gemini" images net c)).
      split; [reflexivity|]. rewrite image_clock_fetches. lia.
    + destruct (provider =? "claude") eqn:E3; [discriminate|].
      unfold generateSummary, providers. rewrite E1, E2, E3.
      destruct (existsb (String.eqb provider) Object_prototype_keys); cbn;
        (split; [reflexivity | lia]).
Qed.

(** X5: every error a dispatch throws, for any provider identifier and any
    behaviour of the network, is either a classified error whose kind is
    neither INVALID_RESPONSE nor CONTENT_EXTRACTION_FAILED (the dispatcher
    never produces these two kinds of [ERROR_TYPES]), or the TypeError that
    the conversion of a provider message to a string throws in the catch
    block. *)
Theorem dispatch_kinds provider apiKey content ty title images net c e :
  outcome (generateSummary provider apiKey content ty title images net c) = Threw e ->
  (exists ci, e = Canonical ci
              /\ type ci <> INVALID_RESPONSE /\ type ci <> CONTENT_EXTRACTION_FAILED)
  \/ e = not_primitive.
Proof.
  intros H.
  destruct (dispatch_outcomes provider apiKey content ty title images net c)
    as [(v & Ho & _) | [(ci & Ho & _ & K & _) | (Ho & _)]];
    cbn zeta in *; rewrite Ho in H; [discriminate H | |].
  - injection H as <-. left. exists ci. split; [reflexivity|].
    split; intros E; rewrite E in K; discriminate K.
  - injection H as <-. right. reflexivity.
Qed.

Lemma dispatch_kinds_witness :
  (exists ci,
     Canonical {| type := NETWORK_ERROR; userMessage := USER_MESSAGES NETWORK_ERROR;
                  debugInfo := VStr "Failed to fetch" |} = Canonical ci
     /\ type ci <> INVALID_RESPONSE /\ type ci <> CONTENT_EXTRACTION_FAILED)
  \/ Canonical {| type := NETWORK_ERROR; userMessage := USER_MESSAGES NETWORK_ERROR;
                  debugInfo := VStr "Failed to fetch" |} = not_primitive.
Proof.
  apply (dispatch_kinds "openai" "key" page_text brief "A page" two_images offline clock0).
  vm_compute. reflexivity.
Defined.

(** X6: the order of the rules of [classifyError].  A TypeError whose message
    contains "fetch" is a NETWORK_ERROR whatever its name and whatever HTTP
    status is passed along; an error named AbortError that is not such a
    TypeError is a TIMEOUT whatever HTTP status is passed along. *)
Theorem classifyError_precedence (m : string) (st : option Z) :
  (forall n, includes "fetch" m = true ->
     classifyError (ErrorInstance TypeErrorClass n m) st =
       {| type := NETWORK_ERROR; userMessage := USER_MESSAGES NETWORK_ERROR;
          debugInfo := VStr m |})
  /\ (forall cls, (cls <> TypeErrorClass \/ includes "fetch" m = false) ->
        classifyError (ErrorInstance cls "AbortError" m) st =
          {| type := TIMEOUT; userMessage := USER_MESSAGES TIMEOUT;
             debugInfo := VStr "Request aborted due to timeout" |}).
Proof.
  split.
  - intros n H. unfold classifyError. rewrite network_rule, H. reflexivity.
  - intros cls H. unfold classifyError.
    destruct cls; try reflexivity.
    destruct H as [H | H]; [contradiction|]. rewrite network_rule, H. reflexivity.
Qed.

Lemma classifyError_precedence_witness :
  classifyError (ErrorInstance TypeErrorClass "AbortError" "Failed to fetch") (Some 401%Z)
  = {| type := NETWORK_ERROR; userMessage := USER_MESSAGES NETWORK_ERROR;
       debugInfo := VStr "Failed to fetch" |}
  /\ classifyError (ErrorInstance DOMExceptionClass "AbortError" "fetch aborted") (Some 429%Z)
  = {| type := TIMEOUT; userMessage := USER_MESSAGES TIMEOUT;
       debugInfo := VStr "Request aborted due to timeout" |}.
Proof.
  split.
  - apply (proj1 (classifyError_precedence "Failed to fetch" (Some 401%Z))). reflexivity.
  - apply (proj2 (classifyError_precedence "fetch aborted" (Some 429%Z))).
    left. discriminate.
Defined.

(** ** Errors shown by [summarizePage] *)

Lemma count_show_app a b : count_show (a ++ b)%list = (count_show a + count_show b)%nat.
Proof. unfold count_show. rewrite filter_app, length_app. reflexivity. Qed.

Lemma network_events_no_show sg evs :
  Forall (network_event sg) evs -> count_show evs = 0%nat.
Proof.
  induction 1 as [|ev evs Hev _ IH]; [reflexivity|].
  change (ev :: evs) with (([ev] ++ evs)%list). rewrite count_show_app, IH.
  destruct Hev as [-> | (req & -> & _)]; reflexivity.
Qed.

(** The dispatcher shows nothing itself: it throws. *)
Lemma dispatch_no_show provider apiKey content ty title images net c :
  count_show (events (generateSummary provider apiKey content ty title images net c)) = 0%nat.
Proof.
  destruct (providers provider) as [aiProvider|] eqn:Hp.
  - pose proof (dispatch_run provider aiProvider apiKey content ty title images net c Hp) as H.
    cbn zeta in H.
    set (sg := {| aborts_at := now c + 30000 |}) in *.
    pose proof (aiProvider_run_ok provider aiProvider apiKey content ty title sg
                  (imagesToPass aiProvider images) net c Hp) as [Kev _ _].
    apply network_events_no_show in Kev.
    set (ra := aiProvider_generateSummary aiProvider apiKey content ty title sg
                 (imagesToPass aiProvider images) net c) in *.
    destruct (outcome ra) as [v|e].
    + destruct H as (_ & _ & ->).
      change (EvSetTimeout 30000 :: events ra ++ [EvClearTimeout])%list
        with ([EvSetTimeout 30000] ++ events ra ++ [EvClearTimeout])%list.
      rewrite !count_show_app, Kev. reflexivity.
    + cbn zeta in H. destruct H as (_ & _ & ->).
      change (EvSetTimeout 30000
                :: (events ra ++ events (generateSummary_catch (A := jsval) e net (final ra)))
                ++ [EvClearTimeout])%list
        with ([EvSetTimeout 30000]
                ++ (events ra ++ events (generateSummary_catch (A := jsval) e net (final ra)))
                ++ [EvClearTimeout])%list.
      rewrite !count_show_app, Kev.
      destruct (catch_run (A := jsval) e net (final ra))
        as [(e' & st & ci & -> & _) | [-> _]]; reflexivity.
  - unfold generateSummary. rewrite Hp. reflexivity.
Qed.

(** The outer catch block returns after showing one error. *)
Lemma summarizePage_catch_shows err net c :
  outcome (summarizePage_catch err net c) = Returned tt
  /\ count_show (events (summarizePage_catch err net c)) = 1%nat.
Proof.
  unfold summarizePage_catch.
  destruct (truthy (prop_type err) && truthy (prop_userMessage err)); split; reflexivity.
Qed.

Lemma extract_content_cases (page : Page) net c :
  extract_content page net c =
    if restricted page then
      {| final := c;
         events := [EvShowError "🚫 Cannot summarize this page. Please open a website (e.g. a blog or docs page) and try again."];
         outcome := Returned None |}
    else
      match executeScript page with
      | Returned ex => {| final := c; events := []; outcome := Returned (Some ex) |}
      | Threw e =>
          {| final := c; events := [];
             outcome :=
               match ToString (js_or (prop_message e) (VStr "Unknown error")) with
               | Some message =>
                   Threw (Canonical
                     {| type := CONTENT_EXTRACTION_FAILED;
                        userMessage := USER_MESSAGES CONTENT_EXTRACTION_FAILED;
                        debugInfo := VStr ("Content extraction failed: " ++ message) |})
               | None => Threw not_primitive
               end |}
      end.
Proof.
  unfold extract_content, restricted, try_catch, bind.
  destruct (existsb _ restrictedPrefixes); [reflexivity|].
  destruct (executeScript page); [reflexivity|].
  cbn [throw final events outcome]. unfold to_string.
  destruct (ToString _); reflexivity.
Qed.

Lemma summarizePage_with_key (page : Page) (s : Stored) apiKey net c :
  stored page = Returned s ->
  selected_key s = Some apiKey ->
  summarizePage page net c =
    try_catch (summarizePage_try page (selected_provider s) apiKey)
      summarizePage_catch net c.
Proof.
  unfold selected_key, summarizePage. intros ->. fold (selected_provider s).
  destruct (stored_api_key s (selected_provider s)) as [k|]; [|discriminate].
  destruct (k =? ""); [discriminate|]. intros [= ->]. reflexivity.
Qed.

Lemma summarizePage_without_key (page : Page) (s : Stored) net c :
  stored page = Returned s ->
  selected_key s = None ->
  summarizePage page net c = shows "🔑 Please save your API key first." c.
Proof.
  unfold selected_key, summarizePage. intros ->. fold (selected_provider s).
  destruct (stored_api_key s (selected_provider s)) as [k|]; [|reflexivity].
  destruct (k =? ""); [reflexivity | discriminate].
Qed.

Lemma long_text_not_short (text : string) :
  (100 <= js_length text)%nat -> too_short text = false.
Proof.
  intros H. unfold too_short. apply orb_false_intro.
  - destruct text; [cbn in H; lia | reflexivity].
  - apply Nat.ltb_ge. exact H.
Qed.

(** X7: the guards of [summarizePage], once storage has been read.  Without
    a usable key for the selected provider it shows the save-your-key
    message; with a key on a restricted page (chrome://, chrome-extension://,
    about:, edge://, file://) it shows the cannot-summarize message; with a
    key on another page whose extraction fails (with an error whose message
    converts to a string, as that of every Error does) or yields less than
    100 characters (UTF-16 code units) it shows the fixed extraction
    message.  In each case that is all it does: no request is made and
    nothing is classified. *)
Theorem summarizePage_guards (page : Page) (s : Stored) (net : Network) (c : Clock) :
  stored page = Returned s ->
  (selected_key s = None ->
     summarizePage page net c = shows "🔑 Please save your API key first." c)
  /\ (selected_key s <> None -> restricted page = true ->
        summarizePage page net c =
          shows "🚫 Cannot summarize this page. Please open a website (e.g. a blog or docs page) and try again." c)
  /\ (selected_key s <> None -> restricted page = false ->
        (forall ex, executeScript page = Returned ex -> too_short (extracted_text ex) = true) ->
        (forall e, executeScript page = Threw e -> ToString (prop_message e) <> None) ->
        summarizePage page net c = shows (USER_MESSAGES CONTENT_EXTRACTION_FAILED) c).
Proof.
  intros Hst. split; [|split].
  - apply summarizePage_without_key. exact Hst.
  - intros Hk Hr. destruct (selected_key s) as [apiKey|] eqn:Ek; [|contradiction].
    rewrite (summarizePage_with_key page s apiKey net c Hst Ek).
    unfold try_catch, summarizePage_try, bind.
    rewrite extract_content_cases, Hr. reflexivity.
  - intros Hk Hr Hs He. destruct (selected_key s) as [apiKey|] eqn:Ek; [|contradiction].
    rewrite (summarizePage_with_key page s apiKey net c Hst Ek).
    unfold try_catch, summarizePage_try, bind.
    rewrite extract_content_cases, Hr.
    destruct (executeScript page) as [ex|e]; cbn [final events outcome].
    + specialize (Hs ex eq_refl). unfold too_short in Hs. rewrite Hs. reflexivity.
    + specialize (He e eq_refl). rewrite ToString_js_or.
      destruct (truthy (prop_message e)); [|reflexivity].
      destruct (ToString (prop_message e)); [reflexivity | contradiction].
Qed.

Lemma summarizePage_guards_witness :
  summarizePage (demo_page claude_stored "chrome://extensions"
                   (Returned {| extracted_text := page_text; extracted_images := [] |}))
    offline clock0
  = shows "🚫 Cannot summarize this page. Please open a website (e.g. a blog or docs page) and try again." clock0
  /\ summarizePage (demo_page claude_stored "https://a.example/"
                      (Returned {| extracted_text := "Too short."; extracted_images := [] |}))
       offline clock0
     = shows (USER_MESSAGES CONTENT_EXTRACTION_FAILED) clock0
  /\ summarizePage (demo_page {| ai_provider := Some "gemini"; openai_api_key := Some "sk-1";
                                 gemini_api_key := None; claude_api_key := None |}
                      "https://a.example/"
                      (Returned {| extracted_text := page_text; extracted_images := [] |}))
       offline clock0
     = shows "🔑 Please save your API key first." clock0.
Proof.
  split; [|split].
  - apply (proj1 (proj2 (summarizePage_guards
             (demo_page claude_stored "chrome://extensions"
                (Returned {| extracted_text := page_text; extracted_images := [] |}))
             claude_stored offline clock0 eq_refl)));
      [discriminate | reflexivity].
  - apply (proj2 (proj2 (summarizePage_guards
             (demo_page claude_stored "https://a.example/"
                (Returned {| extracted_text := "Too short."; extracted_images := [] |}))
             claude_stored offline clock0 eq_refl)));
      [discriminate | reflexivity | intros ex [= <-]; reflexivity | intros e H; discriminate H].
  - apply (proj1 (summarizePage_guards
             (demo_page {| ai_provider := Some "gemini"; openai_api_key := Some "sk-1";
                           gemini_api_key := None; claude_api_key := None |}
                "https://a.example/"
                (Returned {| extracted_text := page_text; extracted_images := [] |}))
             _ offline clock0 eq_refl)). reflexivity.
Defined.

(** A text of 60 characters of two bytes each has 60 code units, and is too
    short. *)
Example sixty_accented_letters_too_short :
  let text := "éééééééééééééééééééééééééééééééééééééééééééééééééééééééééééé" in
  String.length text = 120%nat /\ js_length text = 60%nat /\ too_short text = true
  /\ summarizePage (demo_page claude_stored "https://a.example/"
                      (Returned {| extracted_text := text; extracted_images := [] |}))
       (always 100 claude_summary) clock0
     = shows (USER_MESSAGES CONTENT_EXTRACTION_FAILED) clock0.
Proof. cbn zeta. repeat split; vm_compute; reflexivity. Qed.

(** X8: the read of storage comes before the [try] of [summarizePage]: when
    it rejects, [summarizePage] rejects with the same error and shows
    nothing.  Once storage has been read, [summarizePage] never throws and
    shows at most one error per run, whatever the page, the content script
    and the network do; it shows no error exactly when a key is stored for
    the selected provider, the page is not restricted, the extraction
    returns at least 100 UTF-16 code units, the dispatch returns a summary
    and rendering it does not fail. *)
Theorem summarizePage_one_error (page : Page) (net : Network) (c : Clock) :
  let r := summarizePage page net c in
  (forall e, stored page = Threw e ->
     r = {| final := c; events := []; outcome := Threw e |})
  /\ (forall s, stored page = Returned s ->
        outcome r = Returned tt
        /\ (count_show (events r) <= 1)%nat
        /\ (count_show (events r) = 0%nat <->
              exists apiKey ex v,
                selected_key s = Some apiKey
                /\ restricted page = false
                /\ executeScript page = Returned ex
                /\ (100 <= js_length (extracted_text ex))%nat
                /\ outcome (generateSummary (selected_provider s) apiKey
                              (extracted_text ex) (summaryType page) (tab_title page)
                              (extracted_images ex) net c) = Returned v
                /\ render page v = None)).
Proof.
  cbn zeta. split.
  { intros e He. unfold summarizePage. rewrite He. reflexivity. }
  intros s Hst. destruct (selected_key s) as [apiKey|] eqn:Ek.
  2:{ rewrite (summarizePage_without_key page s net c Hst Ek). cbn.
      repeat split; [lia | discriminate |].
      intros (k & ex & v & H1 & _). discriminate H1. }
  rewrite (summarizePage_with_key page s apiKey net c Hst Ek).
  unfold try_catch, summarizePage_try, bind. rewrite extract_content_cases.
  destruct (restricted page) eqn:Hr.
  { cbn. repeat split; [lia | discriminate |].
    intros (k & ex & v & _ & H2 & _). discriminate H2. }
  destruct (executeScript page) as [ex|e0] eqn:Hex; cbn [final events outcome app].
  2:{ match goal with |- context [match ?o with Some _ => _ | None => _ end] =>
        destruct o end; cbn [final events outcome app];
      match goal with |- context [summarizePage_catch ?e1 net ?cc] =>
        destruct (summarizePage_catch_shows e1 net cc) as [Ho Hc]; rewrite Ho, Hc end;
      (repeat split; [lia | discriminate |]);
      intros (k & ex & v & _ & _ & H3 & _); discriminate H3. }
  fold (too_short (extracted_text ex)).
  destruct (too_short (extracted_text ex)) eqn:Hshort.
  { cbn. repeat split; [lia | discriminate |].
    intros (k & ex' & v & _ & _ & H3 & H4 & _). injection H3 as <-.
    rewrite (long_text_not_short _ H4) in Hshort. discriminate Hshort. }
  pose proof (dispatch_no_show (selected_provider s) apiKey (extracted_text ex)
                (summaryType page) (tab_title page) (extracted_images ex) net c) as Hns.
  destruct (outcome (generateSummary (selected_provider s) apiKey
                       (extracted_text ex) (summaryType page) (tab_title page)
                       (extracted_images ex) net c)) as [v|e] eqn:Hd;
    cbn [final events outcome app].
  - destruct (render page v) as [e1|] eqn:Hrender; cbn [throw ret final events outcome app].
    + match goal with |- context [summarizePage_catch e1 net ?cc] =>
        destruct (summarizePage_catch_shows e1 net cc) as [Ho Hc] end.
      rewrite Ho, app_nil_r, count_show_app, Hns, Hc.
      repeat split; [lia | discriminate |].
      intros (k & ex' & v' & H1 & _ & H3 & _ & H5 & H6).
      injection H1 as <-. injection H3 as <-. rewrite Hd in H5. injection H5 as <-.
      rewrite Hrender in H6. discriminate H6.
    + rewrite app_nil_r, Hns. repeat split; [lia|].
      intros _. exists apiKey, ex, v. repeat split; try assumption.
      unfold too_short in Hshort.
      apply orb_false_elim in Hshort. destruct Hshort as [_ Hl].
      apply Nat.ltb_ge in Hl. exact Hl.
  - match goal with |- context [summarizePage_catch e net ?cc] =>
      destruct (summarizePage_catch_shows e net cc) as [Ho Hc] end.
    rewrite Ho, count_show_app, Hns, Hc.
    repeat split; [lia | discriminate |].
    intros (k & ex' & v' & H1 & _ & H3 & _ & H5 & _).
    injection H1 as <-. injection H3 as <-. rewrite Hd in H5. discriminate H5.
Qed.

Lemma summarizePage_one_error_witness :
  (exists apiKey ex v,
     selected_key claude_stored = Some apiKey
     /\ executeScript (demo_page claude_stored "https://a.example/"
                         (Returned {| extracted_text := page_text; extracted_images := two_images |}))
        = Returned ex
     /\ outcome (generateSummary "claude" apiKey (extracted_text ex) brief "A page"
                   (extracted_images ex) (always 100 claude_summary) clock0) = Returned v)
  /\ summarizePage {| stored := Threw (new_Error "storage is unavailable");
                      tab_url := None; tab_title := ""; 
                      executeScript := Threw (new_Error "unused");
                      summaryType := brief; render := fun _ => None |}
       offline clock0
     = {| final := clock0; events := [];
          outcome := Threw (new_Error "storage is unavailable") |}.
Proof.
  split.
  - destruct (proj1 (proj2 (proj2 (proj2 (summarizePage_one_error
                (demo_page claude_stored "https://a.example/"
                   (Returned {| extracted_text := page_text; extracted_images := two_images |}))
                (always 100 claude_summary) clock0) claude_stored eq_refl))))
      as (apiKey & ex & v & H1 & _ & H3 & _ & H5 & _).
    + vm_compute. reflexivity.
    + exists apiKey, ex, v. repeat split; assumption.
  - apply (proj1 (summarizePage_one_error _ offline clock0)). reflexivity.
Defined.


(** ** Keys and provider selection *)

Lemma length_append (a b : string) :
  String.length (a ++ b) = (String.length a + String.length b)%nat.
Proof. induction a as [|x a IH]; cbn; [reflexivity | rewrite IH; reflexivity]. Qed.

Lemma append_inj_r (a b s : string) : a ++ s = b ++ s -> a = b.
Proof.
  intros H.
  assert (L : String.length a = String.length b).
  { apply (f_equal String.length) in H. rewrite !length_append in H. lia. }
  revert b H L. induction a as [|x a IH]; intros [|y b] H L; try discriminate L.
  - reflexivity.
  - cbn in H. injection H as -> H. f_equal. apply IH; [exact H | cbn in L; lia].
Qed.

Lemma stored_api_key_get (st : Storage) (provider : string) :
  registered provider = true ->
  stored_api_key (storage_get st) provider = entries st (provider ++ "_api_key").
Proof.
  unfold registered, stored_api_key, storage_get. cbn [openai_api_key gemini_api_key claude_api_key].
  destruct (String.eqb_spec provider "openai") as [-> | _]; [reflexivity|].
  destruct (String.eqb_spec provider "gemini") as [-> | _]; [reflexivity|].
  destruct (String.eqb_spec provider "claude") as [-> | _]; [reflexivity | discriminate].
Qed.

Lemma registered_nonempty provider : registered provider = true -> provider <> "".
Proof. intros H ->. discriminate H. Qed.

Lemma provider_key_not_ai_provider provider :
  registered provider = true -> (provider ++ "_api_key" =? "ai_provider") = false.
Proof.
  unfold registered.
  destruct (String.eqb_spec provider "openai") as [-> | _]; [reflexivity|].
  destruct (String.eqb_spec provider "gemini") as [-> | _]; [reflexivity|].
  destruct (String.eqb_spec provider "claude") as [-> | _]; [reflexivity | discriminate].
Qed.

Lemma storage_set_comm (k1 k2 v1 v2 : string) (st : Storage) :
  k1 <> k2 ->
  forall k, entries (storage_set k1 v1 (storage_set k2 v2 st)) k
            = entries (storage_set k2 v2 (storage_set k1 v1 st)) k.
Proof.
  intros H k. unfold storage_set. cbn [entries].
  destruct (String.eqb_spec k k1) as [-> | _]; [|reflexivity].
  destruct (String.eqb_spec k1 k2) as [E | _]; [contradiction | reflexivity].
Qed.

(** What [init] writes, in terms of what [summarizePage] reads. *)
Lemma init_view (st : Storage) :
  selector_value (init st) = selected_provider (storage_get st)
  /\ key_status (init st)
     = match selected_key (storage_get st) with
       | Some _ => Some "✓ API key saved"
       | None => None
       end
  /\ (forall provider, registered provider = true ->
        selected_provider (storage_get st) = provider ->
        key_field (init st) provider = selected_key (storage_get st)).
Proof.
  split; [reflexivity|]. split.
  - unfold init, selected_key, selected_provider. cbn [key_status].
    destruct (stored_api_key _ _) as [k|]; [|reflexivity].
    destruct (k =? ""); reflexivity.
  - intros provider Hr Hs. unfold selected_key. rewrite Hs.
    unfold init, stored_api_key, registered in *. cbn [key_field].
    destruct (provider =? "openai"); [reflexivity|].
    destruct (provider =? "gemini"); [reflexivity|].
    destruct (provider =? "claude"); [reflexivity | discriminate Hr].
Qed.

(** X9: saving a key and selecting its provider is a round trip through
    storage.  For a provider of the registry and an input that is not blank,
    after [saveApiKey] and [handleProviderChange], in either order, storage
    reads back that provider as the selected one and the trimmed input as
    its key; the key status reads "API key saved"; the keys stored for the
    other providers are untouched; [summarizePage], reading that storage,
    passes its key guard and runs its body with that provider and that key; and when the popup is
    opened again, [init] selects that provider, fills its key field with the
    key and shows the same status. *)
Theorem saveApiKey_roundtrip (trim : string -> string) (provider input : string)
    (st : Storage) :
  registered provider = true ->
  trim input <> "" ->
  let saved := fst (saveApiKey trim provider input st) in
  let st1 := fst (handleProviderChange provider saved) in
  let st2 := fst (saveApiKey trim provider input (fst (handleProviderChange provider st))) in
  selected_provider (storage_get st1) = provider
  /\ selected_key (storage_get st1) = Some (trim input)
  /\ storage_get st2 = storage_get st1
  /\ snd (handleProviderChange provider saved) = "✓ API key saved"
  /\ (forall other, registered other = true -> other <> provider ->
        stored_api_key (storage_get saved) other = stored_api_key (storage_get st) other)
  /\ (forall page net c,
        stored page = Returned (storage_get st1) ->
        summarizePage page net c =
          try_catch (summarizePage_try page provider (trim input)) summarizePage_catch net c)
  /\ selector_value (init st1) = provider
  /\ key_field (init st1) provider = Some (trim input)
  /\ key_status (init st1) = Some "✓ API key saved".
Proof.
  intros Hr Hk. cbn zeta.
  assert (Hne := registered_nonempty provider Hr).
  assert (Hka := provider_key_not_ai_provider provider Hr).
  apply String.eqb_neq in Hk, Hne.
  unfold saveApiKey, handleProviderChange. rewrite Hk. cbn [fst snd].
  assert (Hsel : selected_provider
                   (storage_get (storage_set "ai_provider" provider
                      (storage_set (provider ++ "_api_key") (trim input) st))) = provider).
  { unfold selected_provider, storage_get, storage_set. cbn. rewrite Hne. reflexivity. }
  assert (Hkey : selected_key
                   (storage_get (storage_set "ai_provider" provider
                      (storage_set (provider ++ "_api_key") (trim input) st)))
                 = Some (trim input)).
  { unfold selected_key. rewrite Hsel, (stored_api_key_get _ _ Hr).
    unfold storage_set. cbn [entries]. rewrite Hka, String.eqb_refl, Hk. reflexivity. }
  split; [exact Hsel|]. split; [exact Hkey|].
  split; [|split; [|split; [|split; [|split; [|split]]]]].
  - apply String.eqb_neq in Hka. unfold storage_get.
    rewrite !(storage_set_comm _ _ (trim input) provider st Hka). reflexivity.
  - unfold storage_set. cbn [entries]. rewrite Hka, String.eqb_refl, Hk. reflexivity.
  - intros other Ho Hd. rewrite !(stored_api_key_get _ _ Ho).
    unfold storage_set. cbn [entries].
    destruct (String.eqb_spec (other ++ "_api_key") (provider ++ "_api_key")) as [E | _];
      [|reflexivity].
    apply append_inj_r in E. contradiction.
  - intros page net c Hst.
    rewrite (summarizePage_with_key page _ (trim input) net c Hst Hkey), Hsel.
    reflexivity.
  - rewrite (proj1 (init_view _)). exact Hsel.
  - rewrite (proj2 (proj2 (init_view _)) provider Hr Hsel). exact Hkey.
  - rewrite (proj1 (proj2 (init_view _))), Hkey. reflexivity.
Qed.

Lemma saveApiKey_roundtrip_witness :
  selected_key
    (storage_get (fst (handleProviderChange "claude"
                         (fst (saveApiKey trim_spaces "claude" " sk-ant-1" empty_storage)))))
  = Some "sk-ant-1".
Proof.
  apply (saveApiKey_roundtrip trim_spaces "claude" " sk-ant-1" empty_storage);
    [reflexivity | discriminate].
Defined.

(** A blank input changes nothing in storage. *)
Lemma saveApiKey_blank (trim : string -> string) (provider input : string) (st : Storage) :
  trim input = "" ->
  saveApiKey trim provider input st = (st, "✗ Please enter a valid key").
Proof. intros H. unfold saveApiKey. rewrite H. reflexivity. Qed.

(** ** The summary history *)

Lemma firstn_cons_firstn {A} (a : A) (l : list A) :
  firstn 10 (a :: firstn 10 l) = firstn 10 (a :: l).
Proof.
  rewrite !(firstn_cons 9 a). f_equal. rewrite firstn_firstn. reflexivity.
Qed.

Lemma saveSummary_history id date text title page_url ty st :
  loadHistory (saveSummary id date text title page_url ty st) =
    firstn 10 ({| item_id := id; item_text := text;
                  item_title := if title =? "" then "Untitled Page" else title;
                  item_url := match page_url with Some u => u | None => "" end;
                  item_type := ty; item_date := date |} :: loadHistory st).
Proof.
  unfold saveSummary, loadHistory. cbn [summary_history].
  match goal with |- context [(10 <? length ?l)%nat] =>
    destruct (Nat.ltb_spec 10 (length l)) as [H | H]; [reflexivity|];
    symmetry; apply firstn_all2; exact H
  end.
Qed.

(** X10: [saveSummary] puts the new item first, with the title and URL
    defaulted, keeps the nine most recent items of the history it found,
    so that the stored history never has more than 10 items whatever was
    stored before, and leaves the provider and key entries alone. *)
Theorem saveSummary_cap id date text title page_url ty st :
  let h := loadHistory (saveSummary id date text title page_url ty st) in
  (length h <= 10)%nat
  /\ h = {| item_id := id; item_text := text;
            item_title := if title =? "" then "Untitled Page" else title;
            item_url := match page_url with Some u => u | None => "" end;
            item_type := ty; item_date := date |} :: firstn 9 (loadHistory st)
  /\ entries (saveSummary id date text title page_url ty st) = entries st.
Proof.
  cbn zeta. rewrite saveSummary_history. split; [apply firstn_le_length|].
  split; reflexivity.
Qed.

Lemma save_all_snoc xs x st :
  save_all (xs ++ [x]) st =
    saveSummary (in_id x) (in_date x) (in_text x) (in_title x) (in_url x) (in_type x)
      (save_all xs st).
Proof. unfold save_all. rewrite fold_left_app. reflexivity. Qed.

(** X11: after any non-empty sequence of saves that complete one after the
    other, the history is the ten most recent items, newest first: the
    saved items in reverse order followed by the history found at the
    start, cut at ten; after a confirmed [clearHistory] it holds the saved
    items alone. *)
Theorem save_all_history (xs : list SummaryInput) (st : Storage) :
  xs <> [] ->
  loadHistory (save_all xs st) = firstn 10 (rev (map saved_item xs) ++ loadHistory st)
  /\ (length (loadHistory (save_all xs st)) <= 10)%nat
  /\ loadHistory (save_all xs (clearHistory true st)) = firstn 10 (rev (map saved_item xs)).
Proof.
  intros Hne.
  assert (H : forall st0, loadHistory (save_all xs st0)
              = firstn 10 (rev (map saved_item xs) ++ loadHistory st0)).
  { intros st0. induction xs as [|x xs IH] using rev_ind; [contradiction|].
    rewrite save_all_snoc, saveSummary_history. fold (saved_item x).
    rewrite map_app, rev_app_distr. cbn [map rev app].
    destruct xs as [|y xs'].
    - reflexivity.
    - rewrite IH by discriminate. apply firstn_cons_firstn. }
  split; [apply H|]. split; [rewrite H; apply firstn_le_length|].
  rewrite H. cbn [clearHistory loadHistory summary_history]. rewrite app_nil_r. reflexivity.
Qed.

Lemma save_all_history_witness :
  loadHistory (save_all [demo_input "First"; demo_input ""] empty_storage)
  = [saved_item (demo_input ""); saved_item (demo_input "First")].
Proof.
  apply (proj1 (save_all_history [demo_input "First"; demo_input ""] empty_storage
                  ltac:(discriminate))).
Defined.

(** ** The name of the downloaded file *)

Lemma replaced_char_lower (ch : ascii) :
  filename_char (toLowerCase_char (if is_alnum ch then ch else "_"%char)) = true.
Proof. each_ascii ch; reflexivity. Qed.

Lemma toLowerCase_underscore (ch : ascii) :
  (toLowerCase_char ch =? "_")%char = (ch =? "_")%char.
Proof. each_ascii ch; reflexivity. Qed.

Lemma filename_char_fixed (ch : ascii) :
  filename_char ch = true ->
  (if is_alnum ch then ch else "_"%char) = ch /\ toLowerCase_char ch = ch.
Proof. each_ascii ch; intros H; try discriminate H; split; reflexivity. Qed.

Lemma string_forall_substring (P : ascii -> bool) (n : nat) (s : string) :
  string_forall P s = true -> string_forall P (substring 0 n s) = true.
Proof.
  revert n. induction s as [|ch s IH]; intros [|n] H; try reflexivity.
  cbn [substring string_forall] in *. apply andb_prop in H. destruct H as [H1 H2].
  rewrite H1, (IH n H2). reflexivity.
Qed.

Lemma substring_length_le (n : nat) (s : string) :
  (String.length (substring 0 n s) <= n)%nat.
Proof.
  revert n. induction s as [|ch s IH]; intros [|n]; cbn; try lia.
  specialize (IH n). lia.
Qed.

Lemma substring_all (n : nat) (s : string) :
  (String.length s <= n)%nat -> substring 0 n s = s.
Proof.
  revert n. induction s as [|ch s IH]; intros [|n] H; cbn in *; try reflexivity; try lia.
  rewrite IH by lia. reflexivity.
Qed.

Lemma starts_collapse (s : string) :
  starts_with_underscore (collapse_underscores s) = starts_with_underscore s.
Proof.
  induction s as [|ch s IH]; [reflexivity|]. cbn [collapse_underscores].
  destruct ((ch =? "_")%char && starts_with_underscore s) eqn:E; [|reflexivity].
  apply andb_prop in E. destruct E as [E1 E2]. rewrite IH, E2. cbn. symmetry. exact E1.
Qed.

Lemma no_double_collapse (s : string) :
  no_double_underscore (collapse_underscores s) = true.
Proof.
  induction s as [|ch s IH]; [reflexivity|]. cbn [collapse_underscores].
  destruct ((ch =? "_")%char && starts_with_underscore s) eqn:E; [exact IH|].
  cbn [no_double_underscore]. rewrite starts_collapse, E, IH. reflexivity.
Qed.

Lemma starts_map_lower (s : string) :
  starts_with_underscore (string_map toLowerCase_char s) = starts_with_underscore s.
Proof. destruct s as [|ch s]; [reflexivity|]. cbn. apply toLowerCase_underscore. Qed.

Lemma no_double_map_lower (s : string) :
  no_double_underscore s = true ->
  no_double_underscore (string_map toLowerCase_char s) = true.
Proof.
  induction s as [|ch s IH]; [reflexivity|]. cbn [no_double_underscore string_map].
  intros H. apply andb_prop in H. destruct H as [H1 H2].
  rewrite toLowerCase_underscore, starts_map_lower, H1, (IH H2). reflexivity.
Qed.

Lemma starts_substring (n : nat) (s : string) :
  starts_with_underscore (substring 0 n s) = true -> starts_with_underscore s = true.
Proof. destruct s as [|ch s]; destruct n; cbn; auto; discriminate. Qed.

Lemma no_double_substring (n : nat) (s : string) :
  no_double_underscore s = true -> no_double_underscore (substring 0 n s) = true.
Proof.
  revert n. induction s as [|ch s IH]; intros [|n] H; try reflexivity.
  cbn [substring no_double_underscore] in *. apply andb_prop in H. destruct H as [H1 H2].
  rewrite (IH n H2), andb_true_r.
  destruct ((ch =? "_")%char) eqn:E1; [|reflexivity]. cbn [andb] in *.
  destruct (starts_with_underscore (substring 0 n s)) eqn:E2; [|reflexivity].
  apply starts_substring in E2. rewrite E2 in H1. discriminate H1.
Qed.

Lemma collapse_fixed (s : string) :
  no_double_underscore s = true -> collapse_underscores s = s.
Proof.
  induction s as [|ch s IH]; [reflexivity|]. cbn [no_double_underscore collapse_underscores].
  intros H. apply andb_prop in H. destruct H as [H1 H2].
  apply negb_true_iff in H1. rewrite H1, (IH H2). reflexivity.
Qed.

Lemma string_map_fixed (f : ascii -> ascii) (P : ascii -> bool) (s : string) :
  (forall ch, P ch = true -> f ch = ch) ->
  string_forall P s = true -> string_map f s = s.
Proof.
  intros Hf. induction s as [|ch s IH]; [reflexivity|]. cbn. intros H.
  apply andb_prop in H. destruct H as [H1 H2]. rewrite (Hf ch H1), (IH H2). reflexivity.
Qed.

Lemma download_filename_chars (pageTitle : string) :
  string_forall filename_char (download_filename pageTitle) = true.
Proof.
  unfold download_filename, replace_non_alnum. apply string_forall_substring.
  induction pageTitle as [|ch s IH]; [reflexivity|].
  cbn [string_map collapse_underscores].
  destruct (((if is_alnum ch then ch else "_"%char) =? "_")%char && _).
  - exact IH.
  - cbn [string_map string_forall]. rewrite replaced_char_lower, IH. reflexivity.
Qed.

Lemma download_filename_no_double (pageTitle : string) :
  no_double_underscore (download_filename pageTitle) = true.
Proof.
  unfold download_filename.
  apply no_double_substring, no_double_map_lower, no_double_collapse.
Qed.

Lemma safe_name_kept (s : string) : safe_name s -> download_filename s = s.
Proof.
  intros (Hc & Hl & Hd). unfold download_filename, replace_non_alnum.
  rewrite (string_map_fixed _ filename_char s);
    [|intros ch H; apply (filename_char_fixed ch H) | exact Hc].
  rewrite (collapse_fixed s Hd).
  rewrite (string_map_fixed _ filename_char s);
    [|intros ch H; apply (filename_char_fixed ch H) | exact Hc].
  apply substring_all, Hl.
Qed.

(** X12: whatever the title of the tab, the base name of the downloaded file
    consists of lower-case letters, digits and underscores only (no path
    separator, no dot, no blank), has at most 50 characters and has no two
    underscores in a row. *)
Theorem download_filename_safe (pageTitle : string) :
  let f := download_filename pageTitle in
  string_forall filename_char f = true
  /\ (String.length f <= 50)%nat
  /\ no_double_underscore f = true.
Proof.
  cbn zeta. split; [apply download_filename_chars|].
  split; [apply substring_length_le | apply download_filename_no_double].
Qed.

(** X13: the names the sanitiser leaves as they are are exactly the names of
    that form (lower-case letters, digits and single underscores, at most 50
    characters); hence sanitising a sanitised name changes nothing. *)
Theorem download_filename_fixed_points (s : string) :
  (download_filename s = s <-> safe_name s)
  /\ download_filename (download_filename s) = download_filename s.
Proof.
  assert (Hsafe : safe_name (download_filename s)).
  { split; [apply download_filename_chars|].
    split; [apply substring_length_le | apply download_filename_no_double]. }
  split; [split|].
  - intros E. rewrite <- E. exact Hsafe.
  - apply safe_name_kept.
  - apply safe_name_kept, Hsafe.
Qed.

Lemma download_filename_fixed_points_witness :
  download_filename "rocq_9_release_notes" = "rocq_9_release_notes".
Proof.
  apply (proj1 (download_filename_fixed_points "rocq_9_release_notes")).
  split; [reflexivity | split; [cbn; lia | reflexivity]].
Defined.

(** The name of the file for a title with capitals, blanks and punctuation,
    and for a tab without a title. *)
Example download_name_example :
  download_name (Some "Rocq 9.0 — Release Notes!") = "rocq_9_0_release_notes__summary.md"
  /\ download_name None = "untitled_page_summary.md".
Proof. split; vm_compute; reflexivity. Qed.

(** ** Content extraction *)

Lemma In_firstn {A} (x : A) (n : nat) (l : list A) : In x (firstn n l) -> In x l.
Proof.
  revert n. induction l as [|a l IH]; intros [|n] H; cbn in *; try contradiction.
  destruct H as [H | H]; [left; exact H | right; apply (IH n H)].
Qed.

Lemma filter_firstn_forall {A} (P : A -> bool) (n : nat) (l : list A) :
  Forall (fun x => P x = true) (firstn n (filter P l)).
Proof.
  apply Forall_forall. intros x Hx. apply In_firstn in Hx.
  apply filter_In in Hx. apply Hx.
Qed.

Lemma utf16_units_cases (b : ascii) :
  utf16_units b = 0%nat \/ utf16_units b = 1%nat \/ utf16_units b = 2%nat.
Proof. unfold utf16_units. cbn zeta. case_ifs; auto. Qed.

Lemma utf16_units_of_N (n : N) :
  (n < 256)%N ->
  utf16_units (ascii_of_N n) =
    if (n <? 128)%N then 1%nat else if (n <? 192)%N then 0%nat
    else if (n <? 240)%N then 1%nat else 2%nat.
Proof.
  intros H. unfold utf16_units. cbn zeta.
  assert (E : nat_of_ascii (ascii_of_N n) = N.to_nat n).
  { unfold nat_of_ascii. rewrite N_ascii_embedding by exact H. reflexivity. }
  rewrite E.
  destruct (N.ltb_spec n 128); [destruct (Nat.ltb_spec (N.to_nat n) 128); [reflexivity | lia]|].
  destruct (Nat.ltb_spec (N.to_nat n) 128); [lia|].
  destruct (N.ltb_spec n 192); [destruct (Nat.ltb_spec (N.to_nat n) 192); [reflexivity | lia]|].
  destruct (Nat.ltb_spec (N.to_nat n) 192); [lia|].
  destruct (N.ltb_spec n 240); [destruct (Nat.ltb_spec (N.to_nat n) 240); [reflexivity | lia]|].
  destruct (Nat.ltb_spec (N.to_nat n) 240); [lia | reflexivity].
Qed.

(** A high surrogate is one code unit. *)
Lemma high_surrogate_length (b0 b1 b2 : ascii) :
  js_length (high_surrogate b0 b1 b2) = 1%nat.
Proof.
  unfold high_surrogate. cbn zeta. cbn [js_length].
  match goal with |- context [ascii_of_N (160 + ?x mod 16)] =>
    pose proof (N.mod_upper_bound x 16 ltac:(lia)) as H1;
    set (k1 := (x mod 16)%N) in * end.
  match goal with |- context [ascii_of_N (128 + ?x mod 64)] =>
    pose proof (N.mod_upper_bound x 64 ltac:(lia)) as H2;
    set (k2 := (x mod 64)%N) in * end.
  rewrite (utf16_units_of_N 237) by lia.
  rewrite (utf16_units_of_N (160 + k1)) by lia.
  rewrite (utf16_units_of_N (128 + k2)) by lia.
  change (237 <? 128)%N with false. change (237 <? 192)%N with false.
  change (237 <? 240)%N with true. cbn iota.
  destruct (N.ltb_spec (160 + k1) 128); [lia|].
  destruct (N.ltb_spec (160 + k1) 192); [|lia].
  destruct (N.ltb_spec (128 + k2) 128); [lia|].
  destruct (N.ltb_spec (128 + k2) 192); [|lia].
  reflexivity.
Qed.

(** [s.slice(0, n)] has at most [n] code units. *)
Lemma js_slice_length (n : nat) (s : string) : (js_length (js_slice n s) <= n)%nat.
Proof.
  revert n. induction s as [|b rest IH]; intros n; cbn [js_slice js_length]; [lia|].
  destruct (utf16_units_cases b) as [E | [E | E]]; rewrite E.
  - cbn [js_length]. rewrite E. apply IH.
  - destruct n as [|n']; cbn [js_length]; [lia|]. rewrite E. specialize (IH n'). lia.
  - destruct n as [|[|n']]; cbn [js_length]; [lia | |].
    + destruct rest as [|b1 [|b2 rest']]; cbn [js_length]; try lia.
      rewrite high_surrogate_length. lia.
    + rewrite E. specialize (IH n'). lia.
Qed.

(** X14: whatever the document, [extractPageContent] returns at most 12000
    UTF-16 code units of text and at most two images, each with an https
    URL; a Gemini dispatch of what it returns therefore makes at most three
    requests (two images and the provider call). *)
Theorem extractPageContent_bounds (clean : string -> string) (doc : Document) :
  let ex := extractPageContent clean doc in
  (js_length (extracted_text ex) <= 12 * 1000)%nat
  /\ (length (extracted_images ex) <= 2)%nat
  /\ Forall (fun im => String.prefix "https://" (img_url im) = true) (extracted_images ex)
  /\ (forall apiKey ty title net c,
        (fetches (final (generateSummary "gemini" apiKey (extracted_text ex) ty title
                           (extracted_images ex) net c)) <= fetches c + 3)%nat).
Proof.
  cbn zeta. unfold extractPageContent. cbn [extracted_text extracted_images].
  assert (Hlen : forall pool : list Img,
            (length (map (fun img => {| img_url := src img; img_alt := alt img |})
                       (firstn 2 (filter qualifies pool))) <= 2)%nat).
  { intros pool. rewrite length_map. apply firstn_le_length. }
  split; [|split; [|split]].
  - apply js_slice_length.
  - apply Hlen.
  - apply Forall_map. eapply Forall_impl; [|apply filter_firstn_forall].
    intros img H. cbn. unfold qualifies in H.
    apply andb_prop in H. destruct H as [H _]. apply andb_prop in H. apply H.
  - intros apiKey ty title net c.
    match goal with |- context [generateSummary "gemini" ?k ?t ty title ?imgs net c] =>
      assert (Hl : (length imgs <= 2)%nat) by apply Hlen;
      destruct (main_request "gemini" k t ty title imgs net c) as [[[p req] c']|] eqn:Hm
    end.
    + destruct (main_request_path _ _ _ _ _ _ _ _ _ _ _ Hm) as (Hp & Hs & _ & Hclock).
      pose proof (dispatch_main_call _ _ _ _ _ _ _ _ _ _ _ Hm) as H. cbn zeta in H.
      destruct H as (-> & _).
      rewrite <- (main_call_run p _ req net c' Hp Hs).
      rewrite (main_call_fetches p _ req net c' Hp Hs). lia.
    + unfold main_request in Hm. cbn [String.eqb Ascii.eqb Bool.eqb] in Hm.
      match type of Hm with context [snd ?a] => destruct (snd a) as [e|] eqn:Hsnd end;
        [|discriminate Hm].
      rewrite (dispatch_image_break _ _ _ _ _ _ _ _ Hsnd). cbn [final].
      rewrite image_clock_fetches. lia.
Qed.

(** The cut counts code units: one in the middle of a character outside the
    Basic Multilingual Plane keeps its high surrogate. *)
Example slice_counts_code_units :
  js_slice 3 "aé😀b" = "aé" ++ high_surrogate "240" "159" "152"
  /\ js_length (js_slice 3 "aé😀b") = 3%nat
  /\ js_slice 4 "aé😀b" = "aé😀"
  /\ js_length "aé😀b" = 5%nat.
Proof. repeat split; vm_compute; reflexivity. Qed.

(** ** The image payload of a Gemini request *)

(** X15: the images the Gemini adapter attaches never exceed the 3 MB cap,
    counted as the adapter counts them (three quarters of the length of the
    base64 data), whatever the images fetched and however many. *)
Theorem attach_images_cap (results : list (option GeminiProvider.ImageData)) :
  (payload_bytes (fst (GeminiProvider.attach_images results 0))
     <= GeminiProvider.MAX_IMAGE_PAYLOAD)%Q.
Proof.
  assert (H : forall p, (p <= GeminiProvider.MAX_IMAGE_PAYLOAD)%Q ->
              (p + payload_bytes (fst (GeminiProvider.attach_images results p))
                 <= GeminiProvider.MAX_IMAGE_PAYLOAD)%Q).
  { induction results as [|[d|] results IH]; intros p Hp;
      cbn [GeminiProvider.attach_images payload_bytes fst].
    - lra.
    - destruct (GeminiProvider.data d) as [base64|]; cbn [fst payload_bytes]; [|lra].
      match goal with |- context [Qle_bool ?a ?b] => destruct (Qle_bool a b) eqn:E end;
        cbn [negb payload_bytes fst].
      + apply Qle_bool_iff in E. specialize (IH _ E). lra.
      + lra.
    - apply IH, Hp. }
  specialize (H 0%Q). unfold GeminiProvider.MAX_IMAGE_PAYLOAD in *.
  assert (0 <= inject_Z (3 * 1024 * 1024))%Q by (unfold Qle; cbn; lia).
  specialize (H H0). lra.
Qed.

(** ** The image indicator *)

(** X16: the image indicator of [summarizePage] agrees with what the
    dispatcher does with the images.  It reads "included in summary" exactly
    when there are images and the provider is openai or gemini, and then the
    dispatcher hands the adapter all of them; it reads "not supported by
    this provider" exactly when there are images and the provider is another
    one, and then the dispatch is the one with no image at all; without
    images it is blank. *)
Theorem image_indicator_agrees (provider : string) (images : list Image) :
  (snd (image_indicator provider images) = "image-indicator img-found"
     <-> images <> [] /\ (provider = "openai" \/ provider = "gemini"))
  /\ (snd (image_indicator provider images) = "image-indicator img-skipped"
       <-> images <> [] /\ provider <> "openai" /\ provider <> "gemini")
  /\ (images = [] <-> image_indicator provider images = ("", "image-indicator"))
  /\ (snd (image_indicator provider images) = "image-indicator img-found" ->
        exists aiProvider, providers provider = Some aiProvider
                           /\ imagesToPass aiProvider images = images)
  /\ (snd (image_indicator provider images) = "image-indicator img-skipped" ->
        forall apiKey content ty title,
          generateSummary provider apiKey content ty title images
          = generateSummary provider apiKey content ty title []).
Proof.
  assert (Hn : images = [] \/ (0 <? length images)%nat = true).
  { destruct images; [left; reflexivity | right; reflexivity]. }
  assert (Hne : (0 <? length images)%nat = true -> images <> []).
  { intros H ->. discriminate H. }
  unfold image_indicator, providerObj_supportsMultimodal, generateSummary, providers.
  destruct (String.eqb_spec provider "openai") as [-> | N1].
  { destruct Hn as [-> | Hn]; [|rewrite Hn; specialize (Hne Hn)]; cbn;
      repeat split; try discriminate; try tauto; try (intros; exfalso; intuition congruence).
    - intros _. eexists. split; reflexivity. }
  destruct (String.eqb_spec provider "gemini") as [-> | N2].
  { destruct Hn as [-> | Hn]; [|rewrite Hn; specialize (Hne Hn)]; cbn;
      repeat split; try discriminate; try tauto; try (intros; exfalso; intuition congruence).
    - intros _. eexists. split; reflexivity. }
  destruct (String.eqb_spec provider "claude") as [-> | N3].
  { destruct Hn as [-> | Hn]; [|rewrite Hn; specialize (Hne Hn)]; cbn;
      repeat split; try discriminate; try tauto; try (intros; exfalso; intuition congruence). }
  destruct (existsb (String.eqb provider) Object_prototype_keys);
    (destruct Hn as [-> | Hn]; [|rewrite Hn; specialize (Hne Hn)]; cbn;
      repeat split; try discriminate; try tauto; try (intros; exfalso; intuition congruence)).
Qed.

Lemma image_indicator_agrees_witness :
  exists aiProvider, providers "gemini" = Some aiProvider
                     /\ imagesToPass aiProvider two_images = two_images.
Proof.
  apply (proj1 (proj2 (proj2 (proj2 (image_indicator_agrees "gemini" two_images))))).
  reflexivity.
Defined.
